(** * Job-application automation API: browser pool, scraping pipeline,
      application state machine.

    A shallow embedding of the control-flow core of the repository
    (proxy selector, retry helper, browser pool, scraper base class,
    application service and the three platform adapters, with the
    pool's shutdown and sweep, the string helpers, the statistics and
    the earlier browser service) together with the properties stated
    about it. *)

From Stdlib Require Import ZArith Lia Permutation.
From stdpp Require Import base gmap strings list.

Set Default Proof Using "Type".
Local Open Scope string_scope.
Local Open Scope list_scope.

(** ** JavaScript values shared by all modules *)

(** The error classes of [utils/errors] as the code constructs them,
    with the constructor's arguments, and the engine's own [Error] and
    [TypeError]. [PlatformError] is tagged with the platform,
    [ApplicationError] with the job id. *)
Inductive JsError : Type :=
| Error (msg : string)
| TypeError (msg : string)
| PlatformError (platform msg : string)
| ApplicationError (jobId msg : string)
| BrowserError (msg : string)
| SupabaseError (msg : string).

(** [error.message]. [ApiError] hands its first argument to [Error];
    [PlatformError] hands it [`${platform}: ${message}`] and
    [ApplicationError] [`Job ${jobId}: ${message}`], so the tag is part
    of the message. *)
Definition message (e : JsError) : string :=
  match e with
  | Error m | TypeError m | BrowserError m | SupabaseError m => m
  | PlatformError platform m => platform ++ ": " ++ m
  | ApplicationError jobId m => "Job " ++ jobId ++ ": " ++ m
  end.

(** Calling a binding that holds [undefined]: a destructured import
    that the required module does not export. *)
Definition notAFunction (name : string) : JsError :=
  TypeError (name ++ " is not a function").

(** Outcome of an awaited call: it resolves with a value or rejects. *)
Inductive result (A : Type) : Type :=
| Ok (a : A)
| Throw (e : JsError).
Arguments Ok {A} a.
Arguments Throw {A} e.

Definition is_ok {A} (r : result A) : bool :=
  match r with Ok _ => true | Throw _ => false end.

(** [Math.random()] as an exact fraction [num/den] of the unit
    interval; the code only ever takes [Math.floor(Math.random() * n)]. *)
Record Random : Type := { num : nat; den : nat }.

Definition floor_scaled (r : Random) (n : Z) : Z :=
  (Z.of_nat (num r) * n) `div` Z.of_nat (den r).

(** [String.prototype.toLowerCase] on the ASCII range. *)
Definition lower_ascii (c : Ascii.ascii) : Ascii.ascii :=
  let n := Ascii.nat_of_ascii c in
  if (65 <=? n)%nat && (n <=? 90)%nat then Ascii.ascii_of_nat (n + 32) else c.

Fixpoint toLowerCase (s : string) : string :=
  match s with
  | EmptyString => EmptyString
  | String c r => String (lower_ascii c) (toLowerCase r)
  end.

(** * Part I: the embedded program *)

(** ** Control flow of the [async] functions

    An [async] function body is a computation over a state [S] (its
    local variables together with the world it acts upon) that returns
    a value or throws. *)
Definition M (S A : Type) : Type := S → result A * S.

#[global] Instance M_ret {S} : MRet (M S) := λ A a s, (Ok a, s).
#[global] Instance M_bind {S} : MBind (M S) :=
  λ A B k m s,
    match m s with
    | (Ok a, s') => k a s'
    | (Throw e, s') => (Throw e, s')
    end.

Definition throw {S A} (e : JsError) : M S A := λ s, (Throw e, s).
Definition modify {S} (f : S → S) : M S unit := λ s, (Ok tt, f s).
(** An awaited call whose outcome the environment fixes. *)
Definition await {S A} (r : result A) : M S A := λ s, (r, s).

(** [try { body } catch (error) { handler }] *)
Definition tryCatch {S A} (body : M S A) (handler : JsError → M S A) : M S A :=
  λ s,
    match body s with
    | (Ok a, s') => (Ok a, s')
    | (Throw e, s') => handler e s'
    end.

(** [try { body } finally { finalizer }]: the finalizer always runs;
    when it throws, its error replaces the body's completion. *)
Definition tryFinally {S A} (body : M S A) (finalizer : M S unit) : M S A :=
  λ s,
    match body s with
    | (r, s') =>
        match finalizer s' with
        | (Ok _, s'') => (r, s'')
        | (Throw e, s'') => (Throw e, s'')
        end
    end.

(** JavaScript truthiness of a possibly missing string. *)
Definition truthy (s : option string) : bool :=
  match s with
  | Some s => negb (String.eqb s "")
  | None => false
  end.


(** ** Proxy selector ([services/proxy.service.js]) *)
Module Proxy.

(** [config.proxy] of [config/default.js]. *)
Record ProxyConfig : Type := {
  use : bool;
  proxyList : list string;
  rotationStrategy : string;
}.

(** [getNextProxy]: the state is the module variable
    [currentProxyIndex]. [None] is JavaScript's [null] (and
    [undefined] for an index outside the array); callers only test
    [if (proxy)]. *)
Definition getNextProxy (cfg : ProxyConfig) (currentProxyIndex : nat)
  : option string * nat :=
  if negb (use cfg) || (length (proxyList cfg) =? 0)%nat then
    (None, currentProxyIndex)
  else
    (proxyList cfg !! currentProxyIndex,
     (currentProxyIndex + 1) mod length (proxyList cfg)).

Definition getRandomProxy (cfg : ProxyConfig) (r : Random) : option string :=
  if negb (use cfg) || (length (proxyList cfg) =? 0)%nat then None
  else
    let randomIndex := floor_scaled r (Z.of_nat (length (proxyList cfg))) in
    proxyList cfg !! Z.to_nat randomIndex.

Definition getProxy (cfg : ProxyConfig) (r : Random) (currentProxyIndex : nat)
  : option string * nat :=
  if negb (use cfg) then (None, currentProxyIndex)
  else if String.eqb (rotationStrategy cfg) "random" then
    (getRandomProxy cfg r, currentProxyIndex)
  else getNextProxy cfg currentProxyIndex.

(** [n] consecutive calls of [getNextProxy], threading the cursor. *)
Fixpoint calls (cfg : ProxyConfig) (n : nat) (idx : nat)
  : list (option string) * nat :=
  match n with
  | O => ([], idx)
  | S n' =>
      let '(p, idx') := getNextProxy cfg idx in
      let '(ps, idx'') := calls cfg n' idx' in
      (p :: ps, idx'')
  end.

End Proxy.

(** ** Retry helper ([utils/helpers]: [randomDelay], [withRetry]) *)
Module Retry.

(** [config.browser.maxRetries] and [config.browser.defaultDelay]. *)
Definition config_maxRetries : Z := 3.
Definition config_defaultDelay_min : Z := 500.
Definition config_defaultDelay_max : Z := 1500.

(** What [withRetry] does in the end: it returns the operation's
    value, or throws. The thrown value is [lastError], which is still
    [undefined] ([None]) when the loop body never ran. *)
Inductive outcome (V : Type) : Type :=
| Returned (v : V)
| Thrown (e : option JsError).
Arguments Returned {V} v.
Arguments Thrown {V} e.

Section WithRetry.
(** [W] is whatever the operation and the hook act upon. *)
Context {W V : Type}.
Variable random : W → Random * W.
Variable setTimeout : Z → W → W.

Record Options : Type := {
  retries : option Z;
  minDelay : option Z;
  maxDelay : option Z;
  onRetry : option (JsError → Z → Z → W → result unit * W);
}.

Definition randomDelay (min max : Z) (w : W) : Z * W :=
  let '(r, w') := random w in
  ((floor_scaled r (max - min + 1) + min)%Z, w').

(** The body of the [for] loop over the attempts still to make.
    The last component logs the outcome of every call of [fn], in
    order; it is not part of the program state. *)
Fixpoint attempts (fn : W → result V * W)
    (retries minDelay maxDelay : Z)
    (onRetry : JsError → Z → Z → W → result unit * W)
    (range : list Z) (lastError : option JsError) (w : W)
    (log : list (result V)) : outcome V * W * list (result V) :=
  match range with
  | [] => (Thrown lastError, w, log)
  | attempt :: rest =>
      let '(r, w1) := fn w in
      match r with
      | Ok v => (Returned v, w1, log ++ [r])
      | Throw error =>
          if (attempt <? retries)%Z then
            let '(delay, w2) := randomDelay minDelay maxDelay w1 in
            match onRetry error attempt delay w2 with
            | (Throw e', w3) => (Thrown (Some e'), w3, log ++ [r])
            | (Ok _, w3) =>
                attempts fn retries minDelay maxDelay onRetry rest
                  (Some error) (setTimeout delay w3) (log ++ [r])
            end
          else
            attempts fn retries minDelay maxDelay onRetry rest
              (Some error) w1 (log ++ [r])
      end
  end.

(** [for (let attempt = 0; attempt <= retries; attempt++)] ranges
    over [0, 1, ..., retries]. *)
Definition withRetry (fn : W → result V * W) (options : Options) (w : W)
  : outcome V * W * list (result V) :=
  let retries := default config_maxRetries (retries options) in
  let minDelay := default config_defaultDelay_min (minDelay options) in
  let maxDelay := default config_defaultDelay_max (maxDelay options) in
  let onRetry := default (fun _ _ _ w => (Ok tt, w)) (onRetry options) in
  attempts fn retries minDelay maxDelay onRetry
    (seqZ 0 (retries + 1)%Z) None w [].
End WithRetry.

Arguments Options : clear implicits.

End Retry.

(** ** Browser pool ([services/browser.service.js]) *)
Module Browser.

(** What the pool and its callers do to the automation engine, in
    the order they do it ([PageUsed]: a page is handed to a scraping
    or application routine). Handles are numbers: a browser process is
    named by its launch rank, contexts and pages by a shared counter. *)
Inductive Event : Type :=
| Launch (browser : nat) (platformKey : string)
| Evict (platformKey : string)
| Registered (platformKey : string) (browser : nat)
| NewContext (browser context : nat)
| NewPage (context page : nat)
| ClosePage (page : nat)
| CloseContext (context : nat)
| CloseBrowser (browser : nat)
| Disconnected (browser : nat)
| PageUsed (page : nat).

#[global] Instance Event_eq_dec : EqDecision Event.
Proof. solve_decision. Defined.

(** A value of the [browsers] map: [{ browser, lastUsed }]. *)
Record PoolEntry : Type := { browser : nat; lastUsed : Z }.

(** A launched process: whether it is still connected, and the
    [platformKey] captured by its ["disconnected"] handler. *)
Record Process : Type := { handlerKey : string; connected : bool }.

Record World : Type := {
  browsers : gmap string PoolEntry;
  processes : list Process;
  nextHandle : nat;
  trace : list Event;
}.

Definition empty : World :=
  {| browsers := ∅; processes := []; nextHandle := 0; trace := [] |}.

Definition log (e : Event) (w : World) : World :=
  {| browsers := browsers w; processes := processes w;
     nextHandle := nextHandle w; trace := trace w ++ [e] |}.

Definition setBrowsers (m : gmap string PoolEntry) (w : World) : World :=
  {| browsers := m; processes := processes w;
     nextHandle := nextHandle w; trace := trace w |}.

Definition setProcesses (ps : list Process) (w : World) : World :=
  {| browsers := browsers w; processes := ps;
     nextHandle := nextHandle w; trace := trace w |}.

Definition fresh (w : World) : nat * World :=
  (nextHandle w,
   {| browsers := browsers w; processes := processes w;
      nextHandle := S (nextHandle w); trace := trace w |}).

(** [browser.isConnected()] *)
Definition isConnected (w : World) (b : nat) : bool :=
  match processes w !! b with
  | Some p => connected p
  | None => false
  end.

(** The result of an acquisition: [{ browser, context, page }]. *)
Record Session : Type := { s_browser : nat; s_context : nat; s_page : nat }.

(** The [options] argument; [extraBrowserOptions] is only forwarded
    to the engine and is left out. *)
Record Options : Type := {
  proxy : option string;
  useExisting : option bool;
}.

(** How the engine answers during one acquisition. *)
Record Engine : Type := {
  launch : result unit;
  newContext : result unit;
  newPage : result unit;
  now : Z;
}.

(** [browser.newContext(...)] then [context.newPage()]. *)
Definition openPage (b : nat) (env : Engine) (w : World)
  : result Session * World :=
  match newContext env with
  | Throw e => (Throw e, w)
  | Ok _ =>
      let '(c, w1) := fresh w in
      let w2 := log (NewContext b c) w1 in
      match newPage env with
      | Throw e => (Throw e, w2)
      | Ok _ =>
          let '(p, w3) := fresh w2 in
          (Ok {| s_browser := b; s_context := c; s_page := p |},
           log (NewPage c p) w3)
      end
  end.

(** [browsers.delete(platformKey)] *)
Definition evict (platformKey : string) (w : World) : World :=
  log (Evict platformKey) (setBrowsers (delete platformKey (browsers w)) w).

(** The creation path: launch, install the ["disconnected"]
    handler, open a context and a page, then [browsers.set]. The
    cookie restore between the two is wrapped in [try/catch] and
    changes nothing here. *)
Definition create (platformKey : string) (env : Engine) (w : World)
  : result Session * World :=
  match launch env with
  | Throw e => (Throw e, w)
  | Ok _ =>
      let b := length (processes w) in
      let w1 :=
        log (Launch b platformKey)
          (setProcesses
             (processes w ++ [{| handlerKey := platformKey; connected := true |}])
             w) in
      match openPage b env w1 with
      | (Throw e, w2) => (Throw e, w2)
      | (Ok session, w2) =>
          (Ok session,
           log (Registered platformKey b)
             (setBrowsers
                (<[platformKey := {| browser := b; lastUsed := now env |}]>
                   (browsers w2))
                w2))
      end
  end.

(** [getBrowserForPlatform(platform, options)]; the outer
    [try/catch] logs and rethrows the same error. *)
Definition getBrowserForPlatform (platform : string) (options : Options)
    (env : Engine) (w : World) : result Session * World :=
  let platformKey := toLowerCase platform in
  let useExisting := default true (useExisting options) in
  match (if useExisting then browsers w !! platformKey else None) with
  | Some entry =>
      if isConnected w (browser entry) then openPage (browser entry) env w
      else create platformKey env (evict platformKey w)
  | None => create platformKey env w
  end.

(** The engine reports process [b] gone: the handler installed at
    launch runs once and deletes whatever the map holds under the
    key it captured. *)
Definition disconnect (b : nat) (w : World) : World :=
  match processes w !! b with
  | Some p =>
      if connected p then
        let w1 :=
          log (Disconnected b)
            (setProcesses
               (<[b := {| handlerKey := handlerKey p; connected := false |}]>
                  (processes w))
               w) in
        match browsers w1 !! handlerKey p with
        | Some _ => evict (handlerKey p) w1
        | None => w1
        end
      else w
  | None => w
  end.

(** [page.close()] and [context.close()] as the services call them:
    a rejection is swallowed by [.catch], so only the call is
    recorded. [closeBrowser] is a [browser.close()] that resolves: the
    call is recorded and the process disconnects, which runs its
    handler. *)
Definition closePage (p : nat) (w : World) : World := log (ClosePage p) w.
Definition closeContext (c : nat) (w : World) : World := log (CloseContext c) w.
Definition closeBrowser (b : nat) (w : World) : World :=
  disconnect b (log (CloseBrowser b) w).

(** Connected processes whose handler was installed for [key]. *)
Definition liveFor (w : World) (key : string) : list nat :=
  List.filter
    (λ b, match processes w !! b with
          | Some p => connected p && String.eqb (handlerKey p) key
          | None => false
          end)
    (seq 0 (length (processes w))).

(** Sequences of pool operations. *)
Inductive Op : Type :=
| Acquire (platform : string) (options : Options) (env : Engine)
| Disconnect (b : nat).

Definition step (w : World) (op : Op) : World :=
  match op with
  | Acquire platform options env =>
      snd (getBrowserForPlatform platform options env w)
  | Disconnect b => disconnect b w
  end.

Definition run (ops : list Op) (w : World) : World := foldl step w ops.

End Browser.

(** ** Backend store (the [supabase] client as the services use it) *)
Module Supabase.

(** A row of the [jobs] table, with the columns the pipelines read or
    compare; [job_id] is [NULL] for rows written without it. *)
Record Row : Type := {
  platform : string;
  url : string;
  job_id : option string;
  title : string;
  company : string;
  application_status : string;
}.

(** How one call of the client ends: [{ data, error: null }],
    [{ data: null, error }], or a rejected promise. *)
Inductive Reply : Type :=
| Resolved
| Failed (msg : string)
| Rejected (e : JsError).

Definition byUrl (p u : string) (r : Row) : bool :=
  String.eqb (platform r) p && String.eqb (url r) u.

Definition byJobId (p id : string) (r : Row) : bool :=
  String.eqb (platform r) p &&
  match job_id r with
  | Some j => String.eqb j id
  | None => false
  end.

(** [.from("jobs").select("id").eq("platform", p).eq("url", u).limit(1)] *)
Definition selectByUrl (table : list Row) (p u : string) : list Row :=
  take 1 (List.filter (byUrl p u) table).

(** [.select("id").eq("platform", p).eq("job_id", id).limit(1)] *)
Definition selectByJobId (table : list Row) (p id : string) : list Row :=
  take 1 (List.filter (byJobId p id) table).

End Supabase.

(** A scraped listing, with the fields either pipeline reads. *)
Record Listing : Type := {
  l_platform : string;
  l_url : string;
  l_job_id : string;
  l_apply_url : string;
  l_title : string;
  l_company : string;
}.

(** [stats] of [saveJobsToDatabase]. *)
Record Stats : Type := {
  total : nat;
  newJobs : nat;
  duplicates : nat;
  sampleTitles : list string;
}.

Definition countDuplicate (s : Stats) : Stats :=
  {| total := total s; newJobs := newJobs s;
     duplicates := S (duplicates s); sampleTitles := sampleTitles s |}.

(** [stats.newJobs++] and the push of a sample title while fewer than
    five are kept. *)
Definition countNew (job : Listing) (s : Stats) : Stats :=
  {| total := total s; newJobs := S (newJobs s); duplicates := duplicates s;
     sampleTitles :=
       if (length (sampleTitles s) <? 5)%nat
       then sampleTitles s ++ [l_title job ++ " at " ++ l_company job]%string
       else sampleTitles s |}.

(** ** What the services share: the pool, the proxy cursor, the store *)
Module Service.

Record World : Type := {
  pool : Browser.World;
  currentProxyIndex : nat;
  jobsTable : list Supabase.Row;
}.

Definition setPool (p : Browser.World) (w : World) : World :=
  {| pool := p; currentProxyIndex := currentProxyIndex w;
     jobsTable := jobsTable w |}.
Definition setProxyIndex (i : nat) (w : World) : World :=
  {| pool := pool w; currentProxyIndex := i; jobsTable := jobsTable w |}.
Definition setJobsTable (t : list Supabase.Row) (w : World) : World :=
  {| pool := pool w; currentProxyIndex := currentProxyIndex w; jobsTable := t |}.

Section Frame.
(** [F] holds the local variables of the function being run. *)
Context {F : Type}.

Definition locals : M (F * World) F := λ s, (Ok (fst s), s).
Definition assign (f : F → F) : M (F * World) unit :=
  modify (λ s, (f (fst s), snd s)).
Definition onPool (f : Browser.World → Browser.World) : M (F * World) unit :=
  modify (λ s, (fst s, setPool (f (pool (snd s))) (snd s))).
Definition callPool {A} (f : Browser.World → result A * Browser.World)
  : M (F * World) A :=
  λ s, let '(r, p) := f (pool (snd s)) in (r, (fst s, setPool p (snd s))).
Definition getProxy (cfg : Proxy.ProxyConfig) (r : Random)
  : M (F * World) (option string) :=
  λ s, let '(p, i) := Proxy.getProxy cfg r (currentProxyIndex (snd s)) in
       (Ok p, (fst s, setProxyIndex i (snd s))).
End Frame.

End Service.

(** ** Scraper base class ([services/scrapers/base.scraper.js]) *)
Module BaseScraper.
Import Service.

(** [this]: the constructor sets [maxRetries = 3] and
    [defaultTimeout = 30000]. *)
Record Scraper : Type := {
  platform : string;
  maxRetries : nat;
  defaultTimeout : Z;
}.

Definition new (platform : string) : Scraper :=
  {| platform := platform; maxRetries := 3; defaultTimeout := 30000 |}.

Record Options : Type := {
  keywords : option string;
  country : option string;
  jobType : option string;
  position : option string;
  postsQuantity : option nat;
}.

(** What the outside answers during one run: the engine, the
    subclass's [scrapeJobs(page, ...)] at each attempt, the pause
    between attempts, and the store for the listing at each index. *)
Record Env : Type := {
  random : Random;
  engine : Browser.Engine;
  scrapeJobs : nat → nat → result (list Listing);
  waitForTimeout : nat → result unit;
  checkReply : nat → Supabase.Reply;
  insertReply : nat → Supabase.Reply;
  startTime : Z;
  endTime : Z;
}.

Record ScrapeResult : Type := {
  r_platform : string;
  r_keywords : string;
  totalJobs : nat;
  r_newJobs : nat;
  r_duplicates : nat;
  r_sampleTitles : list string;
  executionTime : Z;
}.

Definition newRow (self : Scraper) (job : Listing) : Supabase.Row :=
  {| Supabase.platform := platform self;
     Supabase.url := l_url job;
     Supabase.job_id := None;
     Supabase.title := l_title job;
     Supabase.company := l_company job;
     Supabase.application_status := "pending" |}.

(** The [for (const job of jobs)] loop of [saveJobsToDatabase]; [i]
    is the index of the listing at the head. Every early exit of the
    body is a [continue]. *)
Fixpoint saveEach (self : Scraper) (env : Env) (i : nat) (jobs : list Listing)
    (stats : Stats) (table : list Supabase.Row) : Stats * list Supabase.Row :=
  match jobs with
  | [] => (stats, table)
  | job :: rest =>
      match checkReply env i with
      | Supabase.Rejected _ => saveEach self env (S i) rest stats table
      | Supabase.Failed _ => saveEach self env (S i) rest stats table
      | Supabase.Resolved =>
          let existingJobs :=
            Supabase.selectByUrl table (platform self) (l_url job) in
          if (0 <? length existingJobs)%nat then
            saveEach self env (S i) rest (countDuplicate stats) table
          else
            match insertReply env i with
            | Supabase.Rejected _ => saveEach self env (S i) rest stats table
            | Supabase.Failed _ => saveEach self env (S i) rest stats table
            | Supabase.Resolved =>
                saveEach self env (S i) rest (countNew job stats)
                  (table ++ [newRow self job])
            end
      end
  end.

(** [saveJobsToDatabase(jobs)]: nothing inside the outer [try] can
    throw, every failure being handled per listing. *)
Definition saveJobsToDatabase (self : Scraper) (env : Env) (jobs : list Listing)
    (table : list Supabase.Row) : result Stats * list Supabase.Row :=
  let stats :=
    {| total := length jobs; newJobs := 0; duplicates := 0; sampleTitles := [] |} in
  if (length jobs =? 0)%nat then (Ok stats, table)
  else
    let '(stats', table') := saveEach self env 0 jobs stats table in
    (Ok stats', table').

(** Local variables of [scrape]. *)
Record Frame : Type := {
  context : option nat;
  page : option nat;
}.

Definition noFrame : Frame := {| context := None; page := None |}.

(** The [while (retryCount < this.maxRetries)] loop. [remaining] is
    its variant [maxRetries - retryCount]: each turn that does not
    leave the loop increments [retryCount]. The loop is left with the
    listings of a successful attempt ([break]), with the error of the
    last attempt allowed, or with an error of the pause. *)
Fixpoint attemptLoop (self : Scraper) (env : Env) (page : nat)
    (remaining retryCount : nat) : M (Frame * World) (list Listing) :=
  match remaining with
  | O => mret []
  | S remaining' =>
      onPool (Browser.log (Browser.PageUsed page));;
      tryCatch
        (await (scrapeJobs env retryCount page))
        (λ error,
           let retryCount := S retryCount in
           if (maxRetries self <=? retryCount)%nat then throw error
           else
             await (waitForTimeout env retryCount);;
             attemptLoop self env page remaining' retryCount)
  end.

Definition saveJobs (self : Scraper) (env : Env) (jobs : list Listing)
  : M (Frame * World) Stats :=
  λ s, let '(r, t) := saveJobsToDatabase self env jobs (jobsTable (snd s)) in
       (r, (fst s, setJobsTable t (snd s))).

(** [scrape(options)] *)
Definition scrape (self : Scraper) (cfg : Proxy.ProxyConfig)
    (options : Options) (env : Env) : M (Frame * World) ScrapeResult :=
  if negb (truthy (keywords options)) then throw (Error "Keywords are required")
  else
    tryFinally
      (tryCatch
         (proxy ← getProxy cfg (random env);
          browserData ← callPool
            (Browser.getBrowserForPlatform (platform self)
               {| Browser.proxy := proxy; Browser.useExisting := Some false |}
               (engine env));
          assign (λ _, {| context := Some (Browser.s_context browserData);
                          page := Some (Browser.s_page browserData) |});;
          jobs ← attemptLoop self env (Browser.s_page browserData)
                   (maxRetries self) 0;
          saveStats ← saveJobs self env jobs;
          mret {| r_platform := platform self;
                  r_keywords := default "" (keywords options);
                  totalJobs := total saveStats;
                  r_newJobs := newJobs saveStats;
                  r_duplicates := duplicates saveStats;
                  r_sampleTitles := sampleTitles saveStats;
                  executionTime := endTime env - startTime env |})
         (λ error,
            throw (PlatformError (platform self)
                     ("Scraping failed: " ++ message error))))
      (fr ← locals;
       match page fr with
       | Some p => onPool (Browser.closePage p)
       | None => mret tt
       end;;
       match context fr with
       | Some c => onPool (Browser.closeContext c)
       | None => mret tt
       end).

End BaseScraper.

(** ** The earlier pipeline ([services/scraping.service.js]) *)
Module ScrapingService.
Import Service.

Record Options : Type := {
  platform : option string;
  keywords : option string;
  country : option string;
  jobType : option string;
}.

Record Env : Type := {
  random : Random;
  engine : Browser.Engine;
  scrapeFunction : nat → result (list Listing);
  checkReply : nat → Supabase.Reply;
  insertReply : nat → Supabase.Reply;
  startTime : Z;
  endTime : Z;
}.

Record ScrapeResult : Type := {
  r_platform : string;
  r_keywords : string;
  totalJobs : nat;
  r_newJobs : nat;
  r_duplicates : nat;
  r_sampleTitles : list string;
  executionTime : Z;
}.

Definition newRow (job : Listing) : Supabase.Row :=
  {| Supabase.platform := l_platform job;
     Supabase.url := l_apply_url job;
     Supabase.job_id := Some (l_job_id job);
     Supabase.title := l_title job;
     Supabase.company := l_company job;
     Supabase.application_status := "pending" |}.

(** The loop of [saveJobsToDatabase]: here a rejected call is not
    caught per listing, it leaves the function. *)
Fixpoint saveEach (env : Env) (i : nat) (jobs : list Listing)
    (stats : Stats) (table : list Supabase.Row)
  : result Stats * list Supabase.Row :=
  match jobs with
  | [] => (Ok stats, table)
  | job :: rest =>
      match checkReply env i with
      | Supabase.Rejected e => (Throw e, table)
      | Supabase.Failed _ => saveEach env (S i) rest stats table
      | Supabase.Resolved =>
          let existingJobs :=
            Supabase.selectByJobId table (l_platform job) (l_job_id job) in
          if (0 <? length existingJobs)%nat then
            saveEach env (S i) rest (countDuplicate stats) table
          else
            match insertReply env i with
            | Supabase.Rejected e => (Throw e, table)
            | Supabase.Failed _ => saveEach env (S i) rest stats table
            | Supabase.Resolved =>
                saveEach env (S i) rest (countNew job stats)
                  (table ++ [newRow job])
            end
      end
  end.

Definition saveJobsToDatabase (env : Env) (jobs : list Listing)
    (table : list Supabase.Row) : result Stats * list Supabase.Row :=
  saveEach env 0 jobs
    {| total := length jobs; newJobs := 0; duplicates := 0; sampleTitles := [] |}
    table.

Record Frame : Type := {
  context : option nat;
  page : option nat;
}.

Definition noFrame : Frame := {| context := None; page := None |}.

Definition supported (platform : string) : bool :=
  let p := toLowerCase platform in
  String.eqb p "linkedin" || String.eqb p "indeed" || String.eqb p "glassdoor".

Definition saveJobs (env : Env) (jobs : list Listing) : M (Frame * World) Stats :=
  λ s, let '(r, t) := saveJobsToDatabase env jobs (jobsTable (snd s)) in
       (r, (fst s, setJobsTable t (snd s))).

(** [scrapeJobs(options)] *)
Definition scrapeJobs (cfg : Proxy.ProxyConfig) (options : Options) (env : Env)
  : M (Frame * World) ScrapeResult :=
  if negb (truthy (platform options)) then throw (Error "Platform is required")
  else if negb (truthy (keywords options)) then throw (Error "Keywords are required")
  else
    let platform := default "" (platform options) in
    if negb (supported platform) then
      throw (Error ("Unsupported platform: " ++ platform))
    else
      tryFinally
        (proxy ← getProxy cfg (random env);
         browserData ← callPool
           (Browser.getBrowserForPlatform platform
              {| Browser.proxy := proxy; Browser.useExisting := Some false |}
              (engine env));
         assign (λ _, {| context := Some (Browser.s_context browserData);
                         page := Some (Browser.s_page browserData) |});;
         onPool (Browser.log (Browser.PageUsed (Browser.s_page browserData)));;
         jobs ← await (scrapeFunction env (Browser.s_page browserData));
         saveStats ← saveJobs env jobs;
         mret {| r_platform := platform;
                 r_keywords := default "" (keywords options);
                 totalJobs := total saveStats;
                 r_newJobs := newJobs saveStats;
                 r_duplicates := duplicates saveStats;
                 r_sampleTitles := sampleTitles saveStats;
                 executionTime := endTime env - startTime env |})
        (fr ← locals;
         match page fr with
         | Some p => onPool (Browser.closePage p)
         | None => mret tt
         end;;
         match context fr with
         | Some c => onPool (Browser.closeContext c)
         | None => mret tt
         end).

End ScrapingService.

(** ** Application service ([services/application.service.js]) *)
Module ApplicationService.
Import Service.

Record Job : Type := {
  id : string;
  url : option string;
  platform : option string;
  resumeText : option string;
  coverLetter : option string;
}.

Inductive PlatformInstance : Type :=
| LinkedInPlatform
| IndeedPlatform
| GlassdoorPlatform.

(** [getPlatformInstance(platformName)] *)
Definition getPlatformInstance (platformName : string) : result PlatformInstance :=
  let name := toLowerCase platformName in
  if String.eqb name "linkedin" then Ok LinkedInPlatform
  else if String.eqb name "indeed" then Ok IndeedPlatform
  else if String.eqb name "glassdoor" then Ok GlassdoorPlatform
  else Throw (ApplicationError "unknown" ("Unsupported platform: " ++ platformName)).

(** [BasePlatform.requiresLogin], which no adapter overrides. *)
Definition requiresLogin (_ : PlatformInstance) : bool := true.

(** The bindings the module takes from [./browser.service] and
    [./supabase.service] by destructuring. [services/browser.service.js]
    exports [getBrowserForPlatform] and [closeAllBrowsers], and
    [services/supabase.service.js] exports [supabase],
    [checkConnection], [saveJob], [saveApplication] and
    [updateJobStatus]: the bindings [takeScreenshot],
    [createApplication], [updateApplicationStats] and [getJobsByFilter]
    hold [undefined], and calling one of them throws a [TypeError]. *)
Definition takeScreenshot {S} : M S (option string) :=
  throw (notAFunction "takeScreenshot").
Definition createApplication {S} : M S unit :=
  throw (notAFunction "createApplication").
Definition updateApplicationStats {S} : M S unit :=
  throw (notAFunction "updateApplicationStats").
Definition getJobsByFilter {S A} : M S A :=
  throw (notAFunction "getJobsByFilter").

(** What the outside answers during one application:
    [detectPlatform] (of [utils/helpers], through the URL parser), the
    two calls of [updateJobStatus], which rethrows what the store
    reports, the engine, the adapter's [login] and [applyToJob] and the
    navigation. [notifyError] catches all its errors and has no part
    here. *)
Record Env : Type := {
  random : Random;
  detectPlatform : string → option string;
  updateInProgress : result unit;
  engine : Browser.Engine;
  login : result bool;
  goto : result unit;
  adapterApply : result bool;
  updateFinal : result unit;
}.

(** Local variables of [applyToJob]. *)
Record Frame : Type := {
  context : option nat;
  page : option nat;
  screenshotPath : option string;
  errorMessage : option string;
  status : string;
}.

Definition noFrame : Frame :=
  {| context := None; page := None; screenshotPath := None;
     errorMessage := None; status := "failed" |}.

Definition acquired (s : Browser.Session) (fr : Frame) : Frame :=
  {| context := Some (Browser.s_context s); page := Some (Browser.s_page s);
     screenshotPath := screenshotPath fr; errorMessage := errorMessage fr;
     status := status fr |}.
Definition setScreenshot (p : option string) (fr : Frame) : Frame :=
  {| context := context fr; page := page fr; screenshotPath := p;
     errorMessage := errorMessage fr; status := status fr |}.
Definition setError (m : string) (fr : Frame) : Frame :=
  {| context := context fr; page := page fr;
     screenshotPath := screenshotPath fr; errorMessage := Some m;
     status := status fr |}.
Definition setStatus (s : string) (fr : Frame) : Frame :=
  {| context := context fr; page := page fr;
     screenshotPath := screenshotPath fr; errorMessage := errorMessage fr;
     status := s |}.

Record ApplicationResult : Type := {
  a_jobId : string;
  a_platform : string;
  a_status : string;
  a_screenshotPath : option string;
  a_errorMessage : option string;
}.

(** [job.platform || detectPlatform(job.url)] *)
Definition platformOf (env : Env) (job : Job) : option string :=
  if truthy (platform job) then platform job
  else detectPlatform env (default "" (url job)).

(** [applyToJob(job)] *)
Definition applyToJob (cfg : Proxy.ProxyConfig) (job : Job) (env : Env)
  : M (Frame * World) ApplicationResult :=
  if negb (truthy (url job)) then
    throw (ApplicationError (id job) "Missing job URL")
  else if negb (truthy (platformOf env job)) then
    throw (ApplicationError (id job) "Failed to detect platform from URL")
  else
    let platform := default "" (platformOf env job) in
    await (updateInProgress env);;
    tryFinally
      (tryCatch
         (platformInstance ← await (getPlatformInstance platform);
          proxy ← getProxy cfg (random env);
          browserData ← callPool
            (Browser.getBrowserForPlatform platform
               {| Browser.proxy := proxy; Browser.useExisting := None |}
               (engine env));
          assign (acquired browserData);;
          (if requiresLogin platformInstance
           then await (login env);; mret tt
           else mret tt);;
          await (goto env);;
          onPool (Browser.log (Browser.PageUsed (Browser.s_page browserData)));;
          await (adapterApply env);;
          path ← takeScreenshot;
          assign (setScreenshot path);;
          assign (setStatus "success"))
         (λ error,
            assign (setError (message error));;
            fr ← locals;
            match page fr with
            | Some _ =>
                path ← takeScreenshot;
                assign (setScreenshot path)
            | None => mret tt
            end))
      (fr ← locals;
       match page fr with
       | Some p => onPool (Browser.closePage p)
       | None => mret tt
       end;;
       match context fr with
       | Some c => onPool (Browser.closeContext c)
       | None => mret tt
       end;;
       await (updateFinal env);;
       createApplication;;
       updateApplicationStats);;
    fr ← locals;
    mret {| a_jobId := id job; a_platform := platform; a_status := status fr;
            a_screenshotPath := screenshotPath fr;
            a_errorMessage := errorMessage fr |}.

(** One call of [applyToJob], with its own local variables. *)
Definition callApplyToJob (cfg : Proxy.ProxyConfig) (job : Job) (env : Env)
  : M World ApplicationResult :=
  λ w, let '(r, s) := applyToJob cfg job env (noFrame, w) in (r, snd s).

(** [results] of [applyToJobs]. *)
Record BatchResults : Type := {
  totalJobs : nat;
  successCount : nat;
  failedCount : nat;
  jobs : list ApplicationResult;
  startTime : Z;
  endTime : option Z;
}.

Definition recordSuccess (r : ApplicationResult) (b : BatchResults) : BatchResults :=
  {| totalJobs := totalJobs b; successCount := S (successCount b);
     failedCount := failedCount b; jobs := jobs b ++ [r];
     startTime := startTime b; endTime := endTime b |}.
Definition recordFailure (r : ApplicationResult) (b : BatchResults) : BatchResults :=
  {| totalJobs := totalJobs b; successCount := successCount b;
     failedCount := S (failedCount b); jobs := jobs b ++ [r];
     startTime := startTime b; endTime := endTime b |}.
Definition finish (t : Z) (b : BatchResults) : BatchResults :=
  {| totalJobs := totalJobs b; successCount := successCount b;
     failedCount := failedCount b; jobs := jobs b;
     startTime := startTime b; endTime := Some t |}.

Section Batch.
(** The batch as it sees the rest of the module: [apply i job] is the
    call [applyToJob(job)] made for the job of index [i], and
    [label i job] is what [job.platform || detectPlatform(job.url)]
    gives for that job. *)
Variable apply : nat → Job → M World ApplicationResult.
Variable label : nat → Job → option string.

(** The [for (const job of jobs)] loop of [applyToJobs]. *)
Fixpoint eachJob (i : nat) (rest : list Job) (results : BatchResults)
  : M World BatchResults :=
  match rest with
  | [] => mret results
  | job :: rest' =>
      results' ← tryCatch
        (result ← apply i job;
         mret (if String.eqb (a_status result) "success"
               then recordSuccess result results
               else recordFailure result results))
        (λ error,
           mret (recordFailure
                   {| a_jobId := id job;
                      a_platform :=
                        default "unknown"
                          (if truthy (label i job) then label i job else None);
                      a_status := "error";
                      a_screenshotPath := None;
                      a_errorMessage := Some (message error) |}
                   results));
      eachJob (S i) rest' results'
  end.

(** The body of [applyToJobs(jobs)]; [notifyApplicationResults]
    catches all its errors. *)
Definition batch (start stop : Z) (jobs : list Job) : M World BatchResults :=
  if (length jobs =? 0)%nat then
    throw (ApplicationError "unknown" "No jobs provided")
  else
    results ← eachJob 0 jobs
      {| totalJobs := length jobs; successCount := 0; failedCount := 0;
         jobs := []; startTime := start; endTime := None |};
    mret (finish stop results).
End Batch.

(** [applyToJobs(jobs)]; [envs i] is what the outside answers while
    the job of index [i] is handled. *)
Definition applyToJobs (cfg : Proxy.ProxyConfig) (envs : nat → Env)
    (start stop : Z) (jobs : list Job) : M World BatchResults :=
  batch (λ i job, callApplyToJob cfg job (envs i))
    (λ i job, platformOf (envs i) job) start stop jobs.

(** What [applyToJobsByFilter] returns: the object built when nothing
    was found has no [startTime] and no [endTime]. *)
Record Summary : Type := {
  s_totalJobs : nat;
  s_successCount : nat;
  s_failedCount : nat;
  s_jobs : list ApplicationResult;
  s_startTime : option Z;
  s_endTime : option Z;
}.

Definition summaryOf (b : BatchResults) : Summary :=
  {| s_totalJobs := totalJobs b; s_successCount := successCount b;
     s_failedCount := failedCount b; s_jobs := jobs b;
     s_startTime := Some (startTime b); s_endTime := endTime b |}.

(** [applyToJobsByFilter(filters)] *)
Definition applyToJobsByFilter (cfg : Proxy.ProxyConfig) (envs : nat → Env)
    (start stop : Z) : M World Summary :=
  found ← getJobsByFilter;
  if (length (found : list Job) =? 0)%nat then
    mret {| s_totalJobs := 0; s_successCount := 0; s_failedCount := 0;
            s_jobs := []; s_startTime := None; s_endTime := None |}
  else
    results ← applyToJobs cfg envs start stop found;
    mret (summaryOf results).

(** What the outside answers during one platform probe; the
    adapters' [checkLogin] catches its errors and returns [false];
    [p_close] is how [browser.close()] ends. *)
Record ProbeEnv : Type := {
  p_engine : Browser.Engine;
  p_goto : result unit;
  p_checkLogin : bool;
  p_login : result bool;
  p_close : result unit;
}.

(** Local variables of [testPlatform]. *)
Record ProbeFrame : Type := {
  t_browser : option nat;
  t_context : option nat;
  t_page : option nat;
  t_screenshotPath : option string;
}.

Definition noProbeFrame : ProbeFrame :=
  {| t_browser := None; t_context := None; t_page := None;
     t_screenshotPath := None |}.

Definition setProbeScreenshot (p : option string) (fr : ProbeFrame) : ProbeFrame :=
  {| t_browser := t_browser fr; t_context := t_context fr;
     t_page := t_page fr; t_screenshotPath := p |}.

Record ProbeResult : Type := {
  p_platform : string;
  p_status : string;
  p_isLoggedIn : bool;
  p_screenshotPath : option string;
  p_message : string;
}.

(** [config.platforms[platformName]] is defined for exactly these keys;
    reading [.urls] of [undefined] throws a [TypeError]. *)
Definition configured (platformName : string) : bool :=
  String.eqb platformName "linkedin" || String.eqb platformName "indeed"
  || String.eqb platformName "glassdoor".

(** [await browser.close().catch(() => {})]: the call is made; when
    it resolves the process is gone and its handler has run, when it
    rejects the process is as it was. *)
Definition closeQuietly (close : result unit) (b : nat) (w : Browser.World)
  : Browser.World :=
  match close with
  | Ok _ => Browser.closeBrowser b w
  | Throw _ => Browser.log (Browser.CloseBrowser b) w
  end.

(** [testPlatform(platformName)] *)
Definition testPlatform (platformName : string) (env : ProbeEnv)
  : M (ProbeFrame * World) ProbeResult :=
  tryFinally
    (tryCatch
       (platformInstance ← await (getPlatformInstance platformName);
        browserData ← callPool
          (Browser.getBrowserForPlatform platformName
             {| Browser.proxy := None; Browser.useExisting := Some false |}
             (p_engine env));
        assign (λ fr, {| t_browser := Some (Browser.s_browser browserData);
                         t_context := Some (Browser.s_context browserData);
                         t_page := Some (Browser.s_page browserData);
                         t_screenshotPath := t_screenshotPath fr |});;
        (if configured platformName then mret tt
         else throw (TypeError "Cannot read properties of undefined (reading 'urls')"));;
        await (p_goto env);;
        let isLoggedIn := p_checkLogin env in
        loginResult ← (if negb isLoggedIn then await (p_login env) else mret false);
        path ← takeScreenshot;
        assign (setProbeScreenshot path);;
        mret {| p_platform := platformName;
                p_status := "success";
                p_isLoggedIn := isLoggedIn || loginResult;
                p_screenshotPath := path;
                p_message := "Platform " ++ platformName
                               ++ " test completed successfully" |})
       (λ error,
          fr ← locals;
          match t_page fr with
          | Some _ =>
              path ← takeScreenshot;
              assign (setProbeScreenshot path)
          | None => mret tt
          end;;
          fr ← locals;
          mret {| p_platform := platformName;
                  p_status := "error";
                  p_isLoggedIn := false;
                  p_screenshotPath := t_screenshotPath fr;
                  p_message := "Platform test failed: " ++ message error |}))
    (fr ← locals;
     match t_page fr with
     | Some p => onPool (Browser.closePage p)
     | None => mret tt
     end;;
     match t_context fr with
     | Some c => onPool (Browser.closeContext c)
     | None => mret tt
     end;;
     match t_browser fr with
     | Some b => onPool (closeQuietly (p_close env) b)
     | None => mret tt
     end).

End ApplicationService.

(** ** Platform adapters ([platforms/platform.base.js], [linkedin.js],
       [indeed.js], [glassdoor.js]) *)
Module Platform.

(** The page of the automation engine, as far as the adapters drive
    it. [pause min max] is [page.waitForTimeout(randomDelay(min, max))];
    [bodyText] is [page.$eval("body", el => el.innerText)]; [fillStep]
    stands for the adapter's own filling of the inputs of the current
    step ([fillCurrentStepInputs], [fillIndeedFormStep],
    [fillGlassdoorFormStep]), whose whole body sits in a [try] that
    swallows every error. *)
Class Playwright (Page : Type) : Type := {
  waitForSelector : string → Z → Page → result unit * Page;
  pageClick : string → Page → result unit * Page;
  pause : Z → Z → Page → result unit * Page;
  textContent : string → Page → result (option string) * Page;
  bodyText : Page → result string * Page;
  fillStep : Page → Page;
}.

(** How one turn of a [while (true)] loop ends: [continue] (or the end
    of the body), or leaving the loop with a value ([return], [break]);
    a [throw] is the monad's. *)
Inductive Control (A : Type) : Type :=
| KeepGoing
| Leave (value : A).
Arguments KeepGoing {A}.
Arguments Leave {A} value.

(** [while (true) { body }], run for at most [fuel] turns: [None] when
    the loop is still running after them. *)
Fixpoint loop {Page A} (body : M Page (Control A)) (fuel : nat) (page : Page)
  : option (result A * Page) :=
  match fuel with
  | O => None
  | S fuel' =>
      match body page with
      | (Ok KeepGoing, page') => loop body fuel' page'
      | (Ok (Leave v), page') => Some (Ok v, page')
      | (Throw e, page') => Some (Throw e, page')
      end
  end.

Section Adapters.
Context {Page : Type} `{Playwright Page}.

(** [BasePlatform.click(page, selector)] with its default options. *)
Definition click (platform selector : string) : M Page unit :=
  tryCatch
    (waitForSelector selector 5000;;
     pause 300 800;;
     pageClick selector)
    (λ error,
       throw (PlatformError platform
                ("Failed to click element " ++ selector ++ ": " ++ message error))).

(** [BasePlatform.elementExists(page, selector)] *)
Definition elementExists (selector : string) : M Page bool :=
  tryCatch (waitForSelector selector 1000;; mret true) (λ _, mret false).

(** [BasePlatform.getElementText(page, selector)] *)
Definition getElementText (selector : string) : M Page (option string) :=
  tryCatch (waitForSelector selector 5000;; textContent selector)
           (λ _, mret None).

(** A value inside a template literal. *)
Definition interpolate (s : option string) : string := default "null" s.

(** After the click on the submit control: wait, look for the success
    mark, else for the error mark. *)
Definition reportError (platform errorSelector : string) : M Page unit :=
  errorText ← getElementText errorSelector;
  throw (PlatformError platform
           ("Application failed: " ++ interpolate errorText)).

Definition lookForError (platform errorSelector : string) : M Page unit :=
  hasError ← elementExists errorSelector;
  if (hasError : bool) then reportError platform errorSelector else mret tt.

Definition confirmSubmission (platform successSelector errorSelector : string)
  : M Page unit :=
  pause 2000 3000;;
  hasSuccess ← elementExists successSelector;
  if negb (hasSuccess : bool) then lookForError platform errorSelector else mret tt.

(** *** LinkedIn

    The double quotes inside the selectors of the source are written
    as single quotes. *)

Definition nextButtonSelector : string :=
  "button[aria-label='Continue to next step']".
Definition submitButtonSelector : string :=
  "button[aria-label='Submit application']".
Definition reviewButtonSelector : string :=
  "button[aria-label='Review your application']".

(** First half of a turn of LinkedIn's loop: the three controls are
    looked for, then the inputs are filled. The flags come back in the
    order [(hasNextButton, hasSubmitButton, hasReviewButton)]. *)
Definition linkedinInspect : M Page (bool * bool * bool) :=
  pause 800 1500;;
  hasNextButton ← elementExists nextButtonSelector;
  hasSubmitButton ← elementExists submitButtonSelector;
  hasReviewButton ← elementExists reviewButtonSelector;
  modify fillStep;;
  mret (hasNextButton, hasSubmitButton, hasReviewButton).

(** Second half: the chain of [if]s that acts on one control. *)
Definition linkedinAct (flags : bool * bool * bool) : M Page (Control bool) :=
  let '(hasNextButton, hasSubmitButton, hasReviewButton) := flags in
  if hasReviewButton then
    click "linkedin" reviewButtonSelector;;
    mret KeepGoing
  else if hasSubmitButton then
    click "linkedin" submitButtonSelector;;
    confirmSubmission "linkedin" ".artdeco-inline-feedback--success"
      ".artdeco-inline-feedback--error";;
    mret (Leave true)
  else if hasNextButton then
    click "linkedin" nextButtonSelector;;
    mret KeepGoing
  else
    throw (PlatformError "linkedin"
             "Could not find navigation buttons in application form").

Definition linkedinStep : M Page (Control bool) :=
  flags ← linkedinInspect;
  linkedinAct flags.

(** What comes before the loop in [LinkedInPlatform.applyToJob]:
    [Some true] when the function returns at once (already applied). *)
Definition linkedinOpenForm : M Page (option bool) :=
  jobPageCheck ← elementExists ".job-details-jobs-unified-top-card__content";
  if negb (jobPageCheck : bool) then
    throw (PlatformError "linkedin" "Not on a job details page")
  else
    applyButtonExists ← elementExists ".jobs-apply-button";
    if negb (applyButtonExists : bool) then
      alreadyApplied ← elementExists ".jobs-s-apply__applied-date";
      if (alreadyApplied : bool) then mret (Some true)
      else throw (PlatformError "linkedin" "Apply button not found")
    else
      click "linkedin" ".jobs-apply-button";;
      waitForSelector ".jobs-easy-apply-content" 5000;;
      mret None.

Definition applicationFailed (platform : string) (e : JsError) : JsError :=
  PlatformError platform ("Application failed: " ++ message e).

(** [LinkedInPlatform.applyToJob(page, options)] *)
Definition linkedinApplyToJob (fuel : nat) (page : Page)
  : option (result bool * Page) :=
  match linkedinOpenForm page with
  | (Throw e, page') => Some (Throw (applicationFailed "linkedin" e), page')
  | (Ok (Some done), page') => Some (Ok done, page')
  | (Ok None, page') =>
      match loop linkedinStep fuel page' with
      | None => None
      | Some (Ok v, page'') => Some (Ok v, page'')
      | Some (Throw e, page'') =>
          Some (Throw (applicationFailed "linkedin" e), page'')
      end
  end.

(** *** Indeed and Glassdoor: [handleIndeedApplyForm] and
        [handleGlassdoorApplyForm] are the same loop up to the platform
        tag and the text of the submit control. *)

Definition continueButtonSelector : string := "button:has-text('Continue')".
Definition reviewSelector : string := "button:has-text('Review')".
Definition indeedSubmitSelector : string := "button:has-text('Submit application')".
Definition glassdoorSubmitSelector : string := "button:has-text('Submit Application')".

(** First half of a turn: the inputs are filled, then the three
    controls are looked for; the flags come back in the order
    [(hasContinueButton, hasSubmitButton, hasReviewButton)]. *)
Definition formInspect (submitSelector : string) : M Page (bool * bool * bool) :=
  pause 1000 2000;;
  modify fillStep;;
  hasContinueButton ← elementExists continueButtonSelector;
  hasSubmitButton ← elementExists submitSelector;
  hasReviewButton ← elementExists reviewSelector;
  mret (hasContinueButton, hasSubmitButton, hasReviewButton).

Definition substring200 (s : string) : string := String.substring 0 200 s.

Definition formAct (platform submitSelector : string) (flags : bool * bool * bool)
  : M Page (Control unit) :=
  let '(hasContinueButton, hasSubmitButton, hasReviewButton) := flags in
  if hasSubmitButton then
    click platform submitSelector;;
    mret (Leave tt)
  else if hasReviewButton then
    click platform reviewSelector;;
    pause 1000 2000;;
    mret KeepGoing
  else if hasContinueButton then
    click platform continueButtonSelector;;
    pause 1000 2000;;
    mret KeepGoing
  else
    possibleError ← bodyText;
    throw (PlatformError platform
             ("Could not find navigation buttons in application form. Page text: "
                ++ substring200 possibleError ++ "...")).

Definition formStep (platform submitSelector : string) : M Page (Control unit) :=
  flags ← formInspect submitSelector;
  formAct platform submitSelector flags.

Definition handleIndeedApplyForm (fuel : nat) (page : Page)
  : option (result unit * Page) :=
  loop (formStep "indeed" indeedSubmitSelector) fuel page.

Definition handleGlassdoorApplyForm (fuel : nat) (page : Page)
  : option (result unit * Page) :=
  loop (formStep "glassdoor" glassdoorSubmitSelector) fuel page.

End Adapters.

End Platform.

(** ** Shutdown and idle sweep of the pool
       ([services/browser.service.js]: [closeAllBrowsers],
       [cleanupBrowsers]) *)
Module BrowserShutdown.
Import Browser.

(** The [for] loop of [closeAllBrowsers]: [browser.close()] is called,
    not awaited, on every entry whose process is connected; the
    handles of these processes are collected ([closePromises]).
    [entries] is what [browsers.entries()] yields: the entries of the
    map in the order in which their keys were first set, an order the
    [gmap] does not record. *)
Fixpoint startClosing (entries : list (string * PoolEntry)) (w : World)
  : list nat * World :=
  match entries with
  | [] => ([], w)
  | (platform, entry) :: rest =>
      if isConnected w (browser entry) then
        let '(closing, w') :=
          startClosing rest (log (CloseBrowser (browser entry)) w) in
        (browser entry :: closing, w')
      else startClosing rest w
  end.

(** How a closing that was started ends. When [browser.close()]
    resolves the process is gone and its handler has run; when it
    rejects, the rejection is swallowed and the process is taken to be
    as it was. *)
Definition settleClose (close : nat → result unit) (w : World) (b : nat) : World :=
  match close b with
  | Ok _ => disconnect b w
  | Throw _ => w
  end.

(** [closeAllBrowsers()]: the closings are started, the map is
    cleared, then the closings are awaited ([Promise.allSettled],
    which never rejects). By the time a process is gone the map is
    empty, so its handler finds nothing to delete. [close b] is how
    [browser.close()] ends for process [b]. *)
Definition closeAllBrowsers (close : nat → result unit)
    (entries : list (string * PoolEntry)) (w : World) : World :=
  let '(closing, w1) := startClosing entries w in
  foldl (settleClose close) (setBrowsers ∅ w1) closing.

(** [inactiveThreshold]: thirty minutes, in milliseconds. *)
Definition inactiveThreshold : Z := 30 * 60 * 1000.

(** The [for] loop of [cleanupBrowsers] over the keys still to visit;
    the iterator is live, so a key deleted since the loop began is not
    visited. [close b] is how [await browser.close()] ends for process
    [b]: when it resolves the process is gone (its handler has run)
    before [browsers.delete(platform)]; when it rejects, the [catch]
    only logs, the entry stays, and the process is taken to be as it
    was. *)
Fixpoint cleanupEach (close : nat → result unit) (now : Z)
    (keys : list string) (w : World) : World :=
  match keys with
  | [] => w
  | platform :: rest =>
      match browsers w !! platform with
      | None => cleanupEach close now rest w
      | Some entry =>
          if (inactiveThreshold <? now - lastUsed entry)%Z then
            if isConnected w (browser entry) then
              match close (browser entry) with
              | Ok _ =>
                  cleanupEach close now rest
                    (evict platform (closeBrowser (browser entry) w))
              | Throw _ =>
                  cleanupEach close now rest
                    (log (CloseBrowser (browser entry)) w)
              end
            else cleanupEach close now rest (evict platform w)
          else cleanupEach close now rest w
      end
  end.

(** [cleanupBrowsers()], which [setInterval] runs every fifteen
    minutes; [now] is [Date.now()] and [keys] the keys of the map in
    the order of [browsers.entries()]. *)
Definition cleanupBrowsers (close : nat → result unit) (now : Z)
    (keys : list string) (w : World) : World :=
  cleanupEach close now keys w.

End BrowserShutdown.

(** ** String helpers ([utils/helpers]: [extractDomain],
       [detectPlatform], [truncateText]) *)
Module Helpers.

(** The character ["."]. *)
Definition dot : Ascii.ascii := Eval cbv in Ascii.ascii_of_nat 46.

(** [s.split(sep)] for a separator of one character. *)
Fixpoint split (sep : Ascii.ascii) (s : string) : list string :=
  match s with
  | EmptyString => [EmptyString]
  | String c rest =>
      if Ascii.eqb c sep then EmptyString :: split sep rest
      else
        match split sep rest with
        | part :: parts => String c part :: parts
        | [] => [String c EmptyString]
        end
  end.

(** [s.includes(key)] *)
Fixpoint includes (s key : string) : bool :=
  String.prefix key s ||
  match s with
  | EmptyString => false
  | String _ rest => includes rest key
  end.

(** [extractDomain(url)]. [hostnameOf url] is [new URL(url).hostname],
    [None] when the constructor throws. *)
Definition extractDomain (hostnameOf : string → option string) (url : string)
  : string :=
  match hostnameOf url with
  | None => ""
  | Some hostname =>
      let parts := split dot hostname in
      if (2 <? length parts)%nat
      then String.concat "." (drop (length parts - 2) parts)
      else hostname
  end.

(** [platformMap], in the order of [Object.entries]. *)
Definition platformMap : list (string * string) :=
  [("linkedin.com", "linkedin");
   ("indeed.com", "indeed");
   ("glassdoor.com", "glassdoor")].

(** [detectPlatform(url)] *)
Definition detectPlatform (hostnameOf : string → option string) (url : string)
  : option string :=
  let domain := extractDomain hostnameOf url in
  snd <$> List.find (λ entry, includes domain (fst entry)) platformMap.

(** [truncateText(text, maxLength = 100)]; [None] is a missing text. *)
Definition truncateText (text : option string) (maxLength : option nat)
  : option string :=
  let maxLength := default 100%nat maxLength in
  match text with
  | None => None
  | Some t =>
      if negb (truthy text) || (String.length t <=? maxLength)%nat then text
      else Some (String.substring 0 maxLength t ++ "...")%string
  end.

End Helpers.

(** ** Logging in and applying ([platforms/platform.base.js]: [fill],
       [click] with [waitForNavigation]; [linkedin.js], [indeed.js],
       [glassdoor.js]: [checkLogin], [login], [applyToJob]) *)
Module PlatformFlows.
Import Platform.

(** What the login and the external application need of the page
    besides [Playwright]. [clickWithNavigation selector timeout] is
    [Promise.all([page.waitForNavigation(...), page.click(selector)])];
    [contextPages] is the length of [page.context().pages()]. *)
Class Navigation (Page : Type) : Type := {
  goto : string → Page → result unit * Page;
  pageFill : string → option string → Page → result unit * Page;
  clickWithNavigation : string → Z → Page → result unit * Page;
  contextPages : Page → nat;
}.

Section Flows.
Context {Page : Type} `{Playwright Page} `{Navigation Page}.

(** [BasePlatform.click(page, selector, { waitForNavigation: true })] *)
Definition clickAndNavigate (platform selector : string) : M Page unit :=
  tryCatch
    (waitForSelector selector 5000;;
     pause 300 800;;
     clickWithNavigation selector 5000)
    (λ error,
       throw (PlatformError platform
                ("Failed to click element " ++ selector ++ ": " ++ message error))).

(** [BasePlatform.fill(page, selector, text)] with its default
    options; [None] is a credential that the configuration leaves
    [undefined], whose [length] the debug message reads. *)
Definition fill (platform selector : string) (text : option string)
  : M Page unit :=
  tryCatch
    (waitForSelector selector 5000;;
     pageFill selector (Some "");;
     pageFill selector text;;
     match text with
     | Some _ => mret tt
     | None =>
         throw (TypeError "Cannot read properties of undefined (reading 'length')")
     end)
    (λ error,
       throw (PlatformError platform
                ("Failed to fill input " ++ selector ++ ": " ++ message error))).

(** The three [checkLogin]: the mark that only a logged-in user sees. *)
Definition checkLogin (mark : string) : M Page bool :=
  tryCatch (elementExists mark) (λ _, mret false).

Definition linkedinCheckLogin : M Page bool := checkLogin "div.global-nav__me".
Definition indeedCheckLogin : M Page bool :=
  checkLogin "[data-gnav-element-name='AccountMenu']".
Definition glassdoorCheckLogin : M Page bool := checkLogin ".member-home".

(** The end of the three [login]: after the submit click, wait, check
    again, and look for an error message. *)
Definition confirmLogin (platform mark errorSelector : string) : M Page bool :=
  pause 2000 3000;;
  loginSuccessful ← checkLogin mark;
  if negb (loginSuccessful : bool) then
    hasError ← elementExists errorSelector;
    if (hasError : bool) then
      errorText ← getElementText errorSelector;
      throw (PlatformError platform ("Login failed: " ++ interpolate errorText))
    else throw (PlatformError platform "Login failed for unknown reason")
  else mret true.

Definition loginFailed (platform : string) (e : JsError) : JsError :=
  PlatformError platform ("Login failed: " ++ message e).

(** [LinkedInPlatform.login(page)] *)
Definition linkedinLogin (username password : option string) : M Page bool :=
  tryCatch
    (isAlreadyLoggedIn ← linkedinCheckLogin;
     if (isAlreadyLoggedIn : bool) then mret true
     else
       goto "https://www.linkedin.com/login";;
       hasLoginForm ← elementExists "#username";
       if negb (hasLoginForm : bool) then
         throw (PlatformError "linkedin" "Login form not found")
       else
         fill "linkedin" "#username" username;;
         fill "linkedin" "#password" password;;
         clickAndNavigate "linkedin" ".btn__primary--large";;
         confirmLogin "linkedin" "div.global-nav__me" ".alert-content")
    (λ error, throw (loginFailed "linkedin" error)).

(** [IndeedPlatform.login(page)] *)
Definition indeedLogin (username password : option string) : M Page bool :=
  tryCatch
    (isAlreadyLoggedIn ← indeedCheckLogin;
     if (isAlreadyLoggedIn : bool) then mret true
     else
       goto "https://www.indeed.com";;
       click "indeed" "[data-gnav-element-name='SignIn']";;
       waitForSelector "#ifl-InputFormField-3" 5000;;
       fill "indeed" "#ifl-InputFormField-3" username;;
       click "indeed" continueButtonSelector;;
       waitForSelector "#ifl-InputFormField-7" 5000;;
       fill "indeed" "#ifl-InputFormField-7" password;;
       clickAndNavigate "indeed" "button[type='submit']";;
       confirmLogin "indeed" "[data-gnav-element-name='AccountMenu']"
         ".auth-page-formError")
    (λ error, throw (loginFailed "indeed" error)).

(** [GlassdoorPlatform.login(page)] *)
Definition glassdoorLogin (username password : option string) : M Page bool :=
  tryCatch
    (isAlreadyLoggedIn ← glassdoorCheckLogin;
     if (isAlreadyLoggedIn : bool) then mret true
     else
       goto "https://www.glassdoor.com/profile/login_input.htm";;
       hasEmailField ← elementExists "#modalUserEmail";
       (if negb (hasEmailField : bool) then
          hasLoginButton ← elementExists "a[href*='login']";
          if (hasLoginButton : bool) then
            click "glassdoor" "a[href*='login']";;
            waitForSelector "#modalUserEmail" 5000
          else throw (PlatformError "glassdoor" "Login form not found")
        else mret tt);;
       fill "glassdoor" "#modalUserEmail" username;;
       fill "glassdoor" "#modalUserPassword" password;;
       clickAndNavigate "glassdoor" "button[type='submit']";;
       confirmLogin "glassdoor" ".member-home" ".error")
    (λ error, throw (loginFailed "glassdoor" error)).

(** The adapter that [getPlatformInstance] hands out. *)
Definition platformOf (inst : ApplicationService.PlatformInstance) : string :=
  match inst with
  | ApplicationService.LinkedInPlatform => "linkedin"
  | ApplicationService.IndeedPlatform => "indeed"
  | ApplicationService.GlassdoorPlatform => "glassdoor"
  end.

Definition markOf (inst : ApplicationService.PlatformInstance) : string :=
  match inst with
  | ApplicationService.LinkedInPlatform => "div.global-nav__me"
  | ApplicationService.IndeedPlatform => "[data-gnav-element-name='AccountMenu']"
  | ApplicationService.GlassdoorPlatform => ".member-home"
  end.

Definition login (inst : ApplicationService.PlatformInstance)
    (username password : option string) : M Page bool :=
  match inst with
  | ApplicationService.LinkedInPlatform => linkedinLogin username password
  | ApplicationService.IndeedPlatform => indeedLogin username password
  | ApplicationService.GlassdoorPlatform => glassdoorLogin username password
  end.

(** *** Indeed and Glassdoor: [applyToJob] *)

(** What comes before the form in [IndeedPlatform.applyToJob]:
    [Some true] when the function returns at once (already applied). *)
Definition indeedOpenForm : M Page (option bool) :=
  jobPageCheck ← elementExists ".jobsearch-JobInfoHeader";
  if negb (jobPageCheck : bool) then
    throw (PlatformError "indeed" "Not on a job details page")
  else
    applyButtonExists ←
      elementExists ".jobsearch-IndeedApplyButton-contentWrapper";
    if negb (applyButtonExists : bool) then
      hasExternalApply ← elementExists "a[id='applyButtonLinkContainer']";
      if (hasExternalApply : bool) then
        throw (PlatformError "indeed"
                 "Job has external apply process that cannot be automated")
      else
        alreadyApplied ← elementExists ".jobsearch-IndeedApplyButton--applied";
        if (alreadyApplied : bool) then mret (Some true)
        else throw (PlatformError "indeed" "Apply button not found")
    else
      click "indeed" ".jobsearch-IndeedApplyButton-contentWrapper";;
      mret None.

(** The branch of [GlassdoorPlatform.applyToJob] for a job that only
    has the external control: both of its ends throw. *)
Definition glassdoorExternalApply : M Page unit :=
  click "glassdoor" ".job-apply";;
  pause 3000 5000;;
  pages ← (λ page, (Ok (contextPages page), page));
  if (1 <? (pages : nat))%nat then
    throw (PlatformError "glassdoor"
             "External application process is not supported in this implementation")
  else
    throw (PlatformError "glassdoor"
             "External application process could not be initiated").

Definition glassdoorOpenForm : M Page (option bool) :=
  jobPageCheck ← elementExists ".jobDetails";
  if negb (jobPageCheck : bool) then
    throw (PlatformError "glassdoor" "Not on a job details page")
  else
    applyButtonExists ← elementExists ".applyButton";
    externalApplyExists ← elementExists ".job-apply";
    if negb (applyButtonExists : bool) && negb (externalApplyExists : bool) then
      alreadyApplied ← elementExists ".applied";
      if (alreadyApplied : bool) then mret (Some true)
      else throw (PlatformError "glassdoor" "Apply button not found")
    else
      (if (externalApplyExists : bool) && negb (applyButtonExists : bool)
       then glassdoorExternalApply else mret tt);;
      click "glassdoor" ".applyButton";;
      mret None.

(** The two [applyToJob] from the opening of the form on: the form is
    worked through, the submission confirmed, and every error rethrown
    as ["Application failed: ..."]. *)
Definition applyThroughForm (platform : string) (openForm : M Page (option bool))
    (handleForm : nat → Page → option (result unit * Page))
    (successSelector errorSelector : string) (fuel : nat) (page : Page)
  : option (result bool * Page) :=
  match openForm page with
  | (Throw e, page') => Some (Throw (applicationFailed platform e), page')
  | (Ok (Some done), page') => Some (Ok done, page')
  | (Ok None, page') =>
      match handleForm fuel page' with
      | None => None
      | Some (Throw e, page'') =>
          Some (Throw (applicationFailed platform e), page'')
      | Some (Ok _, page'') =>
          match confirmSubmission platform successSelector errorSelector page'' with
          | (Throw e, page3) => Some (Throw (applicationFailed platform e), page3)
          | (Ok _, page3) => Some (Ok true, page3)
          end
      end
  end.

(** [IndeedPlatform.applyToJob(page, options)] *)
Definition indeedApplyToJob : nat → Page → option (result bool * Page) :=
  applyThroughForm "indeed" indeedOpenForm handleIndeedApplyForm
    ".ia-JobApplication-success" ".ia-JobApplication-error".

(** [GlassdoorPlatform.applyToJob(page, options)] *)
Definition glassdoorApplyToJob : nat → Page → option (result bool * Page) :=
  applyThroughForm "glassdoor" glassdoorOpenForm handleGlassdoorApplyForm
    ".success-message" ".error-message".

Definition applyToJob (inst : ApplicationService.PlatformInstance)
  : nat → Page → option (result bool * Page) :=
  match inst with
  | ApplicationService.LinkedInPlatform => linkedinApplyToJob
  | ApplicationService.IndeedPlatform => indeedApplyToJob
  | ApplicationService.GlassdoorPlatform => glassdoorApplyToJob
  end.

End Flows.

End PlatformFlows.

(** ** Application statistics ([services/supabase.service]:
       [updateApplicationStats], [getApplicationStats];
       [services/stats.service.js]: [enhanceStatsWithAnalytics]) *)
Module Statistics.

(** The three counters of a row of the [stats] table, of [totals] and
    of an entry of [platformStats]. *)
Record Counts : Type := {
  successful_count : Z;
  failed_count : Z;
  total_count : Z;
}.

Definition noCounts : Counts :=
  {| successful_count := 0; failed_count := 0; total_count := 0 |}.

(** [acc.successful_count += item.successful_count] and the two
    lines after it. *)
Definition addCounts (acc item : Counts) : Counts :=
  {| successful_count := successful_count acc + successful_count item;
     failed_count := failed_count acc + failed_count item;
     total_count := total_count acc + total_count item |}.

(** A row of the [stats] table; its [id] is its position in the
    table. *)
Record StatRow : Type := {
  date : string;
  platform : string;
  counts : Counts;
}.

(** *** [updateApplicationStats] *)

Definition matching (d p : string) (row : StatRow) : bool :=
  String.eqb (date row) d && String.eqb (platform row) p.

(** The rows that [.eq("date", d).eq("platform", p)] selects, with
    their ids; [i] is the id of the row at the head. *)
Fixpoint selected (d p : string) (i : nat) (table : list StatRow)
  : list (nat * StatRow) :=
  match table with
  | [] => []
  | row :: rest =>
      if matching d p row then (i, row) :: selected d p (S i) rest
      else selected d p (S i) rest
  end.

(** [.single()]: the row when exactly one is selected; otherwise
    [data] is [null] and the error has the code [PGRST116]. *)
Definition single (d p : string) (table : list StatRow) : option (nat * StatRow) :=
  match selected d p 0 table with
  | [found] => Some found
  | _ => None
  end.

(** The update of an existing row: [field] and [total_count] go up by
    one. *)
Definition bump (status : string) (row : StatRow) : StatRow :=
  {| date := date row; platform := platform row;
     counts :=
       if String.eqb status "success" then
         {| successful_count := successful_count (counts row) + 1;
            failed_count := failed_count (counts row);
            total_count := total_count (counts row) + 1 |}
       else
         {| successful_count := successful_count (counts row);
            failed_count := failed_count (counts row) + 1;
            total_count := total_count (counts row) + 1 |} |}.

(** [newStats] *)
Definition newStats (d p status : string) : StatRow :=
  {| date := d; platform := p;
     counts :=
       {| successful_count := if String.eqb status "success" then 1 else 0;
          failed_count := if String.eqb status "success" then 0 else 1;
          total_count := 1 |} |}.

(** What the outside answers during one call: the day
    ([formatDate().split("T")[0]]) and how the three calls of the
    client end. For the first call [Supabase.Failed] is an error whose
    code is not [PGRST116]. *)
Record Env : Type := {
  today : string;
  selectReply : Supabase.Reply;
  updateReply : Supabase.Reply;
  insertReply : Supabase.Reply;
}.

(** [updateApplicationStats(platform, status)]: every error is caught
    and logged, so the function only acts on the table. *)
Definition updateApplicationStats (p status : string) (env : Env)
    (table : list StatRow) : list StatRow :=
  match selectReply env with
  | Supabase.Rejected _ => table
  | Supabase.Failed _ => table
  | Supabase.Resolved =>
      match single (today env) p table with
      | Some (id, data) =>
          match updateReply env with
          | Supabase.Resolved => <[id := bump status data]> table
          | Supabase.Failed _ => table
          | Supabase.Rejected _ => table
          end
      | None =>
          match insertReply env with
          | Supabase.Resolved => table ++ [newStats (today env) p status]
          | Supabase.Failed _ => table
          | Supabase.Rejected _ => table
          end
      end
  end.

(** *** The two [reduce] over the rows read *)

(** [totals] of [getApplicationStats]. *)
Definition totals (data : list StatRow) : Counts :=
  foldl (λ acc item, addCounts acc (counts item)) noCounts data.

(** The names that a plain object inherits from [Object.prototype]:
    for such a key [acc[item.platform]] is never falsy, no entry is
    created, and the sums land on the inherited value. *)
Definition inherited (key : string) : bool :=
  existsb (String.eqb key)
    ["constructor"; "__defineGetter__"; "__defineSetter__"; "hasOwnProperty";
     "__lookupGetter__"; "__lookupSetter__"; "isPrototypeOf";
     "propertyIsEnumerable"; "toString"; "valueOf"; "__proto__";
     "toLocaleString"].

(** The callback of the [reduce] that builds [platformStats], on the
    own properties of [acc]. *)
Definition group (acc : gmap string Counts) (item : StatRow)
  : gmap string Counts :=
  if inherited (platform item) then acc
  else
    <[platform item :=
        addCounts (default noCounts (acc !! platform item)) (counts item)]> acc.

(** [platformStats] of [enhanceStatsWithAnalytics], before the
    success rates (floating-point numbers) are added to its entries. *)
Definition platformStats (data : list StatRow) : gmap string Counts :=
  foldl group ∅ data.

End Statistics.

(** ** The earlier browser service ([services/browser.service.js] with
       [browserInstances]: [closeBrowsers], [getBrowserForPlatform]) *)
Module BrowserInstances.

(** The module variable [browserInstances], a plain object used as a
    map from platform to browser: its own properties, and its
    prototype, which is [Object.prototype] ([None]) until a store under
    ["__proto__"] replaces it by a browser. Then the launched processes
    by handle with their connection state, the open contexts with
    their browser, oldest first, the next context or page handle, the
    number of calls of [chromium.launch] so far, and the handles on
    which [browser.close()] was called. *)
Record World : Type := {
  browserInstances : gmap string nat;
  prototype : option nat;
  connected : list bool;
  contexts : list (nat * nat);
  nextHandle : nat;
  launches : nat;
  closeCalls : list nat;
}.

Definition empty : World :=
  {| browserInstances := ∅; prototype := None; connected := [];
     contexts := []; nextHandle := 0; launches := 0; closeCalls := [] |}.

Definition isConnected (w : World) (browser : nat) : bool :=
  default false (connected w !! browser).

(** The [options] argument; [extraBrowserOptions] is only forwarded
    to the engine and is left out, and [proxy] only reaches the
    options of a new context. *)
Record Options : Type := {
  useExisting : option bool;
  proxy : option string;
  newContext : option bool;
}.

(** How the engine answers: the call of [chromium.launch] of each
    rank, [browser.newContext], [context.newPage], and the random
    numbers behind the pauses of [withRetry]. *)
Record Engine : Type := {
  launchReply : nat → result unit;
  newContextReply : result unit;
  newPageReply : result unit;
  random : Random;
}.

(** [closeBrowsers()]: the loop over [Object.entries(browserInstances)]
    calls [browser.close()] on the browsers that are not connected;
    a rejection is caught. [entries] is what [Object.entries] yields. *)
Fixpoint closeEach (entries : list (string * nat)) (w : World) : World :=
  match entries with
  | [] => w
  | (platform, browser) :: rest =>
      if negb (isConnected w browser) then
        closeEach rest
          {| browserInstances := browserInstances w; prototype := prototype w;
             connected := connected w;
             contexts := contexts w; nextHandle := nextHandle w;
             launches := launches w; closeCalls := closeCalls w ++ [browser] |}
      else closeEach rest w
  end.

(** The assignment [browserInstances = {}] at the end makes a new
    object, whose prototype is [Object.prototype] again. *)
Definition closeBrowsers (entries : list (string * nat)) (w : World) : World :=
  let w' := closeEach entries w in
  {| browserInstances := ∅; prototype := None; connected := connected w';
     contexts := contexts w'; nextHandle := nextHandle w';
     launches := launches w'; closeCalls := closeCalls w' |}.

(** [browser.newContext(getContextOptions(proxy))] *)
Definition newContextOn (env : Engine) (browser : nat) : M World nat :=
  λ w,
    match newContextReply env with
    | Throw e => (Throw e, w)
    | Ok _ =>
        (Ok (nextHandle w),
         {| browserInstances := browserInstances w; prototype := prototype w;
            connected := connected w;
            contexts := contexts w ++ [(browser, nextHandle w)];
            nextHandle := S (nextHandle w);
            launches := launches w; closeCalls := closeCalls w |})
    end.

(** [context.newPage()] *)
Definition newPageIn (env : Engine) (context : nat) : M World nat :=
  λ w,
    match newPageReply env with
    | Throw e => (Throw e, w)
    | Ok _ =>
        (Ok (nextHandle w),
         {| browserInstances := browserInstances w; prototype := prototype w;
            connected := connected w;
            contexts := contexts w; nextHandle := S (nextHandle w);
            launches := launches w; closeCalls := closeCalls w |})
    end.

(** [browser.contexts()[0]] *)
Definition firstContext (w : World) (browser : nat) : option nat :=
  snd <$> List.find (λ bc, (fst bc =? browser)%nat) (contexts w).

(** One call of [chromium.launch(...)]. *)
Definition launchOnce (env : Engine) (w : World) : result nat * World :=
  match launchReply env (launches w) with
  | Throw e =>
      (Throw e,
       {| browserInstances := browserInstances w; prototype := prototype w;
          connected := connected w;
          contexts := contexts w; nextHandle := nextHandle w;
          launches := S (launches w); closeCalls := closeCalls w |})
  | Ok _ =>
      (Ok (length (connected w)),
       {| browserInstances := browserInstances w; prototype := prototype w;
          connected := connected w ++ [true];
          contexts := contexts w; nextHandle := nextHandle w;
          launches := S (launches w); closeCalls := closeCalls w |})
  end.

(** The options passed to [withRetry]; [onRetry] only logs. *)
Definition launchRetries : Retry.Options World :=
  {| Retry.retries := Some 2%Z; Retry.minDelay := None; Retry.maxDelay := None;
     Retry.onRetry := Some (λ _ _ _ w, (Ok tt, w)) |}.

(** What [browserInstances[platform]] evaluates to: [undefined], a
    browser that the service stored, or a value that is truthy and is
    no browser (a method of [Object.prototype], or [Object.prototype]
    itself under ["__proto__"]). *)
Inductive Slot : Type :=
| Undefined
| Instance (browser : nat)
| Foreign.

(** Reading [browserInstances[platform]]: an own property first, then
    the prototype. Under ["__proto__"] the prototype itself is read.
    Once the prototype is a browser, what the other names give depends
    on the members of the engine's browser object, which are no part
    of the repository: the model says nothing there ([None]). *)
Definition slot (w : World) (platform : string) : option Slot :=
  match browserInstances w !! platform with
  | Some browser => Some (Instance browser)
  | None =>
      match prototype w with
      | None =>
          Some (if Statistics.inherited platform then Foreign else Undefined)
      | Some browser =>
          if String.eqb platform "__proto__" then Some (Instance browser)
          else None
      end
  end.

(** [browserInstances[platform] = browser]. Under ["__proto__"] the
    setter of [Object.prototype] runs: the prototype of the object
    becomes the browser and no own property is created. Any other
    name becomes (or stays) an own property, the members of
    [Object.prototype] being writable; once the prototype is a browser
    the outcome for a name that is not yet an own property depends on
    that browser's members ([None]). *)
Definition store (platform : string) (browser : nat) (w : World) : option World :=
  if String.eqb platform "__proto__" then
    Some {| browserInstances := browserInstances w; prototype := Some browser;
            connected := connected w; contexts := contexts w;
            nextHandle := nextHandle w; launches := launches w;
            closeCalls := closeCalls w |}
  else
    match browserInstances w !! platform, prototype w with
    | None, Some _ => None
    | _, _ =>
        Some {| browserInstances := <[platform := browser]> (browserInstances w);
                prototype := prototype w;
                connected := connected w; contexts := contexts w;
                nextHandle := nextHandle w; launches := launches w;
                closeCalls := closeCalls w |}
    end.

(** [await withRetry(() => chromium.launch(...), { retries: 2, ... })];
    a thrown [undefined] has no [message] for the [catch] to read. *)
Definition launchWithRetry (env : Engine) : M World nat :=
  λ w,
    match Retry.withRetry (λ w, (random env, w)) (λ _ w, w)
            (launchOnce env) launchRetries w with
    | (Retry.Returned browser, w', _) => (Ok browser, w')
    | (Retry.Thrown (Some e), w', _) => (Throw e, w')
    | (Retry.Thrown None, w', _) =>
        (Throw (TypeError "Cannot read properties of undefined (reading 'message')"),
         w')
    end.

(** The [catch] of the [try] block that creates a process. *)
Definition creationFailed (error : JsError) : JsError :=
  BrowserError ("Failed to create browser: " ++ message error).

(** What follows the store inside the [try] block: the context and
    the page of the new process. *)
Definition openFirstPage (browser : nat) (env : Engine)
  : M World Browser.Session :=
  tryCatch
    (context ← newContextOn env browser;
     page ← newPageIn env context;
     mret {| Browser.s_browser := browser; Browser.s_context := context;
             Browser.s_page := page |})
    (λ error, throw (creationFailed error)).

(** The [try] block that creates a process and registers it before
    its context and page are opened; its [catch] rethrows every error
    as a [BrowserError]. *)
Definition create (platform : string) (env : Engine) (w : World)
  : option (result Browser.Session * World) :=
  match launchWithRetry env w with
  | (Throw error, w1) => Some (Throw (creationFailed error), w1)
  | (Ok browser, w1) =>
      w2 ← store platform browser w1;
      Some (openFirstPage browser env w2)
  end.

(** The branch that reuses the registered process: its first open
    context unless a new one is asked for. *)
Definition reuse (browser : nat) (newContext : bool) (env : Engine)
  : M World Browser.Session :=
  λ w,
    (context ← (if newContext then newContextOn env browser
                else match firstContext w browser with
                     | Some context => mret context
                     | None => newContextOn env browser
                     end);
     page ← newPageIn env context;
     mret {| Browser.s_browser := browser; Browser.s_context := context;
             Browser.s_page := page |}) w.

(** [getBrowserForPlatform(platform, options)]. The test for a
    browser to reuse stands before the [try] block: on a value that is
    no browser the call of [isConnected] throws a [TypeError] that
    nothing wraps. *)
Definition getBrowserForPlatform (platform : string) (options : Options)
    (env : Engine) (w : World) : option (result Browser.Session * World) :=
  let useExisting := default true (useExisting options) in
  let newContext := default false (newContext options) in
  if useExisting then
    found ← slot w platform;
    match found with
    | Undefined => create platform env w
    | Instance browser =>
        if isConnected w browser then Some (reuse browser newContext env w)
        else create platform env w
    | Foreign =>
        Some (Throw (notAFunction "browserInstances[platform].isConnected"), w)
    end
  else create platform env w.

End BrowserInstances.

(** * Part II: properties *)

Module ProxySpec.
Import Proxy.

Section RoundRobin.
Variable cfg : ProxyConfig.
Hypothesis enabled : use cfg = true.
Hypothesis nonempty : proxyList cfg ≠ [].

Let N := length (proxyList cfg).

Lemma N_pos : 0 < N.
Proof using nonempty.
  subst N. destruct (proxyList cfg); [done | simpl; lia].
Qed.

Lemma getNextProxy_enabled idx :
  getNextProxy cfg idx = (proxyList cfg !! idx, (idx + 1) mod N).
Proof using enabled nonempty.
  unfold getNextProxy. rewrite enabled. simpl.
  pose proof N_pos as HN. subst N.
  destruct (Nat.eqb_spec (length (proxyList cfg)) 0); [lia | done].
Qed.

Lemma calls_spec n idx :
  idx < N →
  calls cfg n idx =
    (map (fun i => proxyList cfg !! ((idx + i) mod N)) (seq 0 n),
     (idx + n) mod N).
Proof using enabled nonempty.
  revert idx.
  induction n as [| n IH]; intros idx Hlt; simpl.
  - rewrite Nat.add_0_r, Nat.mod_small by done. done.
  - rewrite getNextProxy_enabled.
    pose proof N_pos as HN.
    assert (Hlt' : (idx + 1) mod N < N) by (apply Nat.mod_upper_bound; lia).
    rewrite (IH _ Hlt'). f_equal.
    + rewrite Nat.add_0_r, (Nat.mod_small idx) by done. f_equal.
      rewrite <- seq_shift, map_map. apply map_ext. intros i.
      f_equal. rewrite Nat.Div0.add_mod_idemp_l. f_equal. lia.
    + rewrite Nat.Div0.add_mod_idemp_l. f_equal. lia.
Qed.

Lemma cursor_reachable k : snd (calls cfg k 0) = k mod N.
Proof using enabled nonempty.
  rewrite calls_spec by apply N_pos. done.
Qed.

Lemma full_round idx :
  idx < N →
  calls cfg N idx = (map Some (rotate idx (proxyList cfg)), idx).
Proof using enabled nonempty.
  intros Hlt. rewrite calls_spec by done. f_equal.
  - apply list_eq. intros i.
    rewrite !list_lookup_fmap.
    destruct (decide (i < N)) as [Hi | Hi].
    + rewrite lookup_seq_lt by done. simpl.
      rewrite lookup_rotate_r by done. unfold rotate_nat_add.
      fold N.
      rewrite <- Nat2Z.inj_add, <- Nat2Z.inj_mod, Nat2Z.id.
      destruct (proxyList cfg !! ((idx + i) mod N)) eqn:E; [done |].
      apply lookup_ge_None in E. fold N in E.
      pose proof (Nat.mod_upper_bound (idx + i) N). lia.
    + rewrite lookup_seq_ge by lia. simpl.
      rewrite (proj2 (lookup_ge_None _ _)); [done |].
      rewrite length_rotate. fold N. lia.
  - rewrite <- Nat.Div0.add_mod_idemp_r, Nat.Div0.mod_same, Nat.add_0_r.
    by apply Nat.mod_small.
Qed.
End RoundRobin.

(** C9. With proxies enabled and a non-empty list of [N] endpoints,
    whatever number [k] of selections came before, the next [N]
    calls of the round-robin selector return the configured list
    rotated to the cursor: every endpoint of the list exactly once,
    in list order (cyclically), and the cursor is back where it
    started; each single call moves the cursor to [(idx + 1) mod N]. *)
Theorem round_robin_visits_each_once (cfg : ProxyConfig) (k : nat) :
  use cfg = true →
  proxyList cfg ≠ [] →
  let N := length (proxyList cfg) in
  let cursor := snd (calls cfg k 0) in
  cursor = k mod N ∧
  calls cfg N cursor = (map Some (rotate cursor (proxyList cfg)), cursor) ∧
  fst (calls cfg N cursor) ≡ₚ map Some (proxyList cfg) ∧
  ∀ idx, snd (getNextProxy cfg idx) = (idx + 1) mod N.
Proof.
  intros Huse Hne N cursor.
  assert (HN : 0 < N) by (by apply N_pos).
  assert (Hc : cursor = k mod N) by (by apply cursor_reachable).
  assert (Hlt : cursor < N) by (rewrite Hc; apply Nat.mod_upper_bound; lia).
  pose proof (full_round cfg Huse Hne cursor Hlt) as Hround.
  repeat split; [done | done | | ].
  - fold N in Hround. rewrite Hround. simpl.
    apply Permutation_map. unfold rotate.
    rewrite Permutation_app_comm, take_drop. done.
  - intros idx. by rewrite getNextProxy_enabled.
Qed.

Definition three_proxies : ProxyConfig :=
  {| use := true;
     proxyList := ["http://a:1"; "http://b:2"; "http://c:3"];
     rotationStrategy := "round-robin" |}.

Lemma round_robin_visits_each_once_witness :
  calls three_proxies 3 (snd (calls three_proxies 4 0)) =
    ([Some "http://b:2"; Some "http://c:3"; Some "http://a:1"], 1).
Proof.
  destruct (round_robin_visits_each_once three_proxies 4)
    as (_ & H & _); [reflexivity | discriminate |].
  exact H.
Defined.


End ProxySpec.

Module RetrySpec.
Import Retry.

Definition is_throw {V} (r : result V) : Prop :=
  match r with Throw _ => True | Ok _ => False end.

Section Calls.
Context {W V : Type}.
Variable random : W → Random * W.
Variable setTimeout : Z → W → W.
Variable fn : W → result V * W.
Variables retries minDelay maxDelay : Z.
Variable onRetry : JsError → Z → Z → W → result unit * W.

(** Between two attempts: attempt number [attempt] has failed with
    [error] and left the world [w1]; a delay is drawn, the hook is
    told, and the delay is waited for. *)
Definition pauseAfter (error : JsError) (attempt : Z) (w1 : W) : W :=
  let '(delay, w2) := randomDelay random minDelay maxDelay w1 in
  setTimeout delay (snd (onRetry error attempt delay w2)).

(** The world in which [fn] is called for the [j]-th time after the
    call of attempt number [attempt] in [w] (that call is number
    zero), every call before it having failed. *)
Fixpoint startOf (attempt : Z) (w : W) (j : nat) : W :=
  match j with
  | O => w
  | S j' =>
      match fn w with
      | (Throw error, w1) =>
          startOf (attempt + 1) (pauseAfter error attempt w1) j'
      | (Ok _, w1) => w1
      end
  end.

(** What [withRetry] makes of the call that ends the loop. *)
Definition settle (r : result V) : outcome V :=
  match r with
  | Ok v => Returned v
  | Throw e => Thrown (Some e)
  end.

(** The hook only observes: it does not throw. *)
Hypothesis hook_returns : ∀ e a d w, ∃ w', onRetry e a d w = (Ok tt, w').

Lemma attempts_calls (len : nat) : ∀ a w lastError log0,
  (a + Z.of_nat len = retries)%Z →
  ∃ k, (k ≤ len)%nat ∧
    (∀ j, (j < k)%nat → is_throw (fst (fn (startOf a w j)))) ∧
    attempts random setTimeout fn retries minDelay maxDelay onRetry
      (seqZ a (Z.of_nat (S len))) lastError w log0 =
      (settle (fst (fn (startOf a w k))), snd (fn (startOf a w k)),
       log0 ++ map (λ j, fst (fn (startOf a w j))) (seq 0 (S k))) ∧
    (is_throw (fst (fn (startOf a w k))) → k = len).
Proof using hook_returns.
  induction len as [| len IH]; intros a w lastError log0 Hlen.
  - exists 0%nat. split; [lia |]. split; [intros j Hj; lia |].
    rewrite seqZ_cons by lia. simpl.
    destruct (fn w) as [[v | error] w1] eqn:Hfn; simpl.
    + by split.
    + replace (a <? retries)%Z with false by (symmetry; apply Z.ltb_ge; lia).
      by split.
  - rewrite seqZ_cons by lia. cbn [attempts].
    destruct (fn w) as [[v | error] w1] eqn:Hfn.
    + exists 0%nat. split; [lia |]. split; [intros j Hj; lia |].
      simpl. rewrite Hfn. by split.
    + replace (a <? retries)%Z with true by (symmetry; apply Z.ltb_lt; lia).
      assert (Hpause : ∀ rest le l,
        (let '(delay, w2) := randomDelay random minDelay maxDelay w1 in
         match onRetry error a delay w2 with
         | (Throw e', w3) => (Thrown (Some e'), w3, l)
         | (Ok _, w3) =>
             attempts random setTimeout fn retries minDelay maxDelay onRetry
               rest le (setTimeout delay w3) l
         end) =
        attempts random setTimeout fn retries minDelay maxDelay onRetry
          rest le (pauseAfter error a w1) l).
      { intros rest le l. unfold pauseAfter.
        destruct (randomDelay random minDelay maxDelay w1) as [delay w2].
        by destruct (hook_returns error a delay w2) as [w3 ->]. }
      rewrite Hpause.
      replace (Z.pred (Z.of_nat (S (S len)))) with (Z.of_nat (S len)) by lia.
      destruct (IH (Z.succ a) (pauseAfter error a w1) (Some error)
                  (log0 ++ [Throw error]))
        as (k & Hk & Hfails & Hrun & Hlast); [lia |].
      assert (Hstart : ∀ j, startOf a w (S j) =
                            startOf (Z.succ a) (pauseAfter error a w1) j).
      { intros j. simpl. by rewrite Hfn. }
      exists (S k). split; [lia |]. split.
      { intros [| j] Hj; [simpl; by rewrite Hfn |].
        rewrite Hstart. apply Hfails. lia. }
      rewrite Hrun, !Hstart. split; [| intros Ht; f_equal; by apply Hlast].
      f_equal. rewrite <- app_assoc. f_equal.
      change (seq 0 (S (S k))) with (0%nat :: seq 1 (S k)).
      rewrite <- seq_shift, map_cons, map_map. simpl. rewrite Hfn. reflexivity.
Qed.
End Calls.

(** The options as [withRetry] reads them, with the defaults of the
    destructuring pattern. *)
Definition retries_of {W} (o : Options W) : Z := default config_maxRetries (retries o).
Definition minDelay_of {W} (o : Options W) : Z :=
  default config_defaultDelay_min (minDelay o).
Definition maxDelay_of {W} (o : Options W) : Z :=
  default config_defaultDelay_max (maxDelay o).
Definition onRetry_of {W} (o : Options W)
  : JsError → Z → Z → W → result unit * W :=
  default (fun _ _ _ w => (Ok tt, w)) (onRetry o).

Definition hook_returns {W} (o : Options W) : Prop :=
  match onRetry o with
  | None => True
  | Some hook => ∀ e a d w, ∃ w', hook e a d w = (Ok tt, w')
  end.

(** The [j]-th call of [fn] that [withRetry] makes from [w] (counted
    from zero), while the calls before it fail: its result and the
    world it leaves. *)
Definition call {W V} (random : W → Random * W) (setTimeout : Z → W → W)
    (fn : W → result V * W) (options : Options W) (w : W) (j : nat)
  : result V * W :=
  fn (startOf random setTimeout fn (minDelay_of options) (maxDelay_of options)
        (onRetry_of options) 0 w j).

(** C5. For every operation [fn] and options with a retry count
    [retries ≥ 0] (and an [onRetry] hook that only observes),
    [withRetry] calls [fn] at most [retries + 1] times, each call
    after the pause that follows the failure before it: there is a
    [k ≤ retries] such that the calls number [0] to [k - 1] fail and
    call number [k] ends the loop. When that call succeeds its value
    is returned; when it fails it is attempt number [retries + 1] and
    its error is thrown. The world is the one that call left, and the
    calls logged are these [k + 1] calls of [fn]. *)
Theorem withRetry_bounded_attempts {W V : Type}
    (random : W → Random * W) (setTimeout : Z → W → W)
    (fn : W → result V * W) (options : Options W) (w : W) :
  (0 ≤ retries_of options)%Z →
  hook_returns options →
  ∃ k : nat,
    (Z.of_nat k ≤ retries_of options)%Z ∧
    (∀ j, (j < k)%nat →
          is_throw (fst (call random setTimeout fn options w j))) ∧
    withRetry random setTimeout fn options w =
      (match fst (call random setTimeout fn options w k) with
       | Ok v => Returned v
       | Throw e => Thrown (Some e)
       end,
       snd (call random setTimeout fn options w k),
       map (λ j, fst (call random setTimeout fn options w j)) (seq 0 (S k))) ∧
    (is_throw (fst (call random setTimeout fn options w k)) →
     Z.of_nat k = retries_of options).
Proof.
  intros Hpos Hhook. unfold withRetry, call.
  fold (retries_of options) (minDelay_of options) (maxDelay_of options)
    (onRetry_of options).
  assert (Hret : ∀ e a d w0, ∃ w', onRetry_of options e a d w0 = (Ok tt, w')).
  { unfold onRetry_of, hook_returns in *. destruct (onRetry options); simpl; eauto. }
  destruct (attempts_calls random setTimeout fn (retries_of options)
              (minDelay_of options) (maxDelay_of options) (onRetry_of options)
              Hret (Z.to_nat (retries_of options)) 0 w None [])
    as (k & Hk & Hfails & Hrun & Hlast); [lia |].
  exists k. split; [lia |]. split; [exact Hfails |].
  replace (Z.of_nat (S (Z.to_nat (retries_of options))))
    with (retries_of options + 1)%Z in Hrun by lia.
  split; [exact Hrun |]. intros Ht. apply Hlast in Ht. lia.
Qed.

(** An operation over a call counter that fails on its first [n]
    calls and then returns the number of the call. *)
Definition flaky (n : nat) (calls : nat) : result nat * nat :=
  (if (calls <? n)%nat then Throw (Error "navigation timeout") else Ok calls,
   S calls).

Definition two_retries : Options nat :=
  {| retries := Some 2%Z; minDelay := Some 10%Z; maxDelay := Some 20%Z;
     onRetry := None |}.

Lemma withRetry_bounded_attempts_witness :
  ∃ k : nat,
    (Z.of_nat k ≤ 2)%Z ∧
    withRetry (fun w => ({| num := 1; den := 2 |}, w)) (fun _ w => w)
      (flaky 2) two_retries 0%nat =
      (match fst (call (fun w => ({| num := 1; den := 2 |}, w)) (fun _ w => w)
                    (flaky 2) two_retries 0%nat k) with
       | Ok v => Returned v
       | Throw e => Thrown (Some e)
       end,
       snd (call (fun w => ({| num := 1; den := 2 |}, w)) (fun _ w => w)
              (flaky 2) two_retries 0%nat k),
       map (λ j, fst (call (fun w => ({| num := 1; den := 2 |}, w)) (fun _ w => w)
                        (flaky 2) two_retries 0%nat j)) (seq 0 (S k))).
Proof.
  destruct (withRetry_bounded_attempts
              (fun w : nat => ({| num := 1; den := 2 |}, w)) (fun _ w => w)
              (flaky 2) two_retries 0%nat)
    as (k & Hk & _ & Hrun & _);
    [vm_compute; discriminate | exact I |].
  exists k. split; [exact Hk | exact Hrun].
Defined.

Example withRetry_succeeds_on_last_attempt :
  withRetry (fun w => ({| num := 1; den := 2 |}, w)) (fun _ w => w)
    (flaky 2) two_retries 0%nat
  = (Returned 2%nat, 3%nat,
     [Throw (Error "navigation timeout"); Throw (Error "navigation timeout");
      Ok 2%nat]).
Proof. reflexivity. Qed.

Example withRetry_exhausted :
  withRetry (fun w => ({| num := 1; den := 2 |}, w)) (fun _ w => w)
    (flaky 3) two_retries 0%nat
  = (Thrown (Some (Error "navigation timeout")), 3%nat,
     [Throw (Error "navigation timeout"); Throw (Error "navigation timeout");
      Throw (Error "navigation timeout")]).
Proof. reflexivity. Qed.

End RetrySpec.

Module PoolSpec.
Import Browser.

(** Every connected process is the one the map holds under the key
    its handler captured. *)
Definition tracked (w : World) : Prop :=
  ∀ b p, processes w !! b = Some p → connected p = true →
         ∃ t, browsers w !! handlerKey p = Some {| browser := b; lastUsed := t |}.

(** An acquisition that asks for reuse and whose context and page
    open. *)
Definition reusing (op : Op) : Prop :=
  match op with
  | Acquire _ options env =>
      useExisting options ≠ Some false ∧
      newContext env = Ok tt ∧ newPage env = Ok tt
  | Disconnect _ => True
  end.

Lemma openPage_ok b env w :
  newContext env = Ok tt → newPage env = Ok tt →
  openPage b env w =
    (Ok {| s_browser := b; s_context := nextHandle w;
           s_page := S (nextHandle w) |},
     {| browsers := browsers w; processes := processes w;
        nextHandle := S (S (nextHandle w));
        trace := trace w ++ [NewContext b (nextHandle w)]
                   ++ [NewPage (nextHandle w) (S (nextHandle w))] |}).
Proof.
  intros Hc Hp. unfold openPage. rewrite Hc, Hp. simpl.
  unfold log. simpl. by rewrite <- app_assoc.
Qed.

Lemma openPage_keeps b env w :
  browsers (snd (openPage b env w)) = browsers w ∧
  processes (snd (openPage b env w)) = processes w.
Proof.
  unfold openPage. destruct (newContext env); [| done].
  simpl. by destruct (newPage env).
Qed.

Lemma liveFor_spec w key b :
  b ∈ liveFor w key ↔
  ∃ p, processes w !! b = Some p ∧ connected p = true ∧ handlerKey p = key.
Proof.
  unfold liveFor. rewrite list_elem_of_In, filter_In, in_seq.
  split.
  - intros [_ H]. destruct (processes w !! b) as [p |]; [| done].
    apply andb_true_iff in H as [Hc Hk]. apply String.eqb_eq in Hk. eauto.
  - intros (p & Hp & Hc & Hk). split.
    + apply lookup_lt_Some in Hp. lia.
    + rewrite Hp, Hc. simpl. by apply String.eqb_eq.
Qed.

Lemma liveFor_NoDup w key : NoDup (liveFor w key).
Proof.
  unfold liveFor. apply NoDup_ListNoDup, List.NoDup_filter, List.seq_NoDup.
Qed.

Lemma tracked_at_most_one w key :
  tracked w → (length (liveFor w key) ≤ 1)%nat.
Proof.
  intros Htr. pose proof (liveFor_NoDup w key) as Hnd.
  destruct (liveFor w key) as [| b1 [| b2 l]] eqn:E; simpl; [lia | lia |].
  exfalso.
  assert (H1 : b1 ∈ liveFor w key) by (rewrite E; set_solver).
  assert (H2 : b2 ∈ liveFor w key) by (rewrite E; set_solver).
  apply liveFor_spec in H1 as (p1 & Hp1 & Hc1 & Hk1).
  apply liveFor_spec in H2 as (p2 & Hp2 & Hc2 & Hk2).
  destruct (Htr _ _ Hp1 Hc1) as [t1 Ht1].
  destruct (Htr _ _ Hp2 Hc2) as [t2 Ht2].
  rewrite Hk1 in Ht1. rewrite Hk2 in Ht2.
  assert (b1 = b2) by congruence. subst b2.
  apply NoDup_cons in Hnd as [Hnot _]. apply Hnot. set_solver.
Qed.

Lemma tracked_empty : tracked empty.
Proof. intros b p H. done. Qed.

Lemma create_tracked key env w :
  newContext env = Ok tt → newPage env = Ok tt →
  browsers w !! key = None →
  tracked w → tracked (snd (create key env w)).
Proof.
  intros Hc Hp Hnone Htr. unfold create.
  destruct (launch env); [| done].
  rewrite openPage_ok by done. simpl.
  intros b p Hb Hconn. simpl in *.
  apply lookup_app_Some in Hb as [Hb | [Hge Hb]].
  - destruct (Htr _ _ Hb Hconn) as [t Ht].
    destruct (decide (handlerKey p = key)) as [Hk | Hne];
      [by rewrite Hk, Hnone in Ht |].
    exists t. by rewrite lookup_insert_ne.
  - apply list_lookup_singleton_Some in Hb as [Hz <-]. simpl.
    exists (now env). rewrite lookup_insert_eq. do 2 f_equal. lia.
Qed.

Lemma evict_tracked key entry w :
  browsers w !! key = Some entry →
  isConnected w (browser entry) = false →
  tracked w → tracked (evict key w).
Proof.
  intros Hentry Hdis Htr b p Hb Hconn. simpl in *.
  destruct (Htr _ _ Hb Hconn) as [t Ht].
  destruct (decide (handlerKey p = key)) as [Hk | Hne].
  - rewrite Hk, Hentry in Ht. injection Ht as ->. simpl in Hdis.
    unfold isConnected in Hdis. rewrite Hb in Hdis. congruence.
  - exists t. by rewrite lookup_delete_ne.
Qed.

Lemma disconnect_tracked b w : tracked w → tracked (disconnect b w).
Proof.
  intros Htr. unfold disconnect.
  destruct (processes w !! b) as [p |] eqn:Hb; [| done].
  destruct (connected p) eqn:Hconn; [| done].
  destruct (Htr _ _ Hb Hconn) as [t Ht]. simpl. rewrite Ht.
  intros b' p' Hb' Hconn'. simpl in *.
  destruct (decide (b' = b)) as [-> | Hne].
  - rewrite list_lookup_insert_eq in Hb' by (by eapply lookup_lt_Some).
    injection Hb' as <-. done.
  - rewrite list_lookup_insert_ne in Hb' by done.
    destruct (Htr _ _ Hb' Hconn') as [t' Ht'].
    destruct (decide (handlerKey p' = handlerKey p)) as [Hk | Hk].
    + rewrite Hk, Ht in Ht'. congruence.
    + exists t'. by rewrite lookup_delete_ne.
Qed.

Lemma step_tracked w op : reusing op → tracked w → tracked (step w op).
Proof.
  destruct op as [platform options env | b]; simpl;
    [| intros _; apply disconnect_tracked].
  intros (Hreuse & Hc & Hp) Htr. unfold getBrowserForPlatform.
  assert (default true (useExisting options) = true) as ->
    by (by destruct (useExisting options) as [[|] |]).
  destruct (browsers w !! toLowerCase platform) as [entry |] eqn:Hentry.
  - destruct (isConnected w (browser entry)) eqn:Hconn.
    + intros b p. destruct (openPage_keeps (browser entry) env w) as [-> ->].
      apply Htr.
    + apply create_tracked; [done | done | | by eapply evict_tracked].
      simpl. apply lookup_delete_eq.
  - by apply create_tracked.
Qed.

Lemma run_tracked ops w : Forall reusing ops → tracked w → tracked (run ops w).
Proof.
  intros Hops. revert w. unfold run.
  induction Hops as [| op ops Hop _ IH]; intros w Htr; simpl; [done |].
  apply IH. by apply step_tracked.
Qed.

(** With reuse enabled and a connected tracked process, the
    acquisition hands out that very process and launches nothing. *)
Lemma acquire_reuses w platform options env entry :
  useExisting options ≠ Some false →
  browsers w !! toLowerCase platform = Some entry →
  isConnected w (browser entry) = true →
  newContext env = Ok tt → newPage env = Ok tt →
  ∃ c p w',
    getBrowserForPlatform platform options env w =
      (Ok {| s_browser := browser entry; s_context := c; s_page := p |}, w') ∧
    browsers w' = browsers w ∧ processes w' = processes w.
Proof.
  intros Hreuse Hentry Hconn Hc Hp. unfold getBrowserForPlatform.
  assert (default true (useExisting options) = true) as ->
    by (by destruct (useExisting options) as [[|] |]).
  rewrite Hentry, Hconn, openPage_ok by done.
  eexists _, _, _. split; [done |]. done.
Qed.

(** With reuse enabled and a tracked process that is no longer
    connected, the entry is deleted before the new process is
    launched. *)
Lemma acquire_evicts_first w platform options env entry :
  useExisting options ≠ Some false →
  browsers w !! toLowerCase platform = Some entry →
  isConnected w (browser entry) = false →
  launch env = Ok tt →
  ∃ rest,
    trace (snd (getBrowserForPlatform platform options env w)) =
      trace w ++ Evict (toLowerCase platform)
              :: Launch (length (processes w)) (toLowerCase platform) :: rest.
Proof.
  intros Hreuse Hentry Hconn Hl. unfold getBrowserForPlatform.
  assert (default true (useExisting options) = true) as ->
    by (by destruct (useExisting options) as [[|] |]).
  rewrite Hentry, Hconn. unfold create. rewrite Hl. unfold openPage.
  destruct (newContext env); [| by eexists; simpl; rewrite <- app_assoc].
  simpl. destruct (newPage env); simpl;
    eexists; rewrite <- !app_assoc; simpl; done.
Qed.

(** With [useExisting: false] a process is launched whatever the map
    holds; it takes the key's slot, and no process is closed or
    disconnected on the way. *)
Lemma acquire_fresh_keeps_old w platform options env :
  useExisting options = Some false →
  launch env = Ok tt → newContext env = Ok tt → newPage env = Ok tt →
  ∃ c p w',
    getBrowserForPlatform platform options env w =
      (Ok {| s_browser := length (processes w); s_context := c; s_page := p |},
       w') ∧
    browsers w' !! toLowerCase platform =
      Some {| browser := length (processes w); lastUsed := now env |} ∧
    isConnected w' (length (processes w)) = true ∧
    (∀ b, isConnected w b = true → isConnected w' b = true) ∧
    trace w' = trace w ++ [Launch (length (processes w)) (toLowerCase platform);
                           NewContext (length (processes w)) c; NewPage c p;
                           Registered (toLowerCase platform) (length (processes w))].
Proof.
  intros Hfresh Hl Hc Hp. unfold getBrowserForPlatform. rewrite Hfresh. simpl.
  unfold create. rewrite Hl, openPage_ok by done. simpl.
  eexists _, _, _. split; [done |]. simpl. repeat split.
  - apply lookup_insert_eq.
  - unfold isConnected. simpl.
    by rewrite lookup_app_r, Nat.sub_diag by lia.
  - intros b. unfold isConnected. simpl.
    destruct (processes w !! b) as [q |] eqn:Hb; [| done].
    by rewrite (lookup_app_l_Some _ _ _ _ Hb).
  - by rewrite <- !app_assoc.
Qed.

(** C4 (amended). The pool tracks one process per platform key, and
    with reuse enabled that is also the only live one: over any
    sequence of reuse-enabled acquisitions (whose context and page
    open) and disconnect events from the empty pool, at most one
    connected process exists per key; such an acquisition returns the
    tracked process when it is connected and launches nothing; when
    the tracked process is disconnected its entry is deleted before
    the new process is launched. An acquisition with
    [useExisting: false] always launches a new process, which takes
    the key's slot while every process that was connected stays
    connected. *)
Theorem pool_tracks_one_process :
  (∀ ops key, Forall reusing ops →
     (length (liveFor (run ops empty) key) ≤ 1)%nat) ∧
  (∀ w platform options env entry,
     useExisting options ≠ Some false →
     browsers w !! toLowerCase platform = Some entry →
     isConnected w (browser entry) = true →
     newContext env = Ok tt → newPage env = Ok tt →
     ∃ c p w',
       getBrowserForPlatform platform options env w =
         (Ok {| s_browser := browser entry; s_context := c; s_page := p |}, w') ∧
       browsers w' = browsers w ∧ processes w' = processes w) ∧
  (∀ w platform options env entry,
     useExisting options ≠ Some false →
     browsers w !! toLowerCase platform = Some entry →
     isConnected w (browser entry) = false →
     launch env = Ok tt →
     ∃ rest,
       trace (snd (getBrowserForPlatform platform options env w)) =
         trace w ++ Evict (toLowerCase platform)
                 :: Launch (length (processes w)) (toLowerCase platform) :: rest) ∧
  (∀ w platform options env,
     useExisting options = Some false →
     launch env = Ok tt → newContext env = Ok tt → newPage env = Ok tt →
     ∃ c p w',
       getBrowserForPlatform platform options env w =
         (Ok {| s_browser := length (processes w); s_context := c; s_page := p |},
          w') ∧
       browsers w' !! toLowerCase platform =
         Some {| browser := length (processes w); lastUsed := now env |} ∧
       isConnected w' (length (processes w)) = true ∧
       (∀ b, isConnected w b = true → isConnected w' b = true) ∧
       trace w' = trace w ++ [Launch (length (processes w)) (toLowerCase platform);
                              NewContext (length (processes w)) c; NewPage c p;
                              Registered (toLowerCase platform) (length (processes w))]).
Proof.
  split; [| split; [| split]].
  - intros ops key Hops. apply tracked_at_most_one, run_tracked;
      [done | apply tracked_empty].
  - apply acquire_reuses.
  - apply acquire_evicts_first.
  - apply acquire_fresh_keeps_old.
Qed.

Definition engine_ok : Engine :=
  {| launch := Ok tt; newContext := Ok tt; newPage := Ok tt; now := 1000 |}.
Definition reuse : Options := {| proxy := None; useExisting := None |}.
Definition noReuse : Options := {| proxy := None; useExisting := Some false |}.

Lemma pool_tracks_one_process_witness :
  (length (liveFor
             (run [Acquire "LinkedIn" reuse engine_ok;
                   Acquire "linkedin" reuse engine_ok;
                   Disconnect 0;
                   Acquire "linkedin" reuse engine_ok] empty) "linkedin") ≤ 1)%nat.
Proof.
  apply (proj1 pool_tracks_one_process).
  repeat constructor; discriminate.
Defined.

Example reuse_returns_same_process :
  let w1 := snd (getBrowserForPlatform "LinkedIn" reuse engine_ok empty) in
  let '(r, w2) := getBrowserForPlatform "linkedin" reuse engine_ok w1 in
  r = Ok {| s_browser := 0; s_context := 2; s_page := 3 |} ∧
  length (processes w2) = 1%nat.
Proof. vm_compute. done. Qed.

Example disconnect_then_new_process :
  let w1 := snd (getBrowserForPlatform "linkedin" reuse engine_ok empty) in
  let '(r, w2) := getBrowserForPlatform "linkedin" reuse engine_ok (disconnect 0 w1) in
  r = Ok {| s_browser := 1; s_context := 2; s_page := 3 |} ∧
  liveFor w2 "linkedin" = [1%nat].
Proof. vm_compute. done. Qed.

(** C4 as stated fails: two acquisitions with [useExisting: false]
    for one platform (two scrape runs) leave two connected processes
    launched for that key, the first of them no longer tracked. *)
Lemma two_live_processes_for_one_key :
  let w := run [Acquire "linkedin" noReuse engine_ok;
                Acquire "linkedin" noReuse engine_ok] empty in
  liveFor w "linkedin" = [0; 1] ∧
  ¬ (length (liveFor w "linkedin") ≤ 1)%nat ∧
  browser <$> browsers w !! "linkedin" = Some 1.
Proof. vm_compute. repeat split; [lia]. Qed.

End PoolSpec.

Module StoreSpec.


(** The same under the listing's own platform and external id. *)
Definition knownByJobId (table : list Supabase.Row) (job : Listing) : bool :=
  (0 <? length (Supabase.selectByJobId table (l_platform job) (l_job_id job)))%nat.

Lemma take1_filter_pos {A} (f : A → bool) (l : list A) :
  (0 <? length (take 1 (List.filter f l)))%nat = existsb f l.
Proof.
  induction l as [| a l IH]; [done |]. simpl.
  destruct (f a); simpl; [done |]. exact IH.
Qed.


Lemma knownByJobId_app table row job :
  knownByJobId (table ++ [row]) job =
    knownByJobId table job ||
    Supabase.byJobId (l_platform job) (l_job_id job) row.
Proof.
  unfold knownByJobId, Supabase.selectByJobId.
  rewrite !take1_filter_pos, existsb_app. simpl. by rewrite orb_false_r.
Qed.

Lemma filter_length_le {A} (f : A → bool) (l : list A) :
  (length (List.filter f l) ≤ length l)%nat.
Proof. induction l as [| a l IH]; simpl; [lia |]. destruct (f a); simpl; lia. Qed.

End StoreSpec.

Module ScraperSpec.
Import Service BaseScraper StoreSpec.

Section Counts.
Variable self : Scraper.
Variable env : Env.
Hypothesis replies :
  ∀ i, checkReply env i = Supabase.Resolved ∧ insertReply env i = Supabase.Resolved.




End Counts.

(** The attempt loop read off the environment alone: how it is left,
    and how many times [scrapeJobs] was called. *)
Fixpoint attemptsMade (self : Scraper) (env : Env) (page : nat)
    (remaining retryCount : nat) : result (list Listing) * nat :=
  match remaining with
  | O => (Ok [], 0%nat)
  | S remaining' =>
      match scrapeJobs env retryCount page with
      | Ok jobs => (Ok jobs, 1%nat)
      | Throw error =>
          if (maxRetries self <=? S retryCount)%nat then (Throw error, 1%nat)
          else
            match waitForTimeout env (S retryCount) with
            | Throw e => (Throw e, 1%nat)
            | Ok _ =>
                let '(r, n) := attemptsMade self env page remaining' (S retryCount) in
                (r, S n)
            end
      end
  end.

(** [n] uses of [page] recorded in the pool's trace. *)
Definition usePage (page n : nat) (pw : Browser.World) : Browser.World :=
  Nat.iter n (Browser.log (Browser.PageUsed page)) pw.

Lemma usePage_S page n pw :
  usePage page n (Browser.log (Browser.PageUsed page) pw) = usePage page (S n) pw.
Proof.
  unfold usePage. induction n as [| n IH]; [done |]. simpl in *. by rewrite IH.
Qed.

Lemma usePage_fields page n pw :
  Browser.browsers (usePage page n pw) = Browser.browsers pw ∧
  Browser.processes (usePage page n pw) = Browser.processes pw ∧
  Browser.nextHandle (usePage page n pw) = Browser.nextHandle pw ∧
  Browser.trace (usePage page n pw) =
    Browser.trace pw ++ replicate n (Browser.PageUsed page).
Proof.
  unfold usePage. induction n as [| n (Hb & Hp & Hn & Ht)]; simpl.
  - by rewrite app_nil_r.
  - repeat split; [done | done | done |]. rewrite Ht, <- app_assoc. f_equal.
    clear. induction n; simpl; [done | by f_equal].
Qed.

Lemma attemptLoop_spec self env page remaining : ∀ retryCount fr w,
  attemptLoop self env page remaining retryCount (fr, w) =
    (fst (attemptsMade self env page remaining retryCount),
     (fr, setPool
            (usePage page (snd (attemptsMade self env page remaining retryCount))
               (pool w))
            w)).
Proof.
  induction remaining as [| remaining IH]; intros retryCount fr w; simpl.
  - unfold mret, M_ret. by destruct w.
  - unfold mbind, M_bind, onPool, modify, tryCatch, await, throw. simpl.
    destruct (scrapeJobs env retryCount page) as [jobs | error]; simpl; [done |].
    destruct (maxRetries self <=? S retryCount)%nat; simpl; [done |].
    destruct (waitForTimeout env (S retryCount)); simpl; [| done].
    rewrite IH. simpl.
    destruct (attemptsMade self env page remaining (S retryCount)) as [r n].
    simpl. by rewrite usePage_S.
Qed.

Lemma attemptsMade_bound self env page remaining retryCount :
  (snd (attemptsMade self env page remaining retryCount) ≤ remaining)%nat.
Proof.
  revert retryCount. induction remaining as [| remaining IH]; intros rc; simpl;
    [lia |].
  destruct (scrapeJobs env rc page); simpl; [lia |].
  destruct (maxRetries self <=? S rc)%nat; simpl; [lia |].
  destruct (waitForTimeout env (S rc)); simpl; [| lia].
  specialize (IH (S rc)).
  destruct (attemptsMade self env page remaining (S rc)). simpl in *. lia.
Qed.

(** [page.close()] then [context.close()], as the [finally] blocks
    issue them. *)
Definition release (session : Browser.Session) (pw : Browser.World)
  : Browser.World :=
  Browser.closeContext (Browser.s_context session)
    (Browser.closePage (Browser.s_page session) pw).

Definition wrap (self : Scraper) (e : JsError) : JsError :=
  PlatformError (platform self) ("Scraping failed: " ++ message e).

Definition resultOf (self : Scraper) (options : Options) (env : Env)
    (st : Stats) : ScrapeResult :=
  {| r_platform := platform self;
     r_keywords := default "" (keywords options);
     totalJobs := total st;
     r_newJobs := newJobs st;
     r_duplicates := duplicates st;
     r_sampleTitles := sampleTitles st;
     executionTime := endTime env - startTime env |}.

(** One run of [scrape], step by step. *)
Lemma scrape_run self cfg options env w :
  truthy (keywords options) = true →
  scrape self cfg options env (noFrame, w) =
    let '(proxy, idx) :=
      Proxy.getProxy cfg (random env) (currentProxyIndex w) in
    match Browser.getBrowserForPlatform (platform self)
            {| Browser.proxy := proxy; Browser.useExisting := Some false |}
            (engine env) (pool w) with
    | (Throw e, pw) =>
        (Throw (wrap self e),
         (noFrame,
          {| pool := pw; currentProxyIndex := idx; jobsTable := jobsTable w |}))
    | (Ok session, pw) =>
        let fr := {| context := Some (Browser.s_context session);
                     page := Some (Browser.s_page session) |} in
        let '(r, n) :=
          attemptsMade self env (Browser.s_page session) (maxRetries self) 0 in
        let pw' := release session (usePage (Browser.s_page session) n pw) in
        match r with
        | Throw e =>
            (Throw (wrap self e),
             (fr, {| pool := pw'; currentProxyIndex := idx;
                     jobsTable := jobsTable w |}))
        | Ok jobs =>
            let '(rs, t) := saveJobsToDatabase self env jobs (jobsTable w) in
            (match rs with
             | Ok st => Ok (resultOf self options env st)
             | Throw e => Throw (wrap self e)
             end,
             (fr, {| pool := pw'; currentProxyIndex := idx; jobsTable := t |}))
        end
    end.
Proof.
  intros Hk. unfold scrape. rewrite Hk. simpl.
  unfold tryFinally, tryCatch, mbind, M_bind, getProxy, callPool. simpl.
  destruct (Proxy.getProxy cfg (random env) (currentProxyIndex w)) as [proxy idx].
  simpl.
  destruct (Browser.getBrowserForPlatform _ _ _ _) as [[session | e] pw]; simpl;
    [| done].
  rewrite attemptLoop_spec. simpl.
  destruct (attemptsMade self env (Browser.s_page session) (maxRetries self) 0)
    as [[jobs | e] n]; simpl; [| done].
  unfold saveJobs. simpl.
  destruct (saveJobsToDatabase self env jobs (jobsTable w)) as [[st | e] t];
    simpl; done.
Qed.

Lemma acquire_proxy_irrelevant platform a b u env pw :
  Browser.getBrowserForPlatform platform
    {| Browser.proxy := a; Browser.useExisting := u |} env pw =
  Browser.getBrowserForPlatform platform
    {| Browser.proxy := b; Browser.useExisting := u |} env pw.
Proof. reflexivity. Qed.


Definition listing (url title : string) : Listing :=
  {| l_platform := "indeed"; l_url := url; l_job_id := url;
     l_apply_url := url; l_title := title; l_company := "Acme" |}.

Definition noProxies : Proxy.ProxyConfig :=
  {| Proxy.use := false; Proxy.proxyList := [];
     Proxy.rotationStrategy := "round-robin" |}.

Definition backendEngineer : Options :=
  {| keywords := Some "backend engineer"; country := Some "us";
     jobType := Some "Remote"; position := None; postsQuantity := Some 5%nat |}.

(** An environment in which everything succeeds and the page shows
    the given listings. *)
Definition calm (found : list Listing) : Env :=
  {| random := {| num := 0; den := 1 |};
     engine := PoolSpec.engine_ok;
     scrapeJobs := λ _ _, Ok found;
     waitForTimeout := λ _, Ok tt;
     checkReply := λ _, Supabase.Resolved;
     insertReply := λ _, Supabase.Resolved;
     startTime := 0; endTime := 5 |}.

Definition storeWith (rows : list Supabase.Row) : World :=
  {| pool := Browser.empty; currentProxyIndex := 0; jobsTable := rows |}.

Definition threeFound : list Listing :=
  [listing "https://www.indeed.com/viewjob?jk=1" "Backend Engineer";
   listing "https://www.indeed.com/viewjob?jk=2" "Platform Engineer";
   listing "https://www.indeed.com/viewjob?jk=3" "Data Engineer"].

Definition oneStored : list Supabase.Row :=
  [newRow (new "indeed") (listing "https://www.indeed.com/viewjob?jk=2" "Platform Engineer")].



Lemma attemptsMade_all_fail self env page : ∀ remaining retryCount,
  (retryCount + remaining = maxRetries self)%nat →
  (0 < remaining)%nat →
  (∀ i, (i < maxRetries self)%nat →
        is_ok (scrapeJobs env i page) = false ∧
        waitForTimeout env (S i) = Ok tt) →
  ∃ e, scrapeJobs env (maxRetries self - 1) page = Throw e ∧
       attemptsMade self env page remaining retryCount = (Throw e, remaining).
Proof.
  induction remaining as [| remaining IH]; intros rc Hsum Hpos Hfail; [lia |].
  simpl. destruct (Hfail rc ltac:(lia)) as [Hjobs Hwait].
  destruct (scrapeJobs env rc page) as [jobs | error] eqn:Hrc; [done |].
  destruct (Nat.leb_spec (maxRetries self) (S rc)) as [Hlast | Hmore].
  - assert (remaining = 0%nat) as -> by lia.
    exists error. split; [| done].
    by replace (maxRetries self - 1)%nat with rc by lia.
  - rewrite Hwait.
    destruct (IH (S rc) ltac:(lia) ltac:(lia) Hfail) as (e & He & ->).
    by exists e.
Qed.

Lemma release_trace session pw :
  Browser.trace (release session pw) =
    Browser.trace pw ++ [Browser.ClosePage (Browser.s_page session);
                         Browser.CloseContext (Browser.s_context session)].
Proof. simpl. by rewrite <- app_assoc. Qed.

(** C8 (amended). A failed scrape attempt is retried until
    [maxRetries] attempts have been made in total, and every attempt
    runs on the one page acquired before the loop: between the
    acquisition and the release the run does nothing to the browser
    but use that same page [n ≤ maxRetries] times; when every attempt
    fails (and the pauses in between resolve) exactly [maxRetries]
    attempts are made and the error of the last one is reported. *)
Theorem scrape_retries_on_same_page self cfg options env w session pw :
  truthy (keywords options) = true →
  Browser.getBrowserForPlatform (platform self)
    {| Browser.proxy := None; Browser.useExisting := Some false |}
    (engine env) (pool w) = (Ok session, pw) →
  ∃ n r s',
    scrape self cfg options env (noFrame, w) = (r, s') ∧
    (n ≤ maxRetries self)%nat ∧
    Browser.trace (pool (snd s')) =
      Browser.trace pw
        ++ replicate n (Browser.PageUsed (Browser.s_page session))
        ++ [Browser.ClosePage (Browser.s_page session);
            Browser.CloseContext (Browser.s_context session)] ∧
    ((0 < maxRetries self)%nat →
     (∀ i, (i < maxRetries self)%nat →
           is_ok (scrapeJobs env i (Browser.s_page session)) = false ∧
           waitForTimeout env (S i) = Ok tt) →
     n = maxRetries self ∧
     ∃ e, scrapeJobs env (maxRetries self - 1) (Browser.s_page session) = Throw e ∧
          r = Throw (wrap self e)).
Proof.
  intros Hk Hacq.
  rewrite (scrape_run self cfg options env w Hk).
  destruct (Proxy.getProxy cfg (random env) (currentProxyIndex w)) as [proxy idx].
  rewrite (acquire_proxy_irrelevant _ proxy None), Hacq.
  pose proof (attemptsMade_bound self env (Browser.s_page session)
                (maxRetries self) 0) as Hbound.
  destruct (attemptsMade self env (Browser.s_page session) (maxRetries self) 0)
    as [r n] eqn:Hloop.
  simpl in Hbound.
  assert (Htrace :
    Browser.trace (release session (usePage (Browser.s_page session) n pw)) =
      Browser.trace pw
        ++ replicate n (Browser.PageUsed (Browser.s_page session))
        ++ [Browser.ClosePage (Browser.s_page session);
            Browser.CloseContext (Browser.s_context session)]).
  { rewrite release_trace.
    destruct (usePage_fields (Browser.s_page session) n pw) as (_ & _ & _ & ->).
    by rewrite <- app_assoc. }
  assert (Hall :
    (0 < maxRetries self)%nat →
    (∀ i, (i < maxRetries self)%nat →
          is_ok (scrapeJobs env i (Browser.s_page session)) = false ∧
          waitForTimeout env (S i) = Ok tt) →
    n = maxRetries self ∧
    ∃ e, scrapeJobs env (maxRetries self - 1) (Browser.s_page session) = Throw e ∧
         r = Throw e).
  { intros Hpos Hfail.
    destruct (attemptsMade_all_fail self env (Browser.s_page session)
                (maxRetries self) 0 ltac:(lia) Hpos Hfail) as (e & He & Hrun).
    rewrite Hrun in Hloop. injection Hloop as <- <-. eauto. }
  destruct r as [jobs | e].
  - destruct (saveJobsToDatabase self env jobs (jobsTable w)) as [rs t].
    eexists n, _, _. split; [done |]. split; [done |]. split; [exact Htrace |].
    intros Hpos Hfail. destruct (Hall Hpos Hfail) as (_ & e & _ & [=]).
  - eexists n, _, _. split; [done |]. split; [done |]. split; [exact Htrace |].
    intros Hpos Hfail. destruct (Hall Hpos Hfail) as (-> & e' & He' & [= ->]).
    eauto.
Qed.

(** The page shows nothing on the first visit and the listings from
    the second on. *)
Definition slowStart (found : list Listing) : Env :=
  {| random := {| num := 0; den := 1 |};
     engine := PoolSpec.engine_ok;
     scrapeJobs := λ attempt _,
       if (attempt <? 1)%nat
       then Throw (Error "Timeout 30000ms exceeded waiting for listing container")
       else Ok found;
     waitForTimeout := λ _, Ok tt;
     checkReply := λ _, Supabase.Resolved;
     insertReply := λ _, Supabase.Resolved;
     startTime := 0; endTime := 5 |}.

(** The pages handed to [scrapeJobs], in order. *)
Definition pagesUsed (events : list Browser.Event) : list nat :=
  omap (λ e, match e with Browser.PageUsed p => Some p | _ => None end) events.

(** The pages opened, in order. *)
Definition pagesOpened (events : list Browser.Event) : list nat :=
  omap (λ e, match e with Browser.NewPage _ p => Some p | _ => None end) events.

Lemma pagesUsed_app l1 l2 : pagesUsed (l1 ++ l2) = pagesUsed l1 ++ pagesUsed l2.
Proof. apply omap_app. Qed.

Lemma pagesUsed_replicate n p :
  pagesUsed (replicate n (Browser.PageUsed p)) = replicate n p.
Proof. induction n as [| n IH]; [done |]. simpl. by rewrite IH. Qed.

Lemma scrape_retries_on_same_page_witness :
  ∃ n r s',
    scrape (new "indeed") noProxies backendEngineer (slowStart threeFound)
      (noFrame, storeWith []) = (r, s') ∧
    (n ≤ 3)%nat ∧
    pagesUsed (Browser.trace (pool (snd s'))) = replicate n 1%nat.
Proof.
  destruct (scrape_retries_on_same_page (new "indeed") noProxies backendEngineer
              (slowStart threeFound) (storeWith []) _ _ eq_refl eq_refl)
    as (n & r & s' & Hrun & Hn & Htrace & _).
  exists n, r, s'. split; [exact Hrun |]. split; [exact Hn |].
  rewrite Htrace, !pagesUsed_app, pagesUsed_replicate. simpl.
  apply app_nil_r.
Defined.

(** C8 as stated fails: after a failed first attempt the retry runs
    on the page of the failed attempt; the run opens one page only. *)
Lemma retry_reuses_the_page :
  let run := scrape (new "indeed") noProxies backendEngineer
               (slowStart threeFound) (noFrame, storeWith []) in
  let events := Browser.trace (pool (snd (snd run))) in
  is_ok (fst run) = true ∧
  pagesOpened events = [1%nat] ∧
  pagesUsed events = [1%nat; 1%nat] ∧
  ¬ NoDup (pagesUsed events).
Proof.
  vm_compute. repeat split.
  intros Hnd. apply NoDup_cons in Hnd as [Hnot _]. apply Hnot. by left.
Qed.

End ScraperSpec.

Module ScrapingServiceSpec.
Import Service ScrapingService StoreSpec.

(** The earlier pipeline counts in the same way, by the listing's own
    platform and external id. *)
Section Counts.
Variable env : Env.
Hypothesis replies :
  ∀ i, checkReply env i = Supabase.Resolved ∧ insertReply env i = Supabase.Resolved.

Definition key (job : Listing) : string * string := (l_platform job, l_job_id job).

Definition freshKeys (table : list Supabase.Row) (found : list Listing)
  : list (string * string) :=
  map key (List.filter (λ j, negb (knownByJobId table j)) found).

Lemma known_after_insert_by_id table job rest :
  NoDup (key job :: freshKeys table rest) →
  ∀ j, In j rest →
    knownByJobId (table ++ [newRow job]) j = knownByJobId table j.
Proof.
  intros Hnd j Hj. rewrite knownByJobId_app.
  destruct (knownByJobId table j) eqn:Hk; [done |]. simpl.
  unfold Supabase.byJobId. simpl.
  apply andb_false_iff.
  destruct (String.eqb_spec (l_platform job) (l_platform j)) as [Hp | Hp];
    [| by left].
  destruct (String.eqb_spec (l_job_id job) (l_job_id j)) as [Hi | Hi];
    [| by right].
  exfalso. apply NoDup_cons in Hnd as [Hnot _]. apply Hnot.
  replace (key job) with (key j) by (unfold key; congruence).
  unfold freshKeys. apply list_elem_of_In, in_map, filter_In. by rewrite Hk.
Qed.

Lemma saveEach_counts_by_id found : ∀ i stats table,
  NoDup (freshKeys table found) →
  let D := length (List.filter (knownByJobId table) found) in
  ∃ stats' table',
    saveEach env i found stats table = (Ok stats', table') ∧
    total stats' = total stats ∧
    duplicates stats' = (duplicates stats + D)%nat ∧
    newJobs stats' = (newJobs stats + (length found - D))%nat.
Proof using replies.
  induction found as [| job rest IH]; intros i stats table Hnd; simpl.
  - eexists _, _. split; [done |]. repeat split; lia.
  - destruct (replies i) as [-> Hins].
    fold (knownByJobId table job).
    unfold freshKeys in Hnd. simpl in Hnd.
    destruct (knownByJobId table job) eqn:Hk; simpl in *.
    + destruct (IH (S i) (countDuplicate stats) table Hnd)
        as (stats' & table' & -> & Ht & Hd & Hn).
      eexists _, _. split; [done |]. rewrite Ht, Hd, Hn. simpl.
      repeat split; lia.
    + rewrite Hins.
      pose proof (known_after_insert_by_id table job rest Hnd) as Hsame.
      assert (Hnd' : NoDup (freshKeys (table ++ [newRow job]) rest)).
      { unfold freshKeys.
        rewrite (List.filter_ext_in _ (λ j, negb (knownByJobId table j)))
          by (intros j Hj; by rewrite Hsame).
        by apply NoDup_cons in Hnd as [_ ?]. }
      destruct (IH (S i) (countNew job stats) (table ++ [newRow job]) Hnd')
        as (stats' & table' & -> & Ht & Hd & Hn).
      eexists _, _. split; [done |]. rewrite Ht, Hd, Hn.
      rewrite (List.filter_ext_in _ (knownByJobId table))
        by (intros j Hj; by rewrite Hsame).
      pose proof (filter_length_le (knownByJobId table) rest).
      simpl. repeat split; lia.
Qed.

Lemma saveJobsToDatabase_counts_by_id found table :
  NoDup (freshKeys table found) →
  ∃ stats table',
    saveJobsToDatabase env found table = (Ok stats, table') ∧
    total stats = length found ∧
    duplicates stats = length (List.filter (knownByJobId table) found) ∧
    newJobs stats =
      (length found - length (List.filter (knownByJobId table) found))%nat.
Proof using replies.
  intros Hnd. unfold saveJobsToDatabase.
  destruct (saveEach_counts_by_id found 0
              {| total := length found; newJobs := 0; duplicates := 0;
                 sampleTitles := [] |} table Hnd)
    as (stats' & table' & -> & Ht & Hd & Hn).
  eexists _, _. split; [done |]. simpl in *. done.
Qed.
End Counts.

End ScrapingServiceSpec.

Module ApplicationSpec.
Import Service ApplicationService.

Section Batch.
(** The calls of [applyToJob] and the platform found for a job, as in
    [ApplicationService.batch]: the properties of the batch hold
    however the calls end. *)
Variable apply : nat → Job → M World ApplicationResult.
Variable label : nat → Job → option string.

(** The platform the batch reports for a job whose application threw:
    [job.platform || detectPlatform(job.url) || "unknown"]. *)
Definition platformLabel (i : nat) (job : Job) : string :=
  match label i job with
  | Some p => if String.eqb p "" then "unknown" else p
  | None => "unknown"
  end.

(** What the batch records for the job of index [i], from how its
    call of [applyToJob] ended: the result it returned, or an entry
    with status ["error"] and the message of the error it threw. *)
Definition recorded (i : nat) (job : Job) (r : result ApplicationResult)
  : ApplicationResult :=
  match r with
  | Ok result => result
  | Throw error =>
      {| a_jobId := id job; a_platform := platformLabel i job;
         a_status := "error"; a_screenshotPath := None;
         a_errorMessage := Some (message error) |}
  end.

(** A call that counts as a success: it returned with status
    ["success"]. *)
Definition succeeded (r : result ApplicationResult) : bool :=
  match r with
  | Ok result => String.eqb (a_status result) "success"
  | Throw _ => false
  end.

(** The calls of [applyToJob] for the jobs of a batch, one after the
    other: the call for a job starts in the world that the call for
    the job before it left. *)
Fixpoint calls (i : nat) (jobs : list Job) (w : World)
  : list (result ApplicationResult) * World :=
  match jobs with
  | [] => ([], w)
  | job :: rest =>
      let '(r, w1) := apply i job w in
      let '(rs, w') := calls (S i) rest w1 in
      (r :: rs, w')
  end.

Lemma platformLabel_spec i job :
  default "unknown" (if truthy (label i job) then label i job else None) =
  platformLabel i job.
Proof.
  unfold platformLabel, truthy.
  destruct (label i job) as [p |]; [| done].
  by destruct (String.eqb p "").
Qed.

Lemma calls_length jobs : ∀ i w,
  length (fst (calls i jobs w)) = length jobs.
Proof.
  induction jobs as [| job rest IH]; intros i w; simpl; [done |].
  destruct (apply i job w) as [r w1].
  specialize (IH (S i) w1). destruct (calls (S i) rest w1) as [rs w'].
  simpl in *. by rewrite IH.
Qed.

(** One turn of the loop: the call, then the entry and the counter. *)
Definition count (results : BatchResults) (entry : ApplicationResult)
    (success : bool) : BatchResults :=
  if success then recordSuccess entry results else recordFailure entry results.

Lemma eachJob_cons job rest i results w :
  eachJob apply label i (job :: rest) results w =
    let '(r, w1) := apply i job w in
    eachJob apply label (S i) rest
      (count results (recorded i job r) (succeeded r)) w1.
Proof.
  simpl. unfold mbind, M_bind, tryCatch.
  destruct (apply i job w) as [[result | error] w1]; simpl.
  - by destruct (String.eqb (a_status result) "success").
  - by rewrite platformLabel_spec.
Qed.

(** The loop adds to the accumulator one entry per call, in order,
    and counts each call once. *)
Lemma eachJob_calls rest : ∀ i results w,
  ∃ results',
    eachJob apply label i rest results w =
      (Ok results', snd (calls i rest w)) ∧
    totalJobs results' = totalJobs results ∧
    startTime results' = startTime results ∧
    endTime results' = endTime results ∧
    successCount results' =
      (successCount results
       + length (List.filter succeeded (fst (calls i rest w))))%nat ∧
    failedCount results' =
      (failedCount results
       + length (List.filter (λ r, negb (succeeded r))
                   (fst (calls i rest w))))%nat ∧
    length (jobs results') = (length (jobs results) + length rest)%nat ∧
    (∀ n entry, jobs results !! n = Some entry →
                jobs results' !! n = Some entry) ∧
    ∀ n job r,
      rest !! n = Some job →
      fst (calls i rest w) !! n = Some r →
      jobs results' !! (length (jobs results) + n)%nat =
        Some (recorded (i + n)%nat job r).
Proof.
  induction rest as [| job rest IH]; intros i results w.
  - exists results. simpl. split_and!; try done; lia.
  - rewrite eachJob_cons. cbn [calls].
    destruct (apply i job w) as [r w1] eqn:Hcall.
    set (results1 := count results (recorded i job r) (succeeded r)).
    assert (Hfields :
      totalJobs results1 = totalJobs results ∧
      startTime results1 = startTime results ∧
      endTime results1 = endTime results ∧
      successCount results1 =
        (successCount results + if succeeded r then 1 else 0)%nat ∧
      failedCount results1 =
        (failedCount results + if succeeded r then 0 else 1)%nat ∧
      jobs results1 = jobs results ++ [recorded i job r]).
    { subst results1. unfold count. destruct (succeeded r); simpl;
        split_and!; try done; lia. }
    destruct Hfields as (Ht1 & Hs1 & He1 & Hsc1 & Hfc1 & Hj1).
    destruct (IH (S i) results1 w1)
      as (results' & Hrun & Ht & Hs & He & Hsc & Hfc & Hlen & Hkeep & Hnew).
    destruct (calls (S i) rest w1) as [rs w'] eqn:Hcalls.
    simpl in *. exists results'. split; [exact Hrun |].
    rewrite Hj1, length_app in Hlen, Hnew. simpl in Hlen, Hnew.
    split_and!.
    + congruence.
    + congruence.
    + congruence.
    + rewrite Hsc, Hsc1. destruct (succeeded r); simpl; lia.
    + rewrite Hfc, Hfc1. destruct (succeeded r); simpl; lia.
    + lia.
    + intros n entry Hn. apply Hkeep. rewrite Hj1.
      by apply lookup_app_l_Some.
    + intros [| n] job' r' Hjob Hr; simpl in Hjob, Hr.
      * injection Hjob as <-. injection Hr as <-.
        rewrite !Nat.add_0_r. apply Hkeep. rewrite Hj1.
        by rewrite lookup_app_r, Nat.sub_diag by lia.
      * replace (length (jobs results) + S n)%nat
          with (length (jobs results) + 1 + n)%nat by lia.
        replace (i + S n)%nat with (S i + n)%nat by lia.
        by apply Hnew.
Qed.
End Batch.

(** The calls that [applyToJobs] makes: [applyToJob] for each job,
    with what the outside answers at its index. *)
Definition applyEach (cfg : Proxy.ProxyConfig) (envs : nat → Env)
  : nat → Job → M World ApplicationResult :=
  λ i job, callApplyToJob cfg job (envs i).

(** C6. For every non-empty list of jobs, whatever happens to each of
    them, [applyToJobs] returns a result object (it does not throw).
    The jobs are handled one after the other: [applyToJob] is called
    once per job, in the order of the list, each call in the world
    the call before it left, and the world returned is the one the
    last call left. The result lists one entry per job, in that
    order: the result the call returned, or, when the call threw, an
    entry with status ["error"] and the message of the error. A call
    that returned with status ["success"] is counted in
    [successCount], every other call in [failedCount], so that
    [successCount + failedCount = totalJobs]. This is proved of the
    body of [applyToJobs] however the calls of [applyToJob] end. *)
Theorem applyToJobs_accumulates apply label start stop (jobs : list Job) w :
  jobs ≠ [] →
  ∃ results,
    batch apply label start stop jobs w =
      (Ok results, snd (calls apply 0 jobs w)) ∧
    totalJobs results = length jobs ∧
    length (ApplicationService.jobs results) = length jobs ∧
    (∀ n job r,
       jobs !! n = Some job →
       fst (calls apply 0 jobs w) !! n = Some r →
       ApplicationService.jobs results !! n = Some (recorded label n job r)) ∧
    successCount results =
      length (List.filter succeeded (fst (calls apply 0 jobs w))) ∧
    failedCount results =
      length (List.filter (λ r, negb (succeeded r))
                (fst (calls apply 0 jobs w))) ∧
    (successCount results + failedCount results = totalJobs results)%nat ∧
    startTime results = start ∧ endTime results = Some stop.
Proof.
  intros Hne. unfold batch.
  replace (length jobs =? 0)%nat with false
    by (destruct jobs; [done | reflexivity]).
  unfold mbind, M_bind.
  match goal with
  | |- context [eachJob apply label 0 jobs ?acc w] =>
      destruct (eachJob_calls apply label jobs 0%nat acc w)
        as (results & -> & Ht & Hs & He & Hsc & Hfc & Hlen & _ & Hnew)
  end.
  exists (finish stop results). simpl in *.
  pose proof (calls_length apply jobs 0%nat w) as Hcalls.
  pose proof (filter_length succeeded (fst (calls apply 0 jobs w))) as Hsplit.
  split_and!; [done | done | lia | exact Hnew | lia | lia | lia | done | done].
Qed.

Definition job (n url : string) : Job :=
  {| id := n; url := Some url; platform := Some "linkedin";
     resumeText := None; coverLetter := None |}.

(** Everything the application asks of the outside succeeds. *)
Definition smooth : Env :=
  {| random := {| num := 0; den := 1 |};
     detectPlatform := λ _, Some "linkedin";
     updateInProgress := Ok tt;
     engine := PoolSpec.engine_ok;
     login := Ok true; goto := Ok tt; adapterApply := Ok true;
     updateFinal := Ok tt |}.

(** The adapter does not find the apply button. *)
Definition noApplyButton : Env :=
  {| random := random smooth; detectPlatform := detectPlatform smooth;
     updateInProgress := Ok tt; engine := engine smooth;
     login := Ok true; goto := Ok tt;
     adapterApply :=
       Throw (Platform.applicationFailed "linkedin"
                (PlatformError "linkedin" "Apply button not found"));
     updateFinal := Ok tt |}.

(** The store refuses the first status update. *)
Definition storeDown : Env :=
  {| random := random smooth; detectPlatform := detectPlatform smooth;
     updateInProgress := Throw (Error "connection timeout");
     engine := engine smooth;
     login := Ok true; goto := Ok tt; adapterApply := Ok true;
     updateFinal := Ok tt |}.

Definition mixed (i : nat) : Env :=
  match i with
  | 0%nat => smooth
  | 1%nat => noApplyButton
  | _ => storeDown
  end.

Definition threeJobs : list Job :=
  [job "j1" "https://www.linkedin.com/jobs/view/1";
   job "j2" "https://www.linkedin.com/jobs/view/2";
   job "j3" "https://www.linkedin.com/jobs/view/3"].

Definition coldStart : World :=
  {| pool := Browser.empty; currentProxyIndex := 0; jobsTable := [] |}.

Lemma applyToJobs_accumulates_witness :
  ∃ results,
    applyToJobs ScraperSpec.noProxies mixed 0 9 threeJobs coldStart =
      (Ok results,
       snd (calls (applyEach ScraperSpec.noProxies mixed) 0 threeJobs coldStart)) ∧
    length (jobs results) = 3%nat ∧
    (successCount results + failedCount results = totalJobs results)%nat.
Proof.
  destruct (applyToJobs_accumulates (applyEach ScraperSpec.noProxies mixed)
              (λ i job, platformOf (mixed i) job) 0 9 threeJobs coldStart)
    as (results & Hrun & _ & Hlen & _ & _ & _ & Hsum & _); [discriminate |].
  exists results. split; [exact Hrun |]. split; [exact Hlen | exact Hsum].
Defined.

(** A batch of three as the files are laid out: every call ends in
    the [TypeError] of a missing import, or in the store's error, and
    is recorded with status ["error"]. *)
Example applyToJobs_mixed_batch :
  let r := fst (applyToJobs ScraperSpec.noProxies mixed 0 9 threeJobs coldStart) in
  (λ b, (successCount b, failedCount b, map a_status (jobs b),
         map a_errorMessage (jobs b))) <$>
    (match r with Ok b => Some b | Throw _ => None end)
  = Some (0%nat, 3%nat, ["error"; "error"; "error"],
          [Some "createApplication is not a function";
           Some "createApplication is not a function";
           Some "connection timeout"]).
Proof. vm_compute. reflexivity. Qed.

Lemma disconnect_trace b pw :
  ∃ rest, Browser.trace (Browser.disconnect b pw) = Browser.trace pw ++ rest.
Proof.
  unfold Browser.disconnect.
  destruct (Browser.processes pw !! b) as [p |]; [| by exists []; rewrite app_nil_r].
  destruct (Browser.connected p); [| by exists []; rewrite app_nil_r].
  simpl. destruct (Browser.browsers pw !! Browser.handlerKey p); simpl.
  - eexists. by rewrite <- app_assoc.
  - by eexists.
Qed.

Lemma disconnect_disconnects b pw :
  Browser.isConnected (Browser.disconnect b pw) b = false.
Proof.
  unfold Browser.disconnect, Browser.isConnected.
  destruct (Browser.processes pw !! b) as [p |] eqn:Hb; [| by rewrite Hb].
  destruct (Browser.connected p) eqn:Hc; [| by rewrite Hb].
  assert (Hlt : (b < length (Browser.processes pw))%nat)
    by (by eapply lookup_lt_Some).
  simpl. destruct (Browser.browsers pw !! Browser.handlerKey p); simpl;
    by rewrite list_lookup_insert_eq.
Qed.

(** The probe result of a failure. *)
Definition probeFailed (platformName : string) (e : JsError) : ProbeResult :=
  {| p_platform := platformName; p_status := "error"; p_isLoggedIn := false;
     p_screenshotPath := None;
     p_message := "Platform test failed: " ++ message e |}.

(** What the probe has done with the [session] it was handed, by the
    time it exits: it closed the page, then the context, then called
    [close] on the process and nothing else; the process is
    disconnected when that call resolved and is as it was when the
    call was rejected. *)
Definition closedAll (close : result unit) (session : Browser.Session)
    (before after : Browser.World) : Prop :=
  ∃ rest,
    Browser.trace after =
      Browser.trace before
        ++ [Browser.ClosePage (Browser.s_page session);
            Browser.CloseContext (Browser.s_context session);
            Browser.CloseBrowser (Browser.s_browser session)]
        ++ rest ∧
    match close with
    | Ok _ => Browser.isConnected after (Browser.s_browser session) = false
    | Throw _ =>
        rest = [] ∧
        Browser.processes after = Browser.processes before ∧
        Browser.browsers after = Browser.browsers before
    end.

(** C10 (amended). [testPlatform] closes what its acquisition handed
    out. For a platform name that is not supported, and when the
    acquisition fails, it does not throw: it returns a probe result
    with status ["error"] and the message ["Platform test failed: "]
    followed by the message of the error, and closes nothing, the
    pool being as the failed acquisition left it. Once the acquisition
    has returned a page, a context and a process, on every path the
    probe closes the page, then the context, then the process itself;
    as the files are laid out it then ends with the [TypeError] of
    the call of [takeScreenshot], which [./browser.service] does not
    export, whatever the navigation and the login did. *)
Theorem testPlatform_closes_what_it_acquired platformName env w :
  match getPlatformInstance platformName with
  | Throw e =>
      e = ApplicationError "unknown" ("Unsupported platform: " ++ platformName) ∧
      testPlatform platformName env (noProbeFrame, w) =
        (Ok (probeFailed platformName e), (noProbeFrame, w))
  | Ok _ =>
      match Browser.getBrowserForPlatform platformName
              {| Browser.proxy := None; Browser.useExisting := Some false |}
              (p_engine env) (pool w) with
      | (Throw e, pw) =>
          testPlatform platformName env (noProbeFrame, w) =
            (Ok (probeFailed platformName e), (noProbeFrame, setPool pw w))
      | (Ok session, pw) =>
          ∃ s',
            testPlatform platformName env (noProbeFrame, w) =
              (Throw (notAFunction "takeScreenshot"), s') ∧
            closedAll (p_close env) session pw (pool (snd s'))
      end
  end.
Proof.
  unfold testPlatform, tryFinally, tryCatch, mbind, M_bind, await, callPool,
    locals, assign, onPool, modify, throw, mret, M_ret, takeScreenshot.
  simpl.
  destruct (getPlatformInstance platformName) as [inst | e0] eqn:Hinst; simpl.
  2:{ split; [| done]. unfold getPlatformInstance in Hinst.
      repeat match type of Hinst with
             | (if ?c then _ else _) = _ => destruct c; [done |]
             end.
      by injection Hinst as <-. }
  destruct (Browser.getBrowserForPlatform platformName _ (p_engine env) (pool w))
    as [[session | e1] pw]; simpl; [| done].
  assert (Hclosed : ∀ pw0,
    pw0 = Browser.closeContext (Browser.s_context session)
            (Browser.closePage (Browser.s_page session) pw) →
    closedAll (p_close env) session pw
      (closeQuietly (p_close env) (Browser.s_browser session) pw0)).
  { intros pw0 ->. unfold closedAll, closeQuietly.
    destruct (p_close env) as [[] | e].
    - unfold Browser.closeBrowser.
      destruct (disconnect_trace (Browser.s_browser session)
                  (Browser.log (Browser.CloseBrowser (Browser.s_browser session))
                     (Browser.closeContext (Browser.s_context session)
                        (Browser.closePage (Browser.s_page session) pw))))
        as [rest Hrest].
      exists rest. split; [| apply disconnect_disconnects].
      rewrite Hrest. simpl. by rewrite <- !app_assoc.
    - exists []. simpl. by rewrite <- !app_assoc. }
  destruct (configured platformName); simpl.
  2:{ eexists. split; [done |]. by apply Hclosed. }
  destruct (p_goto env) as [[] | e2]; simpl.
  2:{ eexists. split; [done |]. by apply Hclosed. }
  destruct (p_checkLogin env); simpl.
  { eexists. split; [done |]. by apply Hclosed. }
  destruct (p_login env) as [loggedIn | e3]; simpl;
    (eexists; split; [done |]; by apply Hclosed).
Qed.

(** Every call of the engine succeeds and the process closes. *)
Definition allAnswer : ProbeEnv :=
  {| p_engine := PoolSpec.engine_ok; p_goto := Ok tt; p_checkLogin := true;
     p_login := Ok true; p_close := Ok tt |}.

(** The process is launched, then its context cannot be opened. *)
Definition noContextEngine : Browser.Engine :=
  {| Browser.launch := Ok tt;
     Browser.newContext := Throw (Error "Target closed");
     Browser.newPage := Ok tt; Browser.now := 0 |}.

Definition contextFails : ProbeEnv :=
  {| p_engine := noContextEngine; p_goto := Ok tt; p_checkLogin := true;
     p_login := Ok true; p_close := Ok tt |}.

Example unsupported_platform_reported :
  fst (testPlatform "monster" allAnswer (noProbeFrame, coldStart)) =
    Ok {| p_platform := "monster"; p_status := "error"; p_isLoggedIn := false;
          p_screenshotPath := None;
          p_message :=
            "Platform test failed: Job unknown: Unsupported platform: monster" |}.
Proof. reflexivity. Qed.

(** C10 as stated fails twice. When the launch succeeds and the
    context cannot be opened, the probe returns an error result and
    the launched process is still connected: [close] was called on
    nothing. When every call answers, the probe closes page, context
    and process and then throws. *)
Lemma testPlatform_leaves_launched_process :
  (let run := testPlatform "linkedin" contextFails (noProbeFrame, coldStart) in
   fst run = Ok (probeFailed "linkedin" (Error "Target closed")) ∧
   Browser.isConnected (pool (snd (snd run))) 0 = true ∧
   Browser.trace (pool (snd (snd run))) = [Browser.Launch 0 "linkedin"]) ∧
  (let run := testPlatform "linkedin" allAnswer (noProbeFrame, coldStart) in
   fst run = Throw (TypeError "takeScreenshot is not a function") ∧
   Browser.isConnected (pool (snd (snd run))) 0 = false).
Proof. vm_compute. repeat split. Qed.

End ApplicationSpec.

Module ReleaseSpec.
Import Service.

(** What an operation that was handed [session] has done to the
    browser by the time it exits: it used the page, then closed the
    page, then closed the context, and did nothing else; in
    particular the process was not closed, and the pool's map and the
    processes are as the acquisition left them. *)
Definition released (session : Browser.Session) (before after : Browser.World)
  : Prop :=
  ∃ uses,
    Browser.trace after =
      Browser.trace before ++ uses
        ++ [Browser.ClosePage (Browser.s_page session);
            Browser.CloseContext (Browser.s_context session)] ∧
    Forall (λ e, e = Browser.PageUsed (Browser.s_page session)) uses ∧
    Browser.browsers after = Browser.browsers before ∧
    Browser.processes after = Browser.processes before.

Lemma released_intro session pw uses :
  Forall (λ e, e = Browser.PageUsed (Browser.s_page session)) uses →
  released session pw
    (Browser.closeContext (Browser.s_context session)
       (Browser.closePage (Browser.s_page session)
          {| Browser.browsers := Browser.browsers pw;
             Browser.processes := Browser.processes pw;
             Browser.nextHandle := Browser.nextHandle pw;
             Browser.trace := Browser.trace pw ++ uses |})).
Proof.
  intros Huses. exists uses. simpl. by rewrite <- !app_assoc.
Qed.

Lemma scrape_releases self cfg options env w session pw :
  truthy (BaseScraper.keywords options) = true →
  Browser.getBrowserForPlatform (BaseScraper.platform self)
    {| Browser.proxy := None; Browser.useExisting := Some false |}
    (BaseScraper.engine env) (pool w) = (Ok session, pw) →
  released session pw
    (pool (snd (snd (BaseScraper.scrape self cfg options env
                       (BaseScraper.noFrame, w))))).
Proof.
  intros Hk Hacq.
  rewrite (ScraperSpec.scrape_run self cfg options env w Hk).
  destruct (Proxy.getProxy cfg (BaseScraper.random env) (currentProxyIndex w))
    as [proxy idx].
  rewrite (ScraperSpec.acquire_proxy_irrelevant _ proxy None), Hacq.
  destruct (ScraperSpec.attemptsMade self env (Browser.s_page session)
              (BaseScraper.maxRetries self) 0) as [r n].
  assert (Hrel : released session pw
            (ScraperSpec.release session
               (ScraperSpec.usePage (Browser.s_page session) n pw))).
  { destruct (ScraperSpec.usePage_fields (Browser.s_page session) n pw)
      as (Hb & Hp & _ & Ht).
    exists (replicate n (Browser.PageUsed (Browser.s_page session))).
    rewrite ScraperSpec.release_trace, Ht, <- app_assoc. simpl.
    repeat split; [| done | done]. by apply Forall_replicate. }
  destruct r as [found | e]; [| exact Hrel].
  by destruct (BaseScraper.saveJobsToDatabase self env found (jobsTable w)).
Qed.

Lemma scrapeJobs_releases cfg options env w session pw name :
  ScrapingService.platform options = Some name →
  truthy (Some name) = true →
  truthy (ScrapingService.keywords options) = true →
  ScrapingService.supported name = true →
  Browser.getBrowserForPlatform name
    {| Browser.proxy := None; Browser.useExisting := Some false |}
    (ScrapingService.engine env) (pool w) = (Ok session, pw) →
  released session pw
    (pool (snd (snd (ScrapingService.scrapeJobs cfg options env
                       (ScrapingService.noFrame, w))))).
Proof.
  intros Hp Hname Hk Hsup Hacq. unfold ScrapingService.scrapeJobs.
  rewrite Hp, Hname, Hk. simpl. rewrite Hsup. simpl.
  unfold tryFinally, mbind, M_bind, getProxy, callPool, assign, onPool, modify,
    await, locals, mret, M_ret, ScrapingService.saveJobs.
  simpl.
  destruct (Proxy.getProxy cfg (ScrapingService.random env) (currentProxyIndex w))
    as [proxy idx].
  simpl. rewrite (ScraperSpec.acquire_proxy_irrelevant _ proxy None), Hacq. simpl.
  destruct (ScrapingService.scrapeFunction env (Browser.s_page session))
    as [found | e]; simpl.
  - destruct (ScrapingService.saveJobsToDatabase env found (jobsTable w))
      as [[st | e] t]; simpl;
      apply (released_intro session pw
               [Browser.PageUsed (Browser.s_page session)]);
      by repeat constructor.
  - apply (released_intro session pw [Browser.PageUsed (Browser.s_page session)]).
    by repeat constructor.
Qed.

Lemma applyToJob_releases cfg job env w session pw inst :
  truthy (ApplicationService.url job) = true →
  truthy (ApplicationService.platformOf env job) = true →
  ApplicationService.updateInProgress env = Ok tt →
  ApplicationService.getPlatformInstance
    (default "" (ApplicationService.platformOf env job)) = Ok inst →
  Browser.getBrowserForPlatform
    (default "" (ApplicationService.platformOf env job))
    {| Browser.proxy := None; Browser.useExisting := None |}
    (ApplicationService.engine env) (pool w) = (Ok session, pw) →
  released session pw
    (pool (snd (snd (ApplicationService.applyToJob cfg job env
                       (ApplicationService.noFrame, w))))).
Proof.
  intros Hu Hp Hupd Hinst Hacq. unfold ApplicationService.applyToJob.
  rewrite Hu, Hp. simpl.
  unfold tryFinally, tryCatch, mbind, M_bind, getProxy, callPool, assign, onPool,
    modify, await, locals, mret, M_ret, ApplicationService.takeScreenshot,
    ApplicationService.createApplication,
    ApplicationService.updateApplicationStats, throw.
  rewrite Hupd, Hinst. simpl.
  destruct (Proxy.getProxy cfg (ApplicationService.random env) (currentProxyIndex w))
    as [proxy idx].
  simpl. rewrite (ScraperSpec.acquire_proxy_irrelevant _ proxy None), Hacq. simpl.
  assert (Hnone : released session pw
    (Browser.closeContext (Browser.s_context session)
       (Browser.closePage (Browser.s_page session) pw))).
  { exists []. simpl. by rewrite <- app_assoc. }
  pose proof (released_intro session pw
                [Browser.PageUsed (Browser.s_page session)]
                ltac:(by repeat constructor)) as Hone.
  destruct (ApplicationService.login env) as [? | ?]; simpl.
  2:{ by destruct (ApplicationService.updateFinal env) as [[] | ?]. }
  destruct (ApplicationService.goto env) as [[] | ?]; simpl.
  2:{ by destruct (ApplicationService.updateFinal env) as [[] | ?]. }
  destruct (ApplicationService.adapterApply env) as [? | ?]; simpl;
    by destruct (ApplicationService.updateFinal env) as [[] | ?].
Qed.

(** When the acquisition itself fails the operation holds no page and
    no context, and closes nothing. *)
Lemma scrape_nothing_to_release self cfg options env w e pw :
  truthy (BaseScraper.keywords options) = true →
  Browser.getBrowserForPlatform (BaseScraper.platform self)
    {| Browser.proxy := None; Browser.useExisting := Some false |}
    (BaseScraper.engine env) (pool w) = (Throw e, pw) →
  BaseScraper.scrape self cfg options env (BaseScraper.noFrame, w) =
    (Throw (ScraperSpec.wrap self e),
     (BaseScraper.noFrame,
      {| pool := pw;
         currentProxyIndex :=
           snd (Proxy.getProxy cfg (BaseScraper.random env) (currentProxyIndex w));
         jobsTable := jobsTable w |})).
Proof.
  intros Hk Hacq.
  rewrite (ScraperSpec.scrape_run self cfg options env w Hk).
  destruct (Proxy.getProxy cfg (BaseScraper.random env) (currentProxyIndex w))
    as [proxy idx].
  by rewrite (ScraperSpec.acquire_proxy_irrelevant _ proxy None), Hacq.
Qed.

(** C7 (amended). On every exit path of a scrape run (of either
    pipeline) or of an application that was handed a page and a
    context, the page is closed and then the context (page first),
    whether the operation succeeds or fails; nothing else is closed:
    the browser process stays as the acquisition left it, connected
    and registered in the pool, so that it can be reused. *)
Theorem page_then_context_released :
  (∀ self cfg options env w session pw,
     truthy (BaseScraper.keywords options) = true →
     Browser.getBrowserForPlatform (BaseScraper.platform self)
       {| Browser.proxy := None; Browser.useExisting := Some false |}
       (BaseScraper.engine env) (pool w) = (Ok session, pw) →
     released session pw
       (pool (snd (snd (BaseScraper.scrape self cfg options env
                          (BaseScraper.noFrame, w)))))) ∧
  (∀ cfg options env w session pw name,
     ScrapingService.platform options = Some name →
     truthy (Some name) = true →
     truthy (ScrapingService.keywords options) = true →
     ScrapingService.supported name = true →
     Browser.getBrowserForPlatform name
       {| Browser.proxy := None; Browser.useExisting := Some false |}
       (ScrapingService.engine env) (pool w) = (Ok session, pw) →
     released session pw
       (pool (snd (snd (ScrapingService.scrapeJobs cfg options env
                          (ScrapingService.noFrame, w)))))) ∧
  (∀ cfg job env w session pw inst,
     truthy (ApplicationService.url job) = true →
     truthy (ApplicationService.platformOf env job) = true →
     ApplicationService.updateInProgress env = Ok tt →
     ApplicationService.getPlatformInstance
       (default "" (ApplicationService.platformOf env job)) = Ok inst →
     Browser.getBrowserForPlatform
       (default "" (ApplicationService.platformOf env job))
       {| Browser.proxy := None; Browser.useExisting := None |}
       (ApplicationService.engine env) (pool w) = (Ok session, pw) →
     released session pw
       (pool (snd (snd (ApplicationService.applyToJob cfg job env
                          (ApplicationService.noFrame, w)))))).
Proof.
  split; [| split].
  - apply scrape_releases.
  - apply scrapeJobs_releases.
  - apply applyToJob_releases.
Qed.

Lemma page_then_context_released_witness :
  ∃ session pw,
    released session pw
      (pool (snd (snd (ApplicationService.applyToJob ScraperSpec.noProxies
                         (ApplicationSpec.job "j2" "https://www.linkedin.com/jobs/view/2")
                         ApplicationSpec.noApplyButton
                         (ApplicationService.noFrame, ApplicationSpec.coldStart))))).
Proof.
  eexists _, _.
  refine (proj2 (proj2 page_then_context_released) ScraperSpec.noProxies
            (ApplicationSpec.job "j2" "https://www.linkedin.com/jobs/view/2")
            ApplicationSpec.noApplyButton ApplicationSpec.coldStart _ _
            ApplicationService.LinkedInPlatform
            eq_refl eq_refl eq_refl eq_refl eq_refl).
Defined.

(** The close calls among the events, in order. *)
Definition closings (events : list Browser.Event) : list Browser.Event :=
  List.filter
    (λ e, match e with
          | Browser.ClosePage _ | Browser.CloseContext _
          | Browser.CloseBrowser _ => true
          | _ => false
          end)
    events.

(** C7 as stated fails on the order: a successful scrape closes its
    page (handle 1) first and its context (handle 0) second. *)
Lemma page_closed_before_context :
  let run := BaseScraper.scrape (BaseScraper.new "indeed") ScraperSpec.noProxies
               ScraperSpec.backendEngineer (ScraperSpec.calm ScraperSpec.threeFound)
               (BaseScraper.noFrame, ScraperSpec.storeWith []) in
  let events := Browser.trace (pool (snd (snd run))) in
  is_ok (fst run) = true ∧
  closings events = [Browser.ClosePage 1; Browser.CloseContext 0] ∧
  closings events ≠ [Browser.CloseContext 0; Browser.ClosePage 1].
Proof. vm_compute. repeat split. discriminate. Qed.

End ReleaseSpec.

Module PlatformSpec.
Import Platform.

(** The page reached after [k] turns that all ended in [continue]. *)
Fixpoint turns {Page A} (body : M Page (Control A)) (k : nat) (page : Page)
  : option Page :=
  match k with
  | O => Some page
  | S k' =>
      match body page with
      | (Ok KeepGoing, page') => turns body k' page'
      | _ => None
      end
  end.

(** How a turn that leaves the loop leaves it. *)
Definition leaves {A} (r : result (Control A)) : option (result A) :=
  match r with
  | Ok KeepGoing => None
  | Ok (Leave v) => Some (Ok v)
  | Throw e => Some (Throw e)
  end.

Section Loop.
Context {Page A : Type}.
Variable body : M Page (Control A).

Lemma loop_after_turns k : ∀ page pk fuel,
  turns body k page = Some pk →
  loop body (k + fuel) page = loop body fuel pk.
Proof.
  induction k as [| k IH]; intros page pk fuel; simpl.
  - by intros [= ->].
  - destruct (body page) as [[[| v] | e] page']; [| done | done]. apply IH.
Qed.

(** The loop has no bound of its own: it is still running after
    [fuel] turns exactly when each of them ended in [continue]. *)
Lemma loop_running fuel : ∀ page,
  loop body fuel page = None ↔ is_Some (turns body fuel page).
Proof.
  induction fuel as [| fuel IH]; intros page; simpl.
  - split; [by eexists | done].
  - destruct (body page) as [[[| v] | e] page']; [apply IH | |];
      (split; [done | by intros [? ?]]).
Qed.

(** It ends at the first turn that does not end in [continue]. *)
Lemma loop_exit k page pk r p' exit :
  turns body k page = Some pk →
  body pk = (r, p') →
  leaves r = Some exit →
  ∀ fuel, (k < fuel)%nat → loop body fuel page = Some (exit, p').
Proof.
  intros Hturns Hbody Hleave fuel Hlt.
  replace fuel with (k + S (fuel - S k))%nat by lia.
  rewrite (loop_after_turns k page pk _ Hturns). simpl. rewrite Hbody.
  destruct r as [[| v] | e]; simpl in Hleave; [done | |]; by injection Hleave as <-.
Qed.
End Loop.

(** A scripted form: the controls [shown] on the current step, the
    steps still to come, and the selectors that match on every step;
    a click is recorded and moves to the next step, unless the form
    [repeats] its step for ever. *)
Record Form : Type := {
  always : list string;
  shown : list string;
  later : list (list string);
  repeats : bool;
  clicked : list string;
}.

Definition visible (selector : string) (f : Form) : bool :=
  existsb (String.eqb selector) (shown f ++ always f).

Definition advance (selector : string) (f : Form) : Form :=
  if repeats f then
    {| always := always f; shown := shown f; later := later f;
       repeats := true; clicked := clicked f ++ [selector] |}
  else
    {| always := always f; shown := default [] (head (later f));
       later := tail (later f); repeats := false;
       clicked := clicked f ++ [selector] |}.

#[local] Instance scripted : Playwright Form := {|
  waitForSelector selector _ f :=
    if visible selector f then (Ok tt, f)
    else (Throw (Error ("Timeout exceeded waiting for selector " ++ selector)), f);
  pageClick selector f := (Ok tt, advance selector f);
  pause _ _ f := (Ok tt, f);
  textContent _ f := (Ok None, f);
  bodyText f := (Ok "Something went wrong", f);
  fillStep f := f;
|}.

Definition easyApply : list string :=
  [".job-details-jobs-unified-top-card__content"; ".jobs-apply-button";
   ".jobs-easy-apply-content"; ".artdeco-inline-feedback--success"].

(** A form that shows a [Continue to next step] control on every
    step. *)
Definition endlessForm : Form :=
  {| always := easyApply; shown := [nextButtonSelector]; later := [];
     repeats := true; clicked := [] |}.

(** The fixture [continue, continue, review, submit], behind the
    apply button of the job page. *)
Definition fourSteps : Form :=
  {| always := easyApply; shown := [];
     later := [[nextButtonSelector]; [nextButtonSelector];
               [reviewButtonSelector]; [submitButtonSelector]; []];
     repeats := false; clicked := [] |}.

Example fourSteps_applied :
  (λ r, (fst r, clicked (snd r))) <$> linkedinApplyToJob 10 fourSteps =
  Some (Ok true,
        [".jobs-apply-button"; nextButtonSelector; nextButtonSelector;
         reviewButtonSelector; submitButtonSelector]).
Proof. reflexivity. Qed.

(** What a turn does to the page, as far as the order matters. *)
Inductive Action : Type :=
| Looked (selector : string)
| Filled
| Clicked (selector : string).

(** Any page, with a record of the selectors waited for, of the
    fillings and of the selectors passed to [page.click]. *)
Definition logged {Page} (P : Playwright Page) : Playwright (Page * list Action) :=
  {| waitForSelector selector timeout s :=
       let '(r, p) := waitForSelector selector timeout (fst s) in
       (r, (p, snd s ++ [Looked selector]));
     pageClick selector s :=
       let '(r, p) := pageClick selector (fst s) in
       (r, (p, snd s ++ [Clicked selector]));
     pause min max s :=
       let '(r, p) := pause min max (fst s) in (r, (p, snd s));
     textContent selector s :=
       let '(r, p) := textContent selector (fst s) in (r, (p, snd s));
     bodyText s := let '(r, p) := bodyText (fst s) in (r, (p, snd s));
     fillStep s := (fillStep (fst s), snd s ++ [Filled]) |}.

Definition clicksOf (l : list Action) : list string :=
  omap (λ a, match a with Clicked selector => Some selector | _ => None end) l.

(** The control a turn acts on, by the flags it found. *)
Definition chosenByLinkedin (flags : bool * bool * bool) : option string :=
  let '(hasNextButton, hasSubmitButton, hasReviewButton) := flags in
  if hasReviewButton then Some reviewButtonSelector
  else if hasSubmitButton then Some submitButtonSelector
  else if hasNextButton then Some nextButtonSelector
  else None.

Definition chosenByForm (submitSelector : string) (flags : bool * bool * bool)
  : option string :=
  let '(hasContinueButton, hasSubmitButton, hasReviewButton) := flags in
  if hasSubmitButton then Some submitSelector
  else if hasReviewButton then Some reviewSelector
  else if hasContinueButton then Some continueButtonSelector
  else None.

Section Clicks.
Context {Page : Type} (P : Playwright Page).
Abbreviation L := (logged P).

(** The computation clicks nothing. *)
Definition silent {A} (m : M (Page * list Action) A) : Prop :=
  ∀ s, clicksOf (snd (snd (m s))) = clicksOf (snd s).

Lemma clicksOf_app l1 l2 : clicksOf (l1 ++ l2) = clicksOf l1 ++ clicksOf l2.
Proof. apply omap_app. Qed.

Lemma silent_bind {A B} (m : M (Page * list Action) A)
    (k : A → M (Page * list Action) B) :
  silent m → (∀ a, silent (k a)) → silent (m ≫= k).
Proof.
  intros Hm Hk s. unfold mbind, M_bind. specialize (Hm s).
  destruct (m s) as [[a | e] s1]; simpl in *; [| done].
  by rewrite Hk.
Qed.

Lemma silent_tryCatch {A} (m : M (Page * list Action) A) h :
  silent m → (∀ e, silent (h e)) → silent (tryCatch m h).
Proof.
  intros Hm Hh s. unfold tryCatch. specialize (Hm s).
  destruct (m s) as [[a | e] s1]; simpl in *; [done |]. by rewrite Hh.
Qed.

Lemma silent_ret {A} (a : A) : silent (mret a).
Proof. done. Qed.

Lemma silent_throw {A} e : silent (@throw _ A e).
Proof. done. Qed.

Lemma silent_wait selector timeout : silent (@waitForSelector _ L selector timeout).
Proof.
  intros s. simpl. destruct (waitForSelector selector timeout (fst s)). simpl.
  rewrite clicksOf_app. simpl. by rewrite app_nil_r.
Qed.

Lemma silent_pause min max : silent (@pause _ L min max).
Proof. intros s. simpl. by destruct (pause min max (fst s)). Qed.

Lemma silent_text selector : silent (@textContent _ L selector).
Proof. intros s. simpl. by destruct (textContent selector (fst s)). Qed.

Lemma silent_elementExists selector : silent (@elementExists _ L selector).
Proof.
  apply silent_tryCatch; [| intros; apply silent_ret].
  apply silent_bind; [apply silent_wait | intros; apply silent_ret].
Qed.

Lemma silent_getElementText selector : silent (@getElementText _ L selector).
Proof.
  apply silent_tryCatch; [| intros; apply silent_ret].
  apply silent_bind; [apply silent_wait | intros; apply silent_text].
Qed.

Lemma silent_confirmSubmission platform ok ko :
  silent (@confirmSubmission _ L platform ok ko).
Proof.
  apply silent_bind; [apply silent_pause | intros _].
  apply silent_bind; [apply silent_elementExists | intros [|]; simpl];
    [apply silent_ret |].
  apply silent_bind; [apply silent_elementExists | intros [|]; simpl];
    [| apply silent_ret].
  apply silent_bind; [apply silent_getElementText | intros; apply silent_throw].
Qed.

(** [click] passes its selector to [page.click] once, or throws before
    doing so. *)
Lemma click_once platform selector s :
  let r := @click _ L platform selector s in
  clicksOf (snd (snd r)) = clicksOf (snd s) ++ [selector] ∨
  (clicksOf (snd (snd r)) = clicksOf (snd s) ∧ is_ok (fst r) = false).
Proof.
  unfold click, tryCatch, mbind, M_bind, throw. simpl.
  destruct (waitForSelector selector 5000 (fst s)) as [[[] | e] p1]; simpl;
    [| right; by rewrite clicksOf_app, app_nil_r].
  destruct (pause 300 800 p1) as [[[] | e] p2]; simpl;
    [| right; by rewrite clicksOf_app, app_nil_r].
  destruct (pageClick selector p2) as [[[] | e] p3]; simpl; left;
    by rewrite !clicksOf_app, app_nil_r.
Qed.

Lemma click_then_silent {A} platform selector (k : M (Page * list Action) A) s :
  silent k →
  let r := (@click _ L platform selector ;; k) s in
  clicksOf (snd (snd r)) = clicksOf (snd s) ++ [selector] ∨
  (clicksOf (snd (snd r)) = clicksOf (snd s) ∧ is_ok (fst r) = false).
Proof.
  intros Hk. pose proof (click_once platform selector s) as Hc.
  unfold mbind, M_bind. simpl in *.
  destruct (@click _ L platform selector s) as [[[] | e] s1]; simpl in *.
  - rewrite Hk. destruct Hc as [Hc | [_ ?]]; [by left | done].
  - exact Hc.
Qed.

(** Indeed and Glassdoor fill the inputs, then look for the three
    controls. *)
Lemma formInspect_order submitSelector s flags s1 :
  @formInspect _ L submitSelector s = (Ok flags, s1) →
  snd s1 = snd s ++ [Filled; Looked continueButtonSelector;
                     Looked submitSelector; Looked reviewSelector].
Proof.
  unfold formInspect, elementExists, tryCatch, mbind, M_bind, modify, mret, M_ret.
  simpl.
  destruct (pause 1000 2000 (fst s)) as [[[] | e] p1]; simpl; [| done].
  destruct (waitForSelector continueButtonSelector 1000 (fillStep p1))
    as [[[] | e1] p2]; simpl;
    destruct (waitForSelector submitSelector 1000 p2) as [[[] | e2] p3]; simpl;
    destruct (waitForSelector reviewSelector 1000 p3) as [[[] | e3] p4]; simpl;
    intros [= <- <-]; simpl; by rewrite <- !app_assoc.
Qed.

(** LinkedIn looks for the three controls, then fills the inputs. *)
Lemma linkedinInspect_order s flags s1 :
  @linkedinInspect _ L s = (Ok flags, s1) →
  snd s1 = snd s ++ [Looked nextButtonSelector; Looked submitButtonSelector;
                     Looked reviewButtonSelector; Filled].
Proof.
  unfold linkedinInspect, elementExists, tryCatch, mbind, M_bind, modify, mret,
    M_ret.
  simpl.
  destruct (pause 800 1500 (fst s)) as [[[] | e] p1]; simpl; [| done].
  destruct (waitForSelector nextButtonSelector 1000 p1) as [[[] | e1] p2]; simpl;
    destruct (waitForSelector submitButtonSelector 1000 p2) as [[[] | e2] p3];
    simpl;
    destruct (waitForSelector reviewButtonSelector 1000 p3) as [[[] | e3] p4];
    simpl;
    intros [= <- <-]; simpl; by rewrite <- !app_assoc.
Qed.
End Clicks.

(** Closes goals [silent m] for computations built from the helpers
    above. *)
Ltac quiet :=
  repeat first
    [ apply silent_ret | apply silent_throw | apply silent_pause
    | apply silent_wait | apply silent_text | apply silent_elementExists
    | apply silent_getElementText | apply silent_confirmSubmission
    | apply silent_bind; [| intros ?] ].

(** C3 (amended). In every turn of the submission loop the adapter
    acts on one control only: among the controls it found it passes
    exactly one selector to [page.click], once (or throws before the
    click), and when it found none it clicks nothing and throws.
    Indeed and Glassdoor fill the step's inputs and then look for the
    controls, and act on submit first, then review, then continue;
    LinkedIn looks for the controls first, then fills the inputs, and
    acts on review first, then submit, then continue. *)
Theorem acts_on_one_control {Page} (P : Playwright Page)
    (flags : bool * bool * bool) (s : Page * list Action) :
  (∀ platform submitSelector,
     let r := @formAct _ (logged P) platform submitSelector flags s in
     match chosenByForm submitSelector flags with
     | Some control =>
         clicksOf (snd (snd r)) = clicksOf (snd s) ++ [control] ∨
         (clicksOf (snd (snd r)) = clicksOf (snd s) ∧ is_ok (fst r) = false)
     | None =>
         clicksOf (snd (snd r)) = clicksOf (snd s) ∧ is_ok (fst r) = false
     end) ∧
  (let r := @linkedinAct _ (logged P) flags s in
   match chosenByLinkedin flags with
   | Some control =>
       clicksOf (snd (snd r)) = clicksOf (snd s) ++ [control] ∨
       (clicksOf (snd (snd r)) = clicksOf (snd s) ∧ is_ok (fst r) = false)
   | None =>
       snd r = s ∧
       fst r = Throw (PlatformError "linkedin"
                        "Could not find navigation buttons in application form")
   end) ∧
  (∀ submitSelector s0 s1,
     @formInspect _ (logged P) submitSelector s0 = (Ok flags, s1) →
     snd s1 = snd s0 ++ [Filled; Looked continueButtonSelector;
                         Looked submitSelector; Looked reviewSelector]) ∧
  (∀ s0 s1,
     @linkedinInspect _ (logged P) s0 = (Ok flags, s1) →
     snd s1 = snd s0 ++ [Looked nextButtonSelector; Looked submitButtonSelector;
                         Looked reviewButtonSelector; Filled]).
Proof.
  split; [| split; [| split]].
  - destruct flags as [[f1 f2] f3].
    intros platform submitSelector. unfold formAct, chosenByForm.
    destruct f2; [apply click_then_silent; quiet |].
    destruct f3; [apply click_then_silent; quiet |].
    destruct f1; [apply click_then_silent; quiet |].
    simpl. unfold mbind, M_bind, throw. simpl.
    by destruct (bodyText (fst s)) as [[text | e] p1].
  - destruct flags as [[f1 f2] f3]. unfold linkedinAct, chosenByLinkedin.
    destruct f3; [apply click_then_silent; quiet |].
    destruct f2; [apply click_then_silent; quiet |].
    destruct f1; [apply click_then_silent; quiet |].
    done.
  - intros submitSelector s0 s1. apply formInspect_order.
  - intros s0 s1. apply linkedinInspect_order.
Qed.

(** A step that shows both a review and a submit control. *)
Definition reviewAndSubmit : Form :=
  {| always := [".artdeco-inline-feedback--success"];
     shown := [reviewButtonSelector; submitButtonSelector;
               reviewSelector; indeedSubmitSelector];
     later := [[]]; repeats := false; clicked := [] |}.

(** C3 as stated fails for LinkedIn: on a step showing both a review
    and a submit control its turn clicks the review control, where
    the stated order (and the Indeed adapter on the same step) takes
    the submit control. *)
Lemma linkedin_prefers_review :
  clicked (snd (linkedinStep reviewAndSubmit)) = [reviewButtonSelector] ∧
  clicked (snd (linkedinStep reviewAndSubmit)) ≠ [submitButtonSelector] ∧
  clicked (snd (formStep "indeed" indeedSubmitSelector reviewAndSubmit)) =
    [indeedSubmitSelector].
Proof. vm_compute. repeat split. discriminate. Qed.

Lemma leaves_after_bind {Page A B} (m : M Page A) (v : B) (page : Page) :
  let r := (m ;; mret (Leave v)) page in
  fst r = Ok (Leave v) ∨ is_ok (fst r) = false.
Proof.
  unfold mbind, M_bind. simpl. destruct (m page) as [[a | e] p1]; simpl;
    [by left | by right].
Qed.

(** C2 (amended). The submission loop of an adapter ends at the first
    turn that does not end in [continue]: when that turn finds none of
    the three controls it throws a [PlatformError] saying that no
    navigation button was found (for Indeed and Glassdoor followed by
    the first 200 characters of the page text); when it finds a
    submit control (LinkedIn: and no review control) it leaves the
    loop after the click, with success or an error. There is no bound
    on the number of turns: after [k] turns that each ended in
    [continue] (a review or continue control was clicked) the loop is
    still running. *)
Theorem submission_loop_exits {Page} `{Playwright Page} (k : nat) (page pk : Page) :
  (turns linkedinStep k page = Some pk →
   loop linkedinStep k page = None ∧
   (∀ p1, linkedinInspect pk = (Ok (false, false, false), p1) →
      ∀ fuel, (k < fuel)%nat →
        loop linkedinStep fuel page =
          Some (Throw (PlatformError "linkedin"
                         "Could not find navigation buttons in application form"),
                p1)) ∧
   (∀ hasNextButton p1,
      linkedinInspect pk = (Ok (hasNextButton, true, false), p1) →
      ∀ fuel, (k < fuel)%nat →
        ∃ r p2, loop linkedinStep fuel page = Some (r, p2) ∧
                (r = Ok true ∨ is_ok r = false))) ∧
  (∀ platform submitSelector,
     turns (formStep platform submitSelector) k page = Some pk →
     loop (formStep platform submitSelector) k page = None ∧
     (∀ p1 text p2,
        formInspect submitSelector pk = (Ok (false, false, false), p1) →
        bodyText p1 = (Ok text, p2) →
        ∀ fuel, (k < fuel)%nat →
          loop (formStep platform submitSelector) fuel page =
            Some (Throw (PlatformError platform
                           ("Could not find navigation buttons in application form. Page text: "
                              ++ substring200 text ++ "...")),
                  p2)) ∧
     (∀ hasContinueButton hasReviewButton p1,
        formInspect submitSelector pk =
          (Ok (hasContinueButton, true, hasReviewButton), p1) →
        ∀ fuel, (k < fuel)%nat →
          ∃ r p2, loop (formStep platform submitSelector) fuel page = Some (r, p2) ∧
                  (r = Ok tt ∨ is_ok r = false))).
Proof.
  split.
  - intros Hturns. split; [apply loop_running; by rewrite Hturns |]. split.
    + intros p1 Hinspect fuel Hlt.
      apply (loop_exit linkedinStep k page pk
               (Throw (PlatformError "linkedin"
                         "Could not find navigation buttons in application form")));
        [done | | done | done].
      unfold linkedinStep, mbind, M_bind at 1. by rewrite Hinspect.
    + intros hasNextButton p1 Hinspect fuel Hlt.
      destruct (linkedinStep pk) as [r p2] eqn:Hstep.
      assert (Hr : r = Ok (Leave true) ∨ is_ok r = false).
      { unfold linkedinStep, mbind, M_bind at 1 in Hstep.
        rewrite Hinspect in Hstep. unfold linkedinAct in Hstep.
        pose proof (leaves_after_bind
          (click "linkedin" submitButtonSelector;;
           confirmSubmission "linkedin" ".artdeco-inline-feedback--success"
             ".artdeco-inline-feedback--error") true p1) as Hl.
        simpl in Hl. unfold mbind, M_bind in Hl, Hstep.
        destruct (click "linkedin" submitButtonSelector p1) as [[[] | e] q1];
          simpl in *; [| injection Hstep as <- _; by right].
        destruct (confirmSubmission _ _ _ q1) as [[[] | e] q2]; simpl in *;
          injection Hstep as <- _; [by left | by right]. }
      destruct Hr as [-> | Hr].
      * exists (Ok true), p2. split; [| by left].
        by apply (loop_exit linkedinStep k page pk (Ok (Leave true))).
      * destruct r as [c | e]; [done |].
        exists (Throw e), p2. split; [| by right].
        by apply (loop_exit linkedinStep k page pk (Throw e)).
  - intros platform submitSelector Hturns.
    split; [apply loop_running; by rewrite Hturns |]. split.
    + intros p1 text p2 Hinspect Htext fuel Hlt.
      apply (loop_exit (formStep platform submitSelector) k page pk
               (Throw (PlatformError platform
                         ("Could not find navigation buttons in application form. Page text: "
                            ++ substring200 text ++ "..."))));
        [done | | done | done].
      unfold formStep, mbind, M_bind at 1. rewrite Hinspect.
      unfold formAct, mbind, M_bind. by rewrite Htext.
    + intros hasContinueButton hasReviewButton p1 Hinspect fuel Hlt.
      destruct (formStep platform submitSelector pk) as [r p2] eqn:Hstep.
      assert (Hr : r = Ok (Leave tt) ∨ is_ok r = false).
      { unfold formStep, mbind, M_bind at 1 in Hstep.
        rewrite Hinspect in Hstep. unfold formAct in Hstep.
        pose proof (leaves_after_bind (click platform submitSelector) tt p1) as Hl.
        simpl in Hl. by rewrite Hstep in Hl. }
      destruct Hr as [-> | Hr].
      * exists (Ok tt), p2. split; [| by left].
        by apply (loop_exit (formStep platform submitSelector) k page pk
                    (Ok (Leave tt))).
      * destruct r as [c | e]; [done |].
        exists (Throw e), p2. split; [| by right].
        by apply (loop_exit (formStep platform submitSelector) k page pk (Throw e)).
Qed.

(** One more step behind a continue control, and nothing on it. *)
Definition deadEnd : Form :=
  {| always := easyApply; shown := [nextButtonSelector]; later := [[]];
     repeats := false; clicked := [] |}.

Lemma submission_loop_exits_witness :
  ∃ p1,
    loop linkedinStep 5 deadEnd =
      Some (Throw (PlatformError "linkedin"
                     "Could not find navigation buttons in application form"),
            p1).
Proof.
  eexists.
  refine (proj1 (proj2 (proj1 (submission_loop_exits 1 deadEnd _) eq_refl))
            _ eq_refl 5%nat _).
  lia.
Defined.

Example deadEnd_reported :
  fst <$> linkedinApplyToJob 5
            {| always := easyApply; shown := [];
               later := [[nextButtonSelector]; []]; repeats := false;
               clicked := [] |} =
  Some (Throw (PlatformError "linkedin"
                 "Application failed: linkedin: Could not find navigation buttons in application form")).
Proof. reflexivity. Qed.

(** The endless form after the clicks [c]. *)
Definition endlessAfter (c : list string) : Form :=
  {| always := easyApply; shown := [nextButtonSelector]; later := [];
     repeats := true; clicked := c |}.

Lemma endless_turn c :
  linkedinStep (endlessAfter c) =
    (Ok KeepGoing, endlessAfter (c ++ [nextButtonSelector])).
Proof. reflexivity. Qed.

Lemma endless_turns k : ∀ c,
  is_Some (turns linkedinStep k (endlessAfter c)).
Proof.
  induction k as [| k IH]; intros c; [by eexists |].
  cbn [turns]. rewrite endless_turn. apply IH.
Qed.

(** C2 as stated fails: on a form that shows a continue control on
    every step, [applyToJob] is still running after any number of
    turns; no iteration count stops it. *)
Lemma submission_loop_never_ends :
  ¬ ∃ fuel r, linkedinApplyToJob fuel endlessForm = Some r.
Proof.
  intros (fuel & r & Hrun). unfold linkedinApplyToJob in Hrun.
  change (linkedinOpenForm endlessForm)
    with (Ok (@None bool), endlessAfter [".jobs-apply-button"]) in Hrun.
  simpl in Hrun.
  rewrite (proj2 (loop_running linkedinStep fuel _) (endless_turns fuel _)) in Hrun.
  done.
Qed.

End PlatformSpec.

(** ** Further properties of the code: edge cases, invariants and
       how the operations compose *)

Module DelaySpec.
Import Retry.

Lemma floor_scaled_range r n :
  (num r < den r)%nat → (0 < n)%Z → (0 ≤ floor_scaled r n < n)%Z.
Proof.
  intros Hr Hn. unfold floor_scaled. split.
  - apply Z.div_pos; lia.
  - apply Z.div_lt_upper_bound; [lia |]. nia.
Qed.

(** X1. [randomDelay(min, max)] stays within its bounds: for integers
    [min ≤ max] and a random number of the unit interval (one excluded)
    the delay is an integer between [min] and [max], both included. *)
Theorem randomDelay_within_bounds {W} (random : W → Random * W) (min max : Z) w :
  (num (fst (random w)) < den (fst (random w)))%nat →
  (min ≤ max)%Z →
  (min ≤ fst (randomDelay random min max w) ≤ max)%Z.
Proof.
  intros Hr Hle. unfold randomDelay. destruct (random w) as [r w']. simpl in *.
  pose proof (floor_scaled_range r (max - min + 1) Hr ltac:(lia)). lia.
Qed.

Lemma randomDelay_within_bounds_witness :
  (500 ≤ fst (randomDelay (λ w : unit, ({| num := 7; den := 10 |}, w)) 500 1500 tt)
     ≤ 1500)%Z.
Proof.
  apply (randomDelay_within_bounds (λ w : unit, ({| num := 7; den := 10 |}, w))
           500 1500 tt); simpl; lia.
Defined.

End DelaySpec.

Module ProxySetSpec.
Import Proxy.

Lemma floor_scaled_index r (n : nat) :
  (num r < den r)%nat → (0 < n)%nat →
  (Z.to_nat (floor_scaled r (Z.of_nat n)) < n)%nat.
Proof.
  intros Hr Hn. unfold floor_scaled.
  assert (0 ≤ (Z.of_nat (num r) * Z.of_nat n) `div` Z.of_nat (den r) < Z.of_nat n)%Z.
  { split; [apply Z.div_pos; lia |]. apply Z.div_lt_upper_bound; [lia | nia]. }
  lia.
Qed.

Lemma getRandomProxy_in_list cfg r :
  (num r < den r)%nat →
  match getRandomProxy cfg r with
  | Some endpoint => use cfg = true ∧ endpoint ∈ proxyList cfg
  | None => use cfg = false ∨ proxyList cfg = []
  end.
Proof.
  intros Hr. unfold getRandomProxy.
  destruct (use cfg) eqn:Hu; simpl; [| by left].
  destruct (proxyList cfg) as [| p l] eqn:Hl; simpl; [by right |].
  pose proof (floor_scaled_index r (length (p :: l)) Hr ltac:(simpl; lia)) as Hlt.
  apply lookup_lt_is_Some in Hlt as [endpoint He].
  simpl length in He. rewrite He. split; [done |].
  by eapply list_elem_of_lookup_2.
Qed.

Lemma getNextProxy_in_list cfg idx :
  (idx < length (proxyList cfg))%nat ∨ proxyList cfg = [] →
  ((snd (getNextProxy cfg idx) < length (proxyList cfg))%nat ∨ proxyList cfg = []) ∧
  match fst (getNextProxy cfg idx) with
  | Some endpoint => use cfg = true ∧ endpoint ∈ proxyList cfg
  | None => use cfg = false ∨ proxyList cfg = []
  end.
Proof.
  intros Hidx. unfold getNextProxy.
  destruct (use cfg) eqn:Hu; simpl; [| split; [done | by left]].
  destruct (length (proxyList cfg) =? 0)%nat eqn:Hn; simpl.
  - apply Nat.eqb_eq, nil_length_inv in Hn. split; [by right | by right].
  - apply Nat.eqb_neq in Hn.
    destruct Hidx as [Hidx | Hnil]; [| by rewrite Hnil in Hn].
    split; [left; apply Nat.mod_upper_bound; lia |].
    apply lookup_lt_is_Some in Hidx as [endpoint He]. rewrite He.
    split; [done |]. by eapply list_elem_of_lookup_2.
Qed.

(** X2. [getProxy] only hands out configured endpoints: with the
    cursor inside the list (as it is at start) and whichever strategy
    is configured, the result is an element of [proxyList] when
    proxies are enabled and the list is not empty, and [null]
    otherwise; the cursor stays inside the list. *)
Theorem getProxy_picks_configured_endpoint cfg r idx :
  (num r < den r)%nat →
  (idx < length (proxyList cfg))%nat ∨ proxyList cfg = [] →
  ((snd (getProxy cfg r idx) < length (proxyList cfg))%nat ∨ proxyList cfg = []) ∧
  match fst (getProxy cfg r idx) with
  | Some endpoint => use cfg = true ∧ endpoint ∈ proxyList cfg
  | None => use cfg = false ∨ proxyList cfg = []
  end.
Proof.
  intros Hr Hidx. unfold getProxy.
  destruct (use cfg) eqn:Hu; simpl; [| split; [done | by left]].
  destruct (String.eqb (rotationStrategy cfg) "random"); simpl.
  - split; [done |]. pose proof (getRandomProxy_in_list cfg r Hr) as H.
    by rewrite Hu in H.
  - pose proof (getNextProxy_in_list cfg idx Hidx) as H. by rewrite Hu in H.
Qed.

Definition randomOfThree : ProxyConfig :=
  {| use := true;
     proxyList := ["http://p1:8080"; "http://p2:8080"; "http://p3:8080"];
     rotationStrategy := "random" |}.

Lemma getProxy_picks_configured_endpoint_witness :
  fst (getProxy randomOfThree {| num := 2; den := 3 |} 0) = Some "http://p3:8080" ∧
  "http://p3:8080" ∈ proxyList randomOfThree.
Proof.
  split; [reflexivity |].
  exact (proj2 (proj2 (getProxy_picks_configured_endpoint randomOfThree
                         {| num := 2; den := 3 |} 0
                         ltac:(simpl; lia) ltac:(left; simpl; lia)))).
Defined.

End ProxySetSpec.

Module RetryEdgeSpec.
Import Retry.

(** X3. An [onRetry] hook that throws ends [withRetry]: when the
    first attempt fails, retries are left and the hook throws, the
    operation is not called again and the hook's error is thrown in
    place of the operation's. *)
Theorem withRetry_hook_error_ends_retrying {W V : Type}
    (random : W → Random * W) (setTimeout : Z → W → W)
    (fn : W → result V * W) (options : Options W)
    (hook : JsError → Z → Z → W → result unit * W)
    (w w1 w3 : W) (e e' : JsError) :
  onRetry options = Some hook →
  (0 < RetrySpec.retries_of options)%Z →
  fn w = (Throw e, w1) →
  (let '(delay, w2) :=
     randomDelay random (default config_defaultDelay_min (minDelay options))
       (default config_defaultDelay_max (maxDelay options)) w1 in
   hook e 0%Z delay w2) = (Throw e', w3) →
  withRetry random setTimeout fn options w = (Thrown (Some e'), w3, [Throw e]).
Proof.
  intros Hhook Hpos Hfn Hthrow. unfold withRetry.
  unfold RetrySpec.retries_of in Hpos. rewrite Hhook. simpl default at 4.
  destruct (seqZ 0 (default config_maxRetries (retries options) + 1)) as [| a rest] eqn:Hseq.
  { apply (f_equal length) in Hseq. rewrite length_seqZ in Hseq. simpl in Hseq. lia. }
  assert (a = 0%Z) as ->.
  { assert (H : seqZ 0 (default config_maxRetries (retries options) + 1) !! 0%nat = Some a)
      by (by rewrite Hseq).
    apply lookup_seqZ in H. lia. }
  simpl. rewrite Hfn.
  replace (0 <? default config_maxRetries (retries options))%Z with true
    by (symmetry; apply Z.ltb_lt; lia).
  destruct (randomDelay random _ _ w1) as [delay w2]. by rewrite Hthrow.
Qed.

Definition impatient : Options nat :=
  {| retries := Some 2%Z; minDelay := Some 10%Z; maxDelay := Some 20%Z;
     onRetry := Some (λ _ _ _ w, (Throw (Error "hook failed"), w)) |}.

Lemma withRetry_hook_error_ends_retrying_witness :
  withRetry (λ w : nat, ({| num := 1; den := 2 |}, w)) (λ _ w, w)
    (RetrySpec.flaky 1) impatient 0%nat
  = (Thrown (Some (Error "hook failed")), 1%nat,
     [Throw (Error "navigation timeout")]).
Proof.
  apply (withRetry_hook_error_ends_retrying
           (λ w : nat, ({| num := 1; den := 2 |}, w)) (λ _ w, w)
           (RetrySpec.flaky 1) impatient
           (λ _ _ _ w, (Throw (Error "hook failed"), w)) 0%nat 1%nat 1%nat);
    [reflexivity | vm_compute; reflexivity | reflexivity | reflexivity].
Defined.

(** X4. With a negative retry count [withRetry] never calls the
    operation and throws [undefined] ([lastError] was never set). *)
Theorem withRetry_negative_retries {W V : Type}
    (random : W → Random * W) (setTimeout : Z → W → W)
    (fn : W → result V * W) (options : Options W) (w : W) :
  (RetrySpec.retries_of options < 0)%Z →
  withRetry random setTimeout fn options w = (Thrown None, w, []).
Proof.
  intros Hneg. unfold withRetry. unfold RetrySpec.retries_of in Hneg.
  assert (seqZ 0 (default config_maxRetries (retries options) + 1) = []) as ->; [| done].
  apply nil_length_inv. rewrite length_seqZ. lia.
Qed.

Definition noAttempt : Options nat :=
  {| retries := Some (-1)%Z; minDelay := None; maxDelay := None; onRetry := None |}.

Lemma withRetry_negative_retries_witness :
  withRetry (λ w : nat, ({| num := 1; den := 2 |}, w)) (λ _ w, w)
    (RetrySpec.flaky 0) noAttempt 0%nat = (Thrown None, 0%nat, []).
Proof.
  apply (withRetry_negative_retries
           (λ w : nat, ({| num := 1; den := 2 |}, w)) (λ _ w, w)
           (RetrySpec.flaky 0) noAttempt 0%nat).
  vm_compute. reflexivity.
Defined.

End RetryEdgeSpec.

Module SaveSpec.
Import Service BaseScraper StoreSpec.

(** The title kept as a sample for an inserted listing. *)
Definition sampleOf (job : Listing) : string :=
  (l_title job ++ " at " ++ l_company job)%string.

Lemma saveEach_appends self env jobs : ∀ i stats table,
  (length (sampleTitles stats) = newJobs stats `min` 5)%nat →
  ∃ kept,
    sublist kept jobs ∧
    snd (saveEach self env i jobs stats table) = table ++ map (newRow self) kept ∧
    total (fst (saveEach self env i jobs stats table)) = total stats ∧
    newJobs (fst (saveEach self env i jobs stats table)) =
      (newJobs stats + length kept)%nat ∧
    (duplicates (fst (saveEach self env i jobs stats table)) + length kept
       ≤ duplicates stats + length jobs)%nat ∧
    (length (sampleTitles (fst (saveEach self env i jobs stats table))) =
       (newJobs stats + length kept) `min` 5)%nat.
Proof.
  induction jobs as [| job rest IH]; intros i stats table Hs; simpl.
  - exists []. rewrite app_nil_r. simpl. split_and!; [done | done | done | lia | lia | lia].
  - assert (Hskip : ∃ kept,
      sublist kept (job :: rest) ∧
      snd (saveEach self env (S i) rest stats table) = table ++ map (newRow self) kept ∧
      total (fst (saveEach self env (S i) rest stats table)) = total stats ∧
      newJobs (fst (saveEach self env (S i) rest stats table)) =
        (newJobs stats + length kept)%nat ∧
      (duplicates (fst (saveEach self env (S i) rest stats table)) + length kept
         ≤ duplicates stats + S (length rest))%nat ∧
      (length (sampleTitles (fst (saveEach self env (S i) rest stats table))) =
         (newJobs stats + length kept) `min` 5)%nat).
    { destruct (IH (S i) stats table Hs) as (kept & Hsub & Ht & Htot & Hn & Hd & Hl).
      exists kept. split_and!; [by apply sublist_cons | done | done | done | lia | done]. }
    destruct (checkReply env i); [| done | done].
    destruct (0 <? length (Supabase.selectByUrl table (platform self) (l_url job)))%nat.
    + destruct (IH (S i) (countDuplicate stats) table Hs)
        as (kept & Hsub & Ht & Htot & Hn & Hd & Hl).
      exists kept. simpl in *.
      split_and!; [by apply sublist_cons | done | done | done | lia | done].
    + destruct (insertReply env i); [| done | done].
      destruct (IH (S i) (countNew job stats) (table ++ [newRow self job]))
        as (kept & Hsub & Ht & Htot & Hn & Hd & Hl).
      { simpl. destruct (length (sampleTitles stats) <? 5)%nat eqn:E.
        - apply Nat.ltb_lt in E. rewrite length_app. simpl. lia.
        - apply Nat.ltb_ge in E. lia. }
      exists (job :: kept). simpl in *.
      rewrite <- app_assoc in Ht. simpl in Ht.
      split_and!; [by apply sublist_skip | done | done | lia | lia | lia].
Qed.

(** X5. [saveJobsToDatabase] of the scraper base class always
    returns, and accounts for what it wrote: whatever the store
    answers, the table is the old one followed by one pending row per
    listing counted as new, these listings being taken in order from
    the listings given; [total] is the number of listings,
    [newJobs + duplicates] never exceeds it, and [sampleTitles] holds
    the first five new ones at most. *)
Theorem saveJobsToDatabase_accounts self env jobs table :
  ∃ stats kept,
    saveJobsToDatabase self env jobs table =
      (Ok stats, table ++ map (newRow self) kept) ∧
    sublist kept jobs ∧
    total stats = length jobs ∧
    newJobs stats = length kept ∧
    (newJobs stats + duplicates stats ≤ total stats)%nat ∧
    (length (sampleTitles stats) = newJobs stats `min` 5)%nat.
Proof.
  unfold saveJobsToDatabase.
  destruct (length jobs =? 0)%nat eqn:E.
  - exists {| total := length jobs; newJobs := 0; duplicates := 0; sampleTitles := [] |}, [].
    rewrite app_nil_r. simpl. split_and!; [done | apply sublist_nil_l | done | done | lia | done].
  - destruct (saveEach_appends self env jobs 0
                {| total := length jobs; newJobs := 0; duplicates := 0;
                   sampleTitles := [] |} table eq_refl)
      as (kept & Hsub & Ht & Htot & Hn & Hd & Hl).
    destruct (saveEach self env 0 jobs _ table) as [stats' table']. simpl in *.
    exists stats', kept. subst table'. split_and!; [done | done | done | done | lia | lia].
Qed.

Section Again.
Variable self : Scraper.






End Again.


End SaveSpec.

Module ScrapeFailureSpec.
Import Service BaseScraper.

Lemma saveJobsToDatabase_returns self env jobs table :
  ∃ stats, fst (saveJobsToDatabase self env jobs table) = Ok stats.
Proof.
  unfold saveJobsToDatabase. destruct (length jobs =? 0)%nat; [by eexists |].
  destruct (saveEach self env 0 jobs _ table). by eexists.
Qed.

(** Where the error behind a failed run comes from: the acquisition
    of the browser, the last attempt that [maxRetries] allows, or the
    pause between two attempts. *)
Definition thrownBy (self : Scraper) (env : Env) (w : World) (cause : JsError)
  : Prop :=
  fst (Browser.getBrowserForPlatform (platform self)
         {| Browser.proxy := None; Browser.useExisting := Some false |}
         (engine env) (pool w)) = Throw cause ∨
  (∃ k page, scrapeJobs env k page = Throw cause ∧
             (maxRetries self ≤ S k)%nat) ∨
  (∃ k, waitForTimeout env k = Throw cause).

Lemma attemptsMade_cause self env page : ∀ remaining retryCount e n,
  ScraperSpec.attemptsMade self env page remaining retryCount = (Throw e, n) →
  (∃ k, scrapeJobs env k page = Throw e ∧ (maxRetries self ≤ S k)%nat) ∨
  (∃ k, waitForTimeout env k = Throw e).
Proof.
  induction remaining as [| remaining IH]; intros retryCount e n; simpl; [done |].
  destruct (scrapeJobs env retryCount page) as [jobs | error] eqn:Hs; [done |].
  destruct (maxRetries self <=? S retryCount)%nat eqn:Hmax.
  - intros [= <- <-]. left. exists retryCount. split; [done |].
    by apply Nat.leb_le.
  - destruct (waitForTimeout env (S retryCount)) as [[] | e'] eqn:Hw.
    + destruct (ScraperSpec.attemptsMade self env page remaining (S retryCount))
        as [r m] eqn:Hrec.
      intros [= -> <-]. by apply (IH (S retryCount) e m).
    + intros [= <- <-]. right. by exists (S retryCount).
Qed.

(** X7. A [scrape] that throws has written nothing to the store,
    and its error is one of two: the plain [Error] for missing
    keywords, thrown before anything is touched, or a [PlatformError]
    of the scraper's platform built from the error of the acquisition,
    of the last attempt or of a pause, whose message reads
    [<platform>: Scraping failed: <message of that error>]. *)
Theorem scrape_failure_is_tagged self cfg options env w e s' :
  scrape self cfg options env (noFrame, w) = (Throw e, s') →
  jobsTable (snd s') = jobsTable w ∧
  ((truthy (keywords options) = false ∧ e = Error "Keywords are required" ∧
    s' = (noFrame, w)) ∨
   (truthy (keywords options) = true ∧
    ∃ cause,
      thrownBy self env w cause ∧
      e = PlatformError (platform self) ("Scraping failed: " ++ message cause) ∧
      message e =
        (platform self ++ ": Scraping failed: " ++ message cause)%string)).
Proof.
  destruct (truthy (keywords options)) eqn:Hk.
  - rewrite (ScraperSpec.scrape_run self cfg options env w Hk).
    destruct (Proxy.getProxy cfg (random env) (currentProxyIndex w)) as [proxy idx].
    rewrite (ScraperSpec.acquire_proxy_irrelevant _ proxy None).
    destruct (Browser.getBrowserForPlatform _ _ _ _) as [[session | e0] pw] eqn:Hacq.
    2:{ intros [= <- <-]. split; [done |]. right. split; [done |].
        exists e0. split; [| done]. left. unfold thrownBy. by rewrite Hacq. }
    destruct (ScraperSpec.attemptsMade self env _ _ _) as [[jobs | e1] n] eqn:Hrun.
    2:{ intros [= <- <-]. split; [done |]. right. split; [done |].
        exists e1. split; [| done]. right.
        destruct (attemptsMade_cause _ _ _ _ _ _ _ Hrun) as [(k & Hs & Hmax) | Hw].
        - left. by exists k, (Browser.s_page session).
        - by right. }
    destruct (saveJobsToDatabase_returns self env jobs (jobsTable w)) as [st Hst].
    destruct (saveJobsToDatabase self env jobs (jobsTable w)) as [rs t].
    simpl in Hst. subst rs. done.
  - unfold scrape. rewrite Hk. simpl. intros [= <- <-]. split; [done |]. by left.
Qed.

(** The engine cannot launch a process. *)
Definition noLaunch : Env :=
  {| random := {| num := 0; den := 1 |};
     engine := {| Browser.launch := Throw (BrowserError "Executable not found");
                  Browser.newContext := Ok tt; Browser.newPage := Ok tt;
                  Browser.now := 1000 |};
     scrapeJobs := λ _ _, Ok [];
     waitForTimeout := λ _, Ok tt;
     checkReply := λ _, Supabase.Resolved;
     insertReply := λ _, Supabase.Resolved;
     startTime := 0; endTime := 5 |}.

Lemma scrape_failure_is_tagged_witness :
  jobsTable (snd (snd (scrape (new "indeed") ScraperSpec.noProxies
                         ScraperSpec.backendEngineer noLaunch
                         (noFrame, ScraperSpec.storeWith ScraperSpec.oneStored))))
    = ScraperSpec.oneStored ∧
  ∃ cause,
    thrownBy (new "indeed") noLaunch
      (ScraperSpec.storeWith ScraperSpec.oneStored) cause ∧
    message (PlatformError "indeed" "Scraping failed: Executable not found")
      = ("indeed: Scraping failed: " ++ message cause)%string.
Proof.
  destruct (scrape_failure_is_tagged (new "indeed") ScraperSpec.noProxies
              ScraperSpec.backendEngineer noLaunch
              (ScraperSpec.storeWith ScraperSpec.oneStored)
              (PlatformError "indeed" "Scraping failed: Executable not found")
              _ eq_refl)
    as [Htable [(Hk & _) | (_ & cause & Hby & _ & Hmsg)]].
  - discriminate Hk.
  - split; [exact Htable |]. exists cause. split; [exact Hby | exact Hmsg].
Defined.

End ScrapeFailureSpec.

Module ApplyOutcomeSpec.
Import Service ApplicationService.

(** The error a call of [applyToJob] ends with: the one of the two
    checks of the job, the store's when it refuses a status update,
    and otherwise the [TypeError] of the call of [createApplication]
    in the [finally] block. *)
Definition rejection (job : Job) (env : Env) : JsError :=
  if negb (truthy (url job)) then
    ApplicationError (id job) "Missing job URL"
  else if negb (truthy (platformOf env job)) then
    ApplicationError (id job) "Failed to detect platform from URL"
  else
    match updateInProgress env, updateFinal env with
    | Throw e, _ => e
    | Ok _, Throw e => e
    | Ok _, Ok _ => notAFunction "createApplication"
    end.

(** X8. As the files are laid out no call of [applyToJob] returns:
    [./supabase.service] exports no [createApplication] and
    [./browser.service] no [takeScreenshot], so a call that passes the
    two checks of the job and the first status update always reaches
    the [finally] block with status ["failed"] and is rejected there,
    with the store's error or with the [TypeError] of
    [createApplication], whatever the browser and the adapter did. *)
Theorem applyToJob_never_returns cfg job env w :
  ∃ s',
    applyToJob cfg job env (noFrame, w) = (Throw (rejection job env), s') ∧
    status (fst s') = "failed".
Proof.
  unfold rejection, applyToJob.
  destruct (negb (truthy (url job))); [by eexists |].
  destruct (negb (truthy (platformOf env job))); [by eexists |].
  unfold tryFinally, tryCatch, mbind, M_bind, await, callPool, getProxy,
    locals, assign, onPool, modify, mret, M_ret, takeScreenshot,
    createApplication, updateApplicationStats, throw.
  destruct (updateInProgress env) as [[] | e]; [| by eexists].
  simpl.
  destruct (getPlatformInstance (default "" (platformOf env job))) as [inst | e0];
    simpl.
  2:{ destruct (updateFinal env) as [[] | e]; by eexists. }
  destruct (Proxy.getProxy cfg (random env) (currentProxyIndex w)) as [proxy idx].
  simpl.
  destruct (Browser.getBrowserForPlatform _ _ (engine env) (pool w))
    as [[session | e1] pw]; simpl.
  2:{ destruct (updateFinal env) as [[] | e]; by eexists. }
  destruct (login env) as [ok | e2]; simpl.
  2:{ destruct (updateFinal env) as [[] | e]; by eexists. }
  destruct (goto env) as [[] | e3]; simpl.
  2:{ destruct (updateFinal env) as [[] | e]; by eexists. }
  destruct (adapterApply env) as [applied | e4]; simpl;
    destruct (updateFinal env) as [[] | e]; by eexists.
Qed.

Example applyToJob_records_the_adapter_error :
  let s' := snd (applyToJob ScraperSpec.noProxies
                   (ApplicationSpec.job "j2" "https://www.linkedin.com/jobs/view/2")
                   ApplicationSpec.noApplyButton
                   (noFrame, ApplicationSpec.coldStart)) in
  errorMessage (fst s') =
    Some "linkedin: Application failed: linkedin: Apply button not found".
Proof. reflexivity. Qed.

End ApplyOutcomeSpec.

Module ShutdownSpec.
Import Browser BrowserShutdown.

(** Every entry of the map names a launched process whose handler
    captured the entry's key. *)
Definition keyed (w : World) : Prop :=
  ∀ k e, browsers w !! k = Some e →
         ∃ p, processes w !! browser e = Some p ∧ handlerKey p = k.

Lemma keyed_empty : keyed empty.
Proof. intros k e H. done. Qed.

Lemma openPage_keyed b env w : keyed w → keyed (snd (openPage b env w)).
Proof.
  intros Hk k e. destruct (PoolSpec.openPage_keeps b env w) as [-> ->]. apply Hk.
Qed.

Lemma evict_keyed key w : keyed w → keyed (evict key w).
Proof.
  intros Hk k e. simpl. intros H.
  apply lookup_delete_Some in H as [_ H]. by apply Hk.
Qed.

Lemma create_keyed key env w : keyed w → keyed (snd (create key env w)).
Proof.
  intros Hk. unfold create. destruct (launch env); [| done].
  set (w1 := log _ _).
  assert (Hk1 : keyed w1).
  { intros k e H. simpl in H. destruct (Hk _ _ H) as (p & Hp & Hkey).
    exists p. split; [| done]. simpl. by apply lookup_app_l_Some. }
  pose proof (openPage_keyed (length (processes w)) env w1 Hk1) as Hk2.
  destruct (PoolSpec.openPage_keeps (length (processes w)) env w1) as [Hb Hp].
  destruct (openPage (length (processes w)) env w1) as [[session | e] w2];
    [| done].
  simpl in *. intros k e. simpl.
  destruct (decide (k = key)) as [-> | Hne].
  - rewrite lookup_insert_eq. intros [= <-]. simpl.
    eexists. rewrite Hp. split.
    + subst w1. simpl. by rewrite lookup_app_r, Nat.sub_diag by lia.
    + done.
  - rewrite lookup_insert_ne by done. apply Hk2.
Qed.

Lemma disconnect_keyed b w : keyed w → keyed (disconnect b w).
Proof.
  intros Hk. unfold disconnect.
  destruct (processes w !! b) as [p |] eqn:Hb; [| done].
  destruct (connected p); [| done].
  set (w1 := log _ _).
  assert (Hk1 : keyed w1).
  { intros k e H. simpl in H. destruct (Hk _ _ H) as (q & Hq & Hkey).
    simpl. destruct (decide (browser e = b)) as [Heq | Hne].
    - rewrite Heq in *. rewrite list_lookup_insert_eq by (by eapply lookup_lt_Some).
      eexists. split; [done |]. simpl. congruence.
    - rewrite list_lookup_insert_ne by done. eauto. }
  destruct (browsers w1 !! handlerKey p); [by apply evict_keyed | done].
Qed.

Lemma step_keyed w op : keyed w → keyed (step w op).
Proof.
  destruct op as [platform options env | b]; simpl; [| apply disconnect_keyed].
  intros Hk. unfold getBrowserForPlatform.
  destruct (if default true (useExisting options) then _ else _) as [entry |].
  - destruct (isConnected w (browser entry)).
    + by apply openPage_keyed.
    + by apply create_keyed, evict_keyed.
  - by apply create_keyed.
Qed.

Lemma run_keyed ops : ∀ w, keyed w → keyed (run ops w).
Proof.
  unfold run. induction ops as [| op ops IH]; intros w Hk; simpl; [done |].
  by apply IH, step_keyed.
Qed.

Lemma disconnect_isConnected b w b' :
  isConnected (disconnect b w) b' = isConnected w b' && negb (b' =? b)%nat.
Proof.
  unfold disconnect, isConnected.
  destruct (processes w !! b) as [p |] eqn:Hb.
  - destruct (connected p) eqn:Hc.
    + assert (Hsame : processes
          (match browsers (log (Disconnected b)
                    (setProcesses (<[b := {| handlerKey := handlerKey p;
                                             connected := false |}]> (processes w)) w))
                   !! handlerKey p with
           | Some _ => evict (handlerKey p)
                         (log (Disconnected b)
                            (setProcesses (<[b := {| handlerKey := handlerKey p;
                                                     connected := false |}]>
                                             (processes w)) w))
           | None => log (Disconnected b)
                       (setProcesses (<[b := {| handlerKey := handlerKey p;
                                                connected := false |}]>
                                        (processes w)) w)
           end) = <[b := {| handlerKey := handlerKey p; connected := false |}]>
                    (processes w)).
      { by destruct (browsers _ !! handlerKey p). }
      rewrite Hsame. destruct (Nat.eqb_spec b' b) as [-> | Hne].
      * rewrite list_lookup_insert_eq by (by eapply lookup_lt_Some).
        simpl. by rewrite andb_false_r.
      * rewrite list_lookup_insert_ne by done. by rewrite andb_true_r.
    + destruct (Nat.eqb_spec b' b) as [-> | Hne].
      * rewrite Hb, Hc. done.
      * by rewrite andb_true_r.
  - destruct (Nat.eqb_spec b' b) as [-> | Hne].
    + by rewrite Hb.
    + by rewrite andb_true_r.
Qed.

Lemma disconnect_cleared b w : browsers w = ∅ → browsers (disconnect b w) = ∅.
Proof.
  intros He. unfold disconnect.
  destruct (processes w !! b) as [p |]; [| done].
  destruct (connected p); [| done]. simpl. by rewrite He, lookup_empty.
Qed.

Lemma startClosing_spec entries : ∀ w,
  browsers (snd (startClosing entries w)) = browsers w ∧
  processes (snd (startClosing entries w)) = processes w ∧
  fst (startClosing entries w) =
    map (λ kv, browser (snd kv))
      (List.filter (λ kv, isConnected w (browser (snd kv))) entries).
Proof.
  induction entries as [| [k e] rest IH]; intros w; simpl; [done |].
  destruct (isConnected w (browser e)) eqn:Hc.
  - destruct (IH (log (CloseBrowser (browser e)) w)) as (Hb & Hp & Hl).
    destruct (startClosing rest _) as [closing w']. simpl in *.
    split_and!; [done | done |]. by rewrite Hl.
  - apply IH.
Qed.

Lemma closing_all close (closing : list nat) : ∀ w,
  browsers w = ∅ →
  browsers (foldl (settleClose close) w closing) = ∅ ∧
  ∀ b, isConnected (foldl (settleClose close) w closing) b =
         isConnected w b &&
         negb (bool_decide (b ∈ closing) && is_ok (close b)).
Proof.
  induction closing as [| c closing IH]; intros w He; simpl.
  - split; [done |]. intros b. by rewrite andb_true_r.
  - assert (He1 : browsers (settleClose close w c) = ∅).
    { unfold settleClose. destruct (close c); [by apply disconnect_cleared | done]. }
    destruct (IH (settleClose close w c) He1) as [Hb Hc].
    split; [done |]. intros b. rewrite Hc.
    assert (Hstep : isConnected (settleClose close w c) b =
                    isConnected w b && negb ((b =? c)%nat && is_ok (close c))).
    { unfold settleClose. destruct (close c) as [[] | e]; simpl.
      - by rewrite disconnect_isConnected, andb_true_r.
      - by rewrite andb_false_r, andb_true_r. }
    rewrite Hstep, <- andb_assoc. f_equal. clear Hstep.
    destruct (b =? c)%nat eqn:Hbc; simpl.
    + apply Nat.eqb_eq in Hbc. subst c.
      rewrite (bool_decide_eq_true_2 (b ∈ b :: closing)) by (by left). simpl.
      destruct (is_ok (close b)); simpl; [done |]. by rewrite andb_false_r.
    + apply Nat.eqb_neq in Hbc.
      f_equal. f_equal. apply bool_decide_ext. rewrite elem_of_cons.
      split; [by right | by intros [? | ?]].
Qed.

(** The processes on which [closeAllBrowsers] calls [close]. *)
Definition closingOf (entries : list (string * PoolEntry)) (w : World) : list nat :=
  map (λ kv, browser (snd kv))
    (List.filter (λ kv, isConnected w (browser (snd kv))) entries).

Lemma closeAllBrowsers_connected close entries w :
  browsers (closeAllBrowsers close entries w) = ∅ ∧
  ∀ b, isConnected (closeAllBrowsers close entries w) b =
         isConnected w b &&
         negb (bool_decide (b ∈ closingOf entries w) && is_ok (close b)).
Proof.
  unfold closeAllBrowsers, closingOf.
  destruct (startClosing_spec entries w) as (Hb & Hp & Hl).
  destruct (startClosing entries w) as [closing w1]. simpl in *.
  destruct (closing_all close closing (setBrowsers ∅ w1) eq_refl) as [He Hc].
  split; [done |]. intros b. rewrite Hc, <- Hl.
  assert (Hsame : ∀ m, isConnected (setBrowsers m w1) b = isConnected w b)
    by (intros m; unfold isConnected; simpl; by rewrite Hp).
  by rewrite Hsame.
Qed.

Lemma closingOf_tracked entries w b :
  entries ≡ₚ map_to_list (browsers w) →
  isConnected w b = true →
  b ∈ closingOf entries w ↔ ∃ k e, browsers w !! k = Some e ∧ browser e = b.
Proof.
  intros Hperm Hconn. unfold closingOf. split.
  - intros Hin.
    apply list_elem_of_In, in_map_iff in Hin as ([k e] & Heq & Hin).
    apply filter_In in Hin as [Hin _]. apply list_elem_of_In in Hin.
    rewrite Hperm in Hin. apply elem_of_map_to_list in Hin. by exists k, e.
  - intros (k & e & Hke & <-).
    apply list_elem_of_In, in_map_iff. exists (k, e). split; [done |].
    apply filter_In. split; [| done].
    apply list_elem_of_In. rewrite Hperm. by apply elem_of_map_to_list.
Qed.

(** X9. [closeAllBrowsers] empties the map and calls [close] on
    exactly the connected processes the map tracks. Afterwards a
    process is connected if and only if it was connected and either
    no entry of the map named it or its [close] was rejected: the
    rejection is swallowed and nothing tracks that process any more. *)
Theorem closeAllBrowsers_closes_what_is_tracked close entries w :
  entries ≡ₚ map_to_list (browsers w) →
  browsers (closeAllBrowsers close entries w) = ∅ ∧
  ∀ b, isConnected (closeAllBrowsers close entries w) b = true ↔
       isConnected w b = true ∧
       ((∀ k e, browsers w !! k = Some e → browser e ≠ b) ∨
        is_ok (close b) = false).
Proof.
  intros Hperm.
  destruct (closeAllBrowsers_connected close entries w) as [He Hc].
  split; [done |]. intros b. rewrite Hc.
  rewrite andb_true_iff, negb_true_iff, andb_false_iff, bool_decide_eq_false.
  split; intros [Hconn Hnot]; (split; [done |]).
  - destruct Hnot as [Hnot | Hrej]; [left | by right].
    intros k e Hke Hb. apply Hnot.
    apply (closingOf_tracked entries w b Hperm Hconn). by exists k, e.
  - destruct Hnot as [Hnot | Hrej]; [left | by right].
    intros Hin.
    apply (closingOf_tracked entries w b Hperm Hconn) in Hin
      as (k & e & Hke & Hb).
    by apply (Hnot k e).
Qed.

(** The process of handle 2 refuses to close. *)
Definition stubborn (b : nat) : result unit :=
  if (b =? 2)%nat then Throw (Error "Target closed") else Ok tt.

Lemma closeAllBrowsers_closes_what_is_tracked_witness :
  let w := run [Acquire "linkedin" PoolSpec.noReuse PoolSpec.engine_ok;
                Acquire "linkedin" PoolSpec.noReuse PoolSpec.engine_ok;
                Acquire "indeed" PoolSpec.reuse PoolSpec.engine_ok] empty in
  let w' := closeAllBrowsers stubborn (map_to_list (browsers w)) w in
  browsers w' = ∅ ∧
  map (isConnected w') [0; 1; 2] = [true; false; true].
Proof.
  split.
  - apply (closeAllBrowsers_closes_what_is_tracked stubborn _ _ (reflexivity _)).
  - vm_compute. reflexivity.
Defined.

(** X10. After a history of reuse-enabled acquisitions and
    disconnections from the empty pool, a [closeAllBrowsers] whose
    closings all resolve leaves no process running. *)
Theorem shutdown_after_reuse_leaves_nothing close ops entries :
  Forall PoolSpec.reusing ops →
  entries ≡ₚ map_to_list (browsers (run ops empty)) →
  (∀ b, close b = Ok tt) →
  ∀ b, isConnected (closeAllBrowsers close entries (run ops empty)) b = false.
Proof.
  intros Hops Hperm Hclose b.
  pose proof (PoolSpec.run_tracked ops empty Hops PoolSpec.tracked_empty) as Htr.
  destruct (closeAllBrowsers_connected close entries (run ops empty)) as [_ Hc].
  rewrite Hc, Hclose. simpl. rewrite andb_true_r.
  destruct (isConnected (run ops empty) b) eqn:Hconn; [| done]. simpl.
  apply negb_false_iff, bool_decide_eq_true.
  apply (closingOf_tracked entries (run ops empty) b Hperm Hconn).
  pose proof Hconn as Hlive. unfold isConnected in Hlive.
  destruct (processes (run ops empty) !! b) as [p |] eqn:Hb; [| done].
  destruct (Htr _ _ Hb Hlive) as [t Ht].
  by exists (handlerKey p), {| browser := b; lastUsed := t |}.
Qed.

Lemma shutdown_after_reuse_leaves_nothing_witness :
  let w := run [Acquire "linkedin" PoolSpec.reuse PoolSpec.engine_ok;
                Acquire "indeed" PoolSpec.reuse PoolSpec.engine_ok;
                Disconnect 0;
                Acquire "linkedin" PoolSpec.reuse PoolSpec.engine_ok] empty in
  isConnected (closeAllBrowsers (λ _, Ok tt) (map_to_list (browsers w)) w) 1
    = false ∧
  isConnected (closeAllBrowsers (λ _, Ok tt) (map_to_list (browsers w)) w) 2
    = false.
Proof.
  split; apply shutdown_after_reuse_leaves_nothing;
    first [ reflexivity | repeat constructor; discriminate ].
Defined.

(** An entry older than the threshold at time [now]. *)
Definition idle (now : Z) (e : PoolEntry) : bool :=
  (inactiveThreshold <? now - lastUsed e)%Z.

Section Sweep.
Variable close : nat → result unit.
Variable now : Z.
Hypothesis closes : ∀ b, close b = Ok tt.

Lemma cleanupEach_cons k rest w :
  cleanupEach close now (k :: rest) w =
    cleanupEach close now rest (cleanupEach close now [k] w).
Proof.
  simpl. destruct (browsers w !! k) as [e |]; [| done].
  destruct (inactiveThreshold <? now - lastUsed e)%Z; [| done].
  destruct (isConnected w (browser e)); [| done].
  by destruct (close (browser e)).
Qed.

Lemma disconnect_browsers b w p :
  processes w !! b = Some p → connected p = true →
  browsers (disconnect b w) = delete (handlerKey p) (browsers w).
Proof.
  intros Hb Hc. unfold disconnect. rewrite Hb, Hc. simpl.
  destruct (browsers w !! handlerKey p) eqn:E; simpl; [done |].
  by rewrite delete_id.
Qed.

Lemma visit_spec k w :
  keyed w →
  keyed (cleanupEach close now [k] w) ∧
  browsers (cleanupEach close now [k] w) =
    match browsers w !! k with
    | Some e => if idle now e then delete k (browsers w) else browsers w
    | None => browsers w
    end ∧
  ∀ b, isConnected (cleanupEach close now [k] w) b =
         isConnected w b &&
         negb match browsers w !! k with
              | Some e => idle now e && (b =? browser e)%nat
              | None => false
              end.
Proof using closes.
  intros Hk. simpl. unfold idle.
  destruct (browsers w !! k) as [e |] eqn:He.
  2:{ split_and!; [done | done |]. intros b. by rewrite andb_true_r. }
  destruct (inactiveThreshold <? now - lastUsed e)%Z.
  2:{ split_and!; [done | done |]. intros b. by rewrite andb_true_r. }
  destruct (isConnected w (browser e)) eqn:Hconn.
  - rewrite closes. unfold closeBrowser.
    destruct (Hk _ _ He) as (p & Hp & Hkey).
    assert (Hc : connected p = true)
      by (unfold isConnected in Hconn; by rewrite Hp in Hconn).
    split_and!.
    + apply evict_keyed, disconnect_keyed. intros k0 e0. apply Hk.
    + simpl.
      rewrite (disconnect_browsers (browser e) (log (CloseBrowser (browser e)) w) p Hp Hc).
      simpl. by rewrite Hkey, delete_delete_eq.
    + intros b. simpl.
      assert (Hsame : ∀ m w0, isConnected (setBrowsers m w0) b = isConnected w0 b)
        by done.
      unfold evict.
      change (isConnected (log (Evict k) ?w0) b) with (isConnected w0 b).
      by rewrite Hsame, disconnect_isConnected.
  - split_and!; [by apply evict_keyed | done |].
    intros b. simpl.
    change (isConnected (evict k w) b) with (isConnected w b).
    destruct (Nat.eqb_spec b (browser e)) as [-> | Hne]; simpl.
    + by rewrite Hconn.
    + by rewrite andb_true_r.
Qed.

Lemma cleanupEach_spec keys : ∀ w,
  keyed w →
  keyed (cleanupEach close now keys w) ∧
  (∀ k, browsers (cleanupEach close now keys w) !! k =
          match browsers w !! k with
          | Some e => if idle now e && bool_decide (k ∈ keys) then None else Some e
          | None => None
          end) ∧
  (∀ b, isConnected (cleanupEach close now keys w) b = true ↔
        isConnected w b = true ∧
        ∀ k e, k ∈ keys → browsers w !! k = Some e → idle now e = true →
               browser e ≠ b).
Proof using closes.
  induction keys as [| k rest IH]; intros w Hk.
  - simpl. split_and!; [done | |].
    + intros k. destruct (browsers w !! k) as [e |]; [| done].
      by rewrite andb_false_r.
    + intros b. split; [| by intros [? _]]. intros Hc. split; [done |].
      intros k e Hin. by apply elem_of_nil in Hin.
  - rewrite cleanupEach_cons.
    destruct (visit_spec k w Hk) as (Hk1 & Hb1 & Hc1).
    destruct (IH _ Hk1) as (Hk' & Hb' & Hc').
    split_and!; [done | |].
    + intros k0. rewrite Hb', Hb1.
      destruct (decide (k0 = k)) as [-> | Hne].
      * destruct (browsers w !! k) as [e |] eqn:He; [| by rewrite He].
        destruct (idle now e) eqn:Hi.
        -- rewrite lookup_delete_eq. simpl.
           rewrite bool_decide_eq_true_2; [done | by left].
        -- rewrite He, Hi. done.
      * assert (bool_decide (k0 ∈ k :: rest) = bool_decide (k0 ∈ rest)) as ->.
        { apply bool_decide_ext. rewrite elem_of_cons.
          split; [by intros [? | ?] | by right]. }
        destruct (browsers w !! k) as [e |] eqn:He; [| done].
        destruct (idle now e); [| done]. by rewrite lookup_delete_ne.
    + intros b. rewrite Hc', Hc1, andb_true_iff, negb_true_iff.
      split.
      * intros [[Hconn Hnot] Hrest]. split; [done |].
        intros k0 e0 Hin He0 Hi0 Heq.
        destruct (decide (k0 = k)) as [-> | Hne].
        -- rewrite He0, Hi0 in Hnot. simpl in Hnot.
           apply Nat.eqb_neq in Hnot. congruence.
        -- apply elem_of_cons in Hin as [? | Hin]; [done |].
           apply (Hrest k0 e0 Hin); [| done | done].
           rewrite Hb1. destruct (browsers w !! k) as [e |]; [| done].
           destruct (idle now e); [| done]. by rewrite lookup_delete_ne.
      * intros [Hconn Hall]. split; [split; [done |] |].
        -- destruct (browsers w !! k) as [e |] eqn:He; [| done].
           destruct (idle now e) eqn:Hi; [| done]. simpl.
           apply Nat.eqb_neq. intros Heq.
           apply (Hall k e); [by left | done | done | done].
        -- intros k0 e0 Hin He0 Hi0. apply (Hall k0 e0); [by right | | done].
           rewrite Hb1 in He0. destruct (browsers w !! k) as [e |]; [| done].
           destruct (idle now e); [| done].
           by apply lookup_delete_Some in He0 as [_ ?].
Qed.
End Sweep.

(** X11. The idle sweep evicts by launch time only: when every
    [close] resolves, the entries older than thirty minutes are
    deleted and the others kept as they are, and a process is still
    connected afterwards if and only if it was connected and no such
    old entry named it. *)
Theorem cleanupBrowsers_evicts_idle close now keys w :
  keyed w →
  (∀ b, close b = Ok tt) →
  (∀ k, is_Some (browsers w !! k) → k ∈ keys) →
  keyed (cleanupBrowsers close now keys w) ∧
  (∀ k e, browsers (cleanupBrowsers close now keys w) !! k = Some e ↔
          browsers w !! k = Some e ∧ (now - lastUsed e ≤ inactiveThreshold)%Z) ∧
  (∀ b, isConnected (cleanupBrowsers close now keys w) b = true ↔
        isConnected w b = true ∧
        ∀ k e, browsers w !! k = Some e →
               (inactiveThreshold < now - lastUsed e)%Z → browser e ≠ b).
Proof.
  intros Hk Hclose Hkeys. unfold cleanupBrowsers.
  destruct (cleanupEach_spec close now Hclose keys w Hk) as (Hk' & Hb & Hc).
  split_and!; [done | |].
  - intros k e. rewrite Hb.
    destruct (browsers w !! k) as [e0 |] eqn:He0.
    2:{ split; [done | by intros [? _]]. }
    rewrite bool_decide_eq_true_2, andb_true_r by (apply Hkeys; by rewrite He0).
    unfold idle. destruct (Z.ltb_spec inactiveThreshold (now - lastUsed e0)).
    + split; [done |]. intros [[= ->] ?]. lia.
    + split; [intros [= ->]; split; [done | lia] | by intros [? _]].
  - intros b. rewrite Hc. split; intros [Hconn Hall]; (split; [done |]).
    + intros k e He Hi. apply (Hall k e); [apply Hkeys; by rewrite He | done |].
      by apply Z.ltb_lt.
    + intros k e _ He Hi. apply (Hall k e He). by apply Z.ltb_lt in Hi.
Qed.

Lemma keys_listed (w : World) k :
  is_Some (browsers w !! k) → k ∈ (map_to_list (browsers w)).*1.
Proof.
  intros [e He]. apply list_elem_of_fmap. exists (k, e). split; [done |].
  by apply elem_of_map_to_list.
Qed.

(** Two processes launched half an hour apart. *)
Definition launchedAt (t : Z) : Engine :=
  {| launch := Ok tt; newContext := Ok tt; newPage := Ok tt; now := t |}.

Definition twoTracked : World :=
  run [Acquire "linkedin" PoolSpec.reuse (launchedAt 0);
       Acquire "indeed" PoolSpec.reuse (launchedAt 1800000)] empty.

Lemma cleanupBrowsers_evicts_idle_witness :
  let w' := cleanupBrowsers (λ _, Ok tt) 1800001
              (map_to_list (browsers twoTracked)).*1 twoTracked in
  (∀ e, browsers w' !! "linkedin" = Some e ↔
        browsers twoTracked !! "linkedin" = Some e ∧
        (1800001 - lastUsed e ≤ inactiveThreshold)%Z) ∧
  map (isConnected w') [0; 1] = [false; true].
Proof.
  split.
  - intros e.
    apply (proj1 (proj2 (cleanupBrowsers_evicts_idle (λ _, Ok tt) 1800001
                           (map_to_list (browsers twoTracked)).*1 twoTracked
                           (run_keyed _ _ keyed_empty) (λ _, eq_refl)
                           (keys_listed twoTracked)))).
  - vm_compute. reflexivity.
Defined.

(** X12. Reuse does not keep a process alive: an acquisition that
    reuses the tracked process leaves its [lastUsed] as it was at
    launch, so a sweep that runs more than thirty minutes after the
    launch closes the process, however recently it was handed out. *)
Theorem sweep_closes_a_reused_process w platform options env entry close now keys :
  keyed w →
  useExisting options ≠ Some false →
  browsers w !! toLowerCase platform = Some entry →
  isConnected w (browser entry) = true →
  newContext env = Ok tt → newPage env = Ok tt →
  (∀ b, close b = Ok tt) →
  (inactiveThreshold < now - lastUsed entry)%Z →
  (∀ k, is_Some (browsers w !! k) → k ∈ keys) →
  ∃ session w1,
    getBrowserForPlatform platform options env w = (Ok session, w1) ∧
    s_browser session = browser entry ∧
    browsers w1 = browsers w ∧
    isConnected (cleanupBrowsers close now keys w1) (browser entry) = false.
Proof.
  intros Hk Hreuse Hentry Hconn Hc Hp Hclose Hidle Hkeys.
  destruct (PoolSpec.acquire_reuses w platform options env entry
              Hreuse Hentry Hconn Hc Hp) as (c & p & w1 & Hrun & Hb & Hps).
  eexists _, w1. split; [exact Hrun |]. split; [done |]. split; [done |].
  assert (Hk1 : keyed w1).
  { pose proof (step_keyed w (Acquire platform options env) Hk) as H.
    simpl in H. by rewrite Hrun in H. }
  assert (Hkeys1 : ∀ k, is_Some (browsers w1 !! k) → k ∈ keys)
    by (by rewrite Hb).
  destruct (cleanupEach_spec close now Hclose keys w1 Hk1) as (_ & _ & Hlive).
  apply not_true_is_false. intros Hstill.
  apply Hlive in Hstill as [_ Hnot].
  apply (Hnot (toLowerCase platform) entry); [| by rewrite Hb | | done].
  - apply Hkeys1. by rewrite Hb, Hentry.
  - unfold idle. by apply Z.ltb_lt.
Qed.

Lemma sweep_closes_a_reused_process_witness :
  ∃ session w1,
    getBrowserForPlatform "LinkedIn" PoolSpec.reuse (launchedAt 1800000)
      twoTracked = (Ok session, w1) ∧
    s_browser session = 0%nat ∧
    browsers w1 = browsers twoTracked ∧
    isConnected (cleanupBrowsers (λ _, Ok tt) 1800001
                   (map_to_list (browsers twoTracked)).*1 w1) 0 = false.
Proof.
  apply (sweep_closes_a_reused_process twoTracked "LinkedIn" PoolSpec.reuse
           (launchedAt 1800000) {| browser := 0; lastUsed := 0 |}
           (λ _, Ok tt) 1800001 (map_to_list (browsers twoTracked)).*1).
  - apply run_keyed, keyed_empty.
  - discriminate.
  - vm_compute. reflexivity.
  - vm_compute. reflexivity.
  - reflexivity.
  - reflexivity.
  - reflexivity.
  - vm_compute. reflexivity.
  - apply keys_listed.
Defined.

Lemma openPage_throws b env w e w' :
  openPage b env w = (Throw e, w') →
  (newContext env = Throw e ∨ newPage env = Throw e) ∧
  browsers w' = browsers w ∧ processes w' = processes w.
Proof.
  unfold openPage. destruct (newContext env) as [[] | e0] eqn:Hc.
  - simpl. destruct (newPage env) as [[] | e1] eqn:Hp; [done |].
    intros [= <- <-]. split; [by right | done].
  - intros [= <- <-]. split; [by left | done].
Qed.

Lemma create_throws key env w e w' :
  create key env w = (Throw e, w') →
  (launch env = Throw e ∨ newContext env = Throw e ∨ newPage env = Throw e) ∧
  browsers w' = browsers w ∧
  (processes w' = processes w ∨
   (launch env = Ok tt ∧
    processes w' = processes w ++ [{| handlerKey := key; connected := true |}])).
Proof.
  unfold create. destruct (launch env) as [[] | e0] eqn:Hl.
  2:{ intros [= <- <-]. split; [by left |]. split; [done | by left]. }
  destruct (openPage _ env _) as [[session | e1] w2] eqn:Hopen; [done |].
  intros [= <- <-]. apply openPage_throws in Hopen as (Hwhy & Hb & Hp).
  split; [by right |]. split; [done |]. right. by split.
Qed.

(** X13. An acquisition that fails registers nothing: the error
    thrown is the engine's own (of the launch, of the new context or
    of the new page), the map gains no entry, and a process that was
    launched before the failure stays connected without being
    tracked. *)
Theorem failed_acquisition_registers_nothing platform options env w e w' :
  keyed w →
  getBrowserForPlatform platform options env w = (Throw e, w') →
  (launch env = Throw e ∨ newContext env = Throw e ∨ newPage env = Throw e) ∧
  (∀ k entry, browsers w' !! k = Some entry → browsers w !! k = Some entry) ∧
  (processes w' = processes w ∨
   (launch env = Ok tt ∧
    processes w' =
      processes w ++ [{| handlerKey := toLowerCase platform; connected := true |}] ∧
    isConnected w' (length (processes w)) = true ∧
    ∀ k entry, browsers w' !! k = Some entry →
               browser entry ≠ length (processes w))).
Proof.
  intros Hk. unfold getBrowserForPlatform.
  assert (Hleak : ∀ w0 : World,
    processes w0 = processes w →
    (∀ k entry, browsers w0 !! k = Some entry → browsers w !! k = Some entry) →
    create (toLowerCase platform) env w0 = (Throw e, w') →
    (launch env = Throw e ∨ newContext env = Throw e ∨ newPage env = Throw e) ∧
    (∀ k entry, browsers w' !! k = Some entry → browsers w !! k = Some entry) ∧
    (processes w' = processes w ∨
     (launch env = Ok tt ∧
      processes w' =
        processes w ++ [{| handlerKey := toLowerCase platform; connected := true |}] ∧
      isConnected w' (length (processes w)) = true ∧
      ∀ k entry, browsers w' !! k = Some entry →
                 browser entry ≠ length (processes w)))).
  { intros w0 Hp0 Hb0 Hrun.
    apply create_throws in Hrun as (Hwhy & Hb & Hp).
    split; [done |]. split; [by rewrite Hb |].
    rewrite Hp0 in Hp. destruct Hp as [Hp | [Hl Hp]]; [by left |].
    right. split_and!; [done | done | |].
    - unfold isConnected. by rewrite Hp, lookup_app_r, Nat.sub_diag by lia.
    - intros k entry Hentry Heq. rewrite Hb in Hentry. apply Hb0 in Hentry.
      destruct (Hk _ _ Hentry) as (p & Hlook & _).
      apply lookup_lt_Some in Hlook. lia. }
  destruct (if default true (useExisting options) then _ else _) as [entry |].
  - destruct (isConnected w (browser entry)).
    + intros Hrun. apply openPage_throws in Hrun as (Hwhy & Hb & Hp).
      split; [by right |]. split; [by rewrite Hb | by left].
    + apply Hleak; [done |]. intros k entry0 H. simpl in H.
      by apply lookup_delete_Some in H as [_ ?].
  - by apply Hleak.
Qed.

(** The engine launches a process but cannot open a context. *)
Definition noContext : Engine :=
  {| launch := Ok tt; newContext := Throw (BrowserError "Target closed");
     newPage := Ok tt; now := 1000 |}.

Lemma failed_acquisition_registers_nothing_witness :
  let w' := snd (getBrowserForPlatform "indeed" PoolSpec.reuse noContext empty) in
  (∀ k entry, browsers w' !! k = Some entry → browsers empty !! k = Some entry) ∧
  isConnected w' 0 = true.
Proof.
  destruct (failed_acquisition_registers_nothing "indeed" PoolSpec.reuse noContext
              empty (BrowserError "Target closed")
              (snd (getBrowserForPlatform "indeed" PoolSpec.reuse noContext empty))
              keyed_empty eq_refl) as (_ & Hsub & _).
  split; [exact Hsub | reflexivity].
Defined.

(** X14. The disconnection of any process makes the pool forget its
    platform key, whichever process the map holds under it: the next
    acquisition for that key launches a new process, and every other
    process that was connected stays connected. *)
Theorem disconnect_forgets_the_key w b p platform options env :
  processes w !! b = Some p →
  connected p = true →
  toLowerCase platform = handlerKey p →
  launch env = Ok tt → newContext env = Ok tt → newPage env = Ok tt →
  browsers (disconnect b w) !! handlerKey p = None ∧
  ∃ c pg w',
    getBrowserForPlatform platform options env (disconnect b w) =
      (Ok {| s_browser := length (processes w); s_context := c; s_page := pg |},
       w') ∧
    ∀ b', b' ≠ b → isConnected w b' = true → isConnected w' b' = true.
Proof.
  intros Hb Hconn Hkey Hl Hc Hp.
  assert (Hgone : browsers (disconnect b w) !! handlerKey p = None)
    by (rewrite (disconnect_browsers b w p Hb Hconn); apply lookup_delete_eq).
  split; [done |].
  assert (Hlen : length (processes (disconnect b w)) = length (processes w)).
  { unfold disconnect. rewrite Hb, Hconn. simpl.
    destruct (browsers w !! handlerKey p); simpl; apply length_insert. }
  unfold getBrowserForPlatform. rewrite Hkey, Hgone.
  assert ((if default true (useExisting options) then (None : option PoolEntry)
           else None) = None) as -> by (by destruct (default true _)).
  unfold create. rewrite Hl, PoolSpec.openPage_ok by done. rewrite Hlen.
  eexists _, _, _. split; [done |].
  intros b' Hne Hlive. unfold isConnected. simpl.
  pose proof (disconnect_isConnected b w b') as Hd.
  rewrite Hlive in Hd. replace (b' =? b)%nat with false in Hd
    by (symmetry; by apply Nat.eqb_neq).
  unfold isConnected in Hd.
  destruct (processes (disconnect b w) !! b') as [q |] eqn:Hq; [| done].
  by rewrite (lookup_app_l_Some _ _ _ _ Hq).
Qed.

Lemma disconnect_forgets_the_key_witness :
  let w := run [Acquire "linkedin" PoolSpec.noReuse PoolSpec.engine_ok;
                Acquire "linkedin" PoolSpec.noReuse PoolSpec.engine_ok] empty in
  browsers (disconnect 0 w) !! "linkedin" = None ∧
  ∃ c pg w',
    getBrowserForPlatform "LinkedIn" PoolSpec.reuse PoolSpec.engine_ok
      (disconnect 0 w) =
      (Ok {| s_browser := 2; s_context := c; s_page := pg |}, w') ∧
    ∀ b', b' ≠ 0%nat → isConnected w b' = true → isConnected w' b' = true.
Proof.
  apply (disconnect_forgets_the_key
           (run [Acquire "linkedin" PoolSpec.noReuse PoolSpec.engine_ok;
                 Acquire "linkedin" PoolSpec.noReuse PoolSpec.engine_ok] empty)
           0 {| handlerKey := "linkedin"; connected := true |}
           "LinkedIn" PoolSpec.reuse PoolSpec.engine_ok);
    reflexivity.
Defined.

End ShutdownSpec.

Module HelpersSpec.
Import Helpers.

Lemma split_nonempty sep s : split sep s ≠ [].
Proof.
  destruct s as [| c rest]; simpl; [done |].
  destruct (Ascii.eqb c sep); [done |]. by destruct (split sep rest).
Qed.

Lemma split_app sep a b :
  split sep (a ++ String sep b) = split sep a ++ split sep b.
Proof.
  induction a as [| c a IH]; simpl.
  - by rewrite Ascii.eqb_refl.
  - destruct (Ascii.eqb c sep); [by rewrite IH |].
    rewrite IH. pose proof (split_nonempty sep a).
    by destruct (split sep a).
Qed.

Lemma extractDomain_keeps_two_labels hostnameOf url sub name tld :
  hostnameOf url = Some (sub ++ String dot (name ++ String dot tld))%string →
  split dot name = [name] → split dot tld = [tld] →
  extractDomain hostnameOf url = (name ++ String dot tld)%string.
Proof.
  intros Hh Hn Ht. unfold extractDomain. rewrite Hh.
  rewrite !split_app, Hn, Ht.
  pose proof (split_nonempty dot sub) as Hne.
  rewrite !length_app. simpl length.
  replace (2 <? length (split dot sub) + (1 + 1))%nat with true
    by (symmetry; apply Nat.ltb_lt; destruct (split dot sub); [done | simpl; lia]).
  replace (length (split dot sub) + (1 + 1) - 2)%nat with (length (split dot sub))
    by lia.
  by rewrite drop_app_length.
Qed.

(** X15. [detectPlatform] recognises a supported site at any
    subdomain depth: when the host of the url is a key of
    [platformMap] or ends with a dot followed by that key, the
    platform of that key is returned. *)
Theorem detectPlatform_any_subdomain hostnameOf url hostname domainKey platform :
  (domainKey, platform) ∈ platformMap →
  hostnameOf url = Some hostname →
  hostname = domainKey ∨ (∃ sub, hostname = sub ++ String dot domainKey)%string →
  detectPlatform hostnameOf url = Some platform.
Proof.
  intros Hin Hh Hhost. unfold detectPlatform.
  assert (Hkey : (domainKey, platform) = ("linkedin.com", "linkedin") ∨
                 (domainKey, platform) = ("indeed.com", "indeed") ∨
                 (domainKey, platform) = ("glassdoor.com", "glassdoor")).
  { unfold platformMap in Hin. rewrite !elem_of_cons, elem_of_nil in Hin. tauto. }
  assert (Hd : extractDomain hostnameOf url = domainKey).
  { destruct Hhost as [-> | [sub ->]].
    - unfold extractDomain. rewrite Hh.
      by destruct Hkey as [[= -> ->] | [[= -> ->] | [= -> ->]]].
    - destruct Hkey as [[= -> ->] | [[= -> ->] | [= -> ->]]].
      + by apply (extractDomain_keeps_two_labels hostnameOf url sub "linkedin" "com").
      + by apply (extractDomain_keeps_two_labels hostnameOf url sub "indeed" "com").
      + by apply (extractDomain_keeps_two_labels hostnameOf url sub "glassdoor" "com"). }
  rewrite Hd.
  by destruct Hkey as [[= -> ->] | [[= -> ->] | [= -> ->]]].
Qed.

Lemma detectPlatform_any_subdomain_witness :
  detectPlatform (λ _, Some "uk.jobs.indeed.com")
    "https://uk.jobs.indeed.com/viewjob?jk=1" = Some "indeed".
Proof.
  apply (detectPlatform_any_subdomain (λ _, Some "uk.jobs.indeed.com")
           "https://uk.jobs.indeed.com/viewjob?jk=1" "uk.jobs.indeed.com"
           "indeed.com" "indeed").
  - apply (bool_decide_unpack _). vm_compute. exact I.
  - reflexivity.
  - right. exists "uk.jobs". reflexivity.
Defined.

(** A host under a country-code suffix keeps only that suffix, and a
    host that merely contains a key is taken for the platform. *)
Example detectPlatform_country_suffix :
  detectPlatform (λ _, Some "www.indeed.co.uk") "https://www.indeed.co.uk/jobs" = None.
Proof. reflexivity. Qed.

Example detectPlatform_by_substring :
  detectPlatform (λ _, Some "notlinkedin.com") "https://notlinkedin.com/x"
  = Some "linkedin".
Proof. reflexivity. Qed.

Lemma substring_0_length n : ∀ s,
  String.length (String.substring 0 n s) = (n `min` String.length s)%nat.
Proof.
  induction n as [| n IH]; intros [| c s]; simpl; [done | done | done |].
  by rewrite IH.
Qed.

Lemma substring_0_prefix n : ∀ s,
  String.prefix (String.substring 0 n s) s = true.
Proof.
  induction n as [| n IH]; intros [| c s]; simpl; [done | done | done |].
  destruct (Ascii.ascii_dec c c); [apply IH | done].
Qed.

Lemma length_append (a b : string) :
  String.length (a ++ b) = (String.length a + String.length b)%nat.
Proof. induction a as [| c a IH]; simpl; [done | by rewrite IH]. Qed.

(** X16. [truncateText] returns a text no longer than its second
    argument unchanged; a longer one is cut to its first [maxLength]
    characters followed by three dots, so the result is [maxLength + 3]
    characters long. *)
Theorem truncateText_length (t : string) (maxLength : nat) :
  ∃ r, truncateText (Some t) (Some maxLength) = Some r ∧
       (String.length r ≤ maxLength + 3)%nat ∧
       ((String.length t ≤ maxLength)%nat → r = t) ∧
       ((maxLength < String.length t)%nat →
          String.length r = (maxLength + 3)%nat ∧
          r = (String.substring 0 maxLength t ++ "...")%string ∧
          String.prefix (String.substring 0 maxLength t) t = true).
Proof.
  unfold truncateText. simpl default.
  destruct (String.length t <=? maxLength)%nat eqn:E.
  - apply Nat.leb_le in E. rewrite orb_true_r.
    exists t. split_and!; [done | lia | done | lia].
  - apply Nat.leb_gt in E.
    assert (truthy (Some t) = true) as ->.
    { destruct t; [simpl in E; lia | done]. }
    simpl. eexists. split; [done |].
    rewrite length_append, substring_0_length. simpl.
    split_and!; [lia | lia |]. intros _.
    split_and!; [lia | done | apply substring_0_prefix].
Qed.

End HelpersSpec.

Module FlowsSpec.
Import Platform PlatformFlows.

Section Outcomes.
Context {Page : Type} `{Playwright Page} `{Navigation Page}.

(** A computation whose returned values all satisfy [P]. *)
Definition returnsOnly {A} (P : A → Prop) (m : M Page A) : Prop :=
  ∀ p a p', m p = (Ok a, p') → P a.

(** A computation that, when it returns, returns [true]. *)
Definition onlyTrue (m : M Page bool) : Prop := returnsOnly (λ b, b = true) m.

(** A computation that always throws. *)
Definition neverReturns {A} (m : M Page A) : Prop :=
  ∀ p, is_ok (fst (m p)) = false.

Lemma returnsOnly_ret {A} (P : A → Prop) a : P a → returnsOnly P (mret a).
Proof. by intros Ha p b p' [= <- _]. Qed.

Lemma returnsOnly_bind {A B} (P : B → Prop) (m : M Page A) (k : A → M Page B) :
  (∀ a, returnsOnly P (k a)) → returnsOnly P (m ≫= k).
Proof.
  intros Hk p b p'. unfold mbind, M_bind.
  destruct (m p) as [[a | e] p1]; [apply Hk | done].
Qed.

Lemma neverReturns_returnsOnly {A} (P : A → Prop) (m : M Page A) :
  neverReturns m → returnsOnly P m.
Proof. intros Hm p b p' Hrun. specialize (Hm p). by rewrite Hrun in Hm. Qed.

Lemma onlyTrue_ret : onlyTrue (mret true).
Proof. by apply returnsOnly_ret. Qed.

Lemma onlyTrue_bind {A} (m : M Page A) (k : A → M Page bool) :
  (∀ a, onlyTrue (k a)) → onlyTrue (m ≫= k).
Proof. apply returnsOnly_bind. Qed.

Lemma neverReturns_onlyTrue (m : M Page bool) : neverReturns m → onlyTrue m.
Proof. apply neverReturns_returnsOnly. Qed.

Lemma neverReturns_throw {A} e : neverReturns (@throw Page A e).
Proof. done. Qed.

Lemma neverReturns_bind_l {A B} (m : M Page A) (k : A → M Page B) :
  neverReturns m → neverReturns (m ≫= k).
Proof.
  intros Hm p. specialize (Hm p). unfold mbind, M_bind.
  by destruct (m p) as [[a | e] p1].
Qed.

Lemma neverReturns_bind_r {A B} (m : M Page A) (k : A → M Page B) :
  (∀ a, neverReturns (k a)) → neverReturns (m ≫= k).
Proof.
  intros Hk p. unfold mbind, M_bind.
  destruct (m p) as [[a | e] p1]; [apply Hk | done].
Qed.

Lemma neverReturns_tryCatch {A} (m : M Page A) (h : JsError → M Page A) :
  neverReturns m → (∀ e, neverReturns (h e)) → neverReturns (tryCatch m h).
Proof.
  intros Hm Hh p. specialize (Hm p). unfold tryCatch.
  destruct (m p) as [[a | e] p1]; [done | apply Hh].
Qed.

(** A body whose errors are all rethrown through [wrap]. *)
Lemma rethrown (body : M Page bool) (wrap : JsError → JsError) p :
  onlyTrue body →
  match fst (tryCatch body (λ error, throw (wrap error)) p) with
  | Ok b => b = true
  | Throw e => ∃ cause, e = wrap cause
  end.
Proof.
  intros Hb. unfold tryCatch. destruct (body p) as [[b | e] p1] eqn:Hrun; simpl.
  - by eapply Hb.
  - by exists e.
Qed.

Lemma rethrown_always (body : M Page bool) (wrap : JsError → JsError) p :
  is_ok (fst (body p)) = false →
  ∃ cause, fst (tryCatch body (λ error, throw (wrap error)) p) = Throw (wrap cause).
Proof.
  unfold tryCatch. destruct (body p) as [[b | e] p1]; [done |]. by exists e.
Qed.

Lemma confirmLogin_onlyTrue platform mark errorSelector :
  onlyTrue (confirmLogin platform mark errorSelector).
Proof.
  unfold confirmLogin. apply onlyTrue_bind. intros _.
  apply onlyTrue_bind. intros [|]; simpl; [apply onlyTrue_ret |].
  apply neverReturns_onlyTrue, neverReturns_bind_r. intros [|].
  - apply neverReturns_bind_r. intros text. apply neverReturns_throw.
  - apply neverReturns_throw.
Qed.

Lemma fill_undefined platform selector :
  neverReturns (fill platform selector None).
Proof.
  unfold fill. apply neverReturns_tryCatch; [| intros e; apply neverReturns_throw].
  do 3 (apply neverReturns_bind_r; intros _). apply neverReturns_throw.
Qed.

Lemma login_rethrows inst username password page :
  match fst (login inst username password page) with
  | Ok loggedIn => loggedIn = true
  | Throw e => ∃ cause, e = loginFailed (platformOf inst) cause
  end.
Proof.
  destruct inst; simpl.
  - apply rethrown.
    apply onlyTrue_bind. intros [|]; [apply onlyTrue_ret |].
    apply onlyTrue_bind. intros _. apply onlyTrue_bind. intros [|]; simpl.
    + do 3 (apply onlyTrue_bind; intros _). apply confirmLogin_onlyTrue.
    + apply neverReturns_onlyTrue, neverReturns_throw.
  - apply rethrown.
    apply onlyTrue_bind. intros [|]; [apply onlyTrue_ret |].
    do 8 (apply onlyTrue_bind; intros _). apply confirmLogin_onlyTrue.
  - apply rethrown.
    apply onlyTrue_bind. intros [|]; [apply onlyTrue_ret |].
    apply onlyTrue_bind; intros _. apply onlyTrue_bind; intros hasEmailField.
    do 4 (apply onlyTrue_bind; intros _). apply confirmLogin_onlyTrue.
Qed.

(** X18. The three [login] signal failure only by throwing: a
    call that returns returns [true], and whatever goes wrong on the
    way is rethrown as a [PlatformError] of the adapter's platform,
    whose message reads [<platform>: Login failed: <message of the
    cause>], the tag of the error class coming first. *)
Theorem login_fails_only_by_throwing inst username password page :
  match fst (login inst username password page) with
  | Ok loggedIn => loggedIn = true
  | Throw e =>
      ∃ cause,
        e = PlatformError (platformOf inst) ("Login failed: " ++ message cause) ∧
        message e =
          (platformOf inst ++ ": Login failed: " ++ message cause)%string
  end.
Proof.
  pose proof (login_rethrows inst username password page) as Hrun.
  destruct (fst (login inst username password page)) as [loggedIn | e]; [done |].
  destruct Hrun as [cause ->]. exists cause. split; reflexivity.
Qed.

Lemma fills_never_return {A} platform s1 s2 username password
    (between : M Page unit) (k : M Page A) :
  username = None ∨ password = None →
  neverReturns (fill platform s1 username;; between;;
                fill platform s2 password;; k).
Proof.
  intros [-> | ->].
  - apply neverReturns_bind_l, fill_undefined.
  - do 2 (apply neverReturns_bind_r; intros _).
    apply neverReturns_bind_l, fill_undefined.
Qed.

Lemma fills_in_a_row_never_return {A} platform s1 s2 username password
    (k : M Page A) :
  username = None ∨ password = None →
  neverReturns (fill platform s1 username;; fill platform s2 password;; k).
Proof.
  intros [-> | ->].
  - apply neverReturns_bind_l, fill_undefined.
  - apply neverReturns_bind_r; intros _.
    apply neverReturns_bind_l, fill_undefined.
Qed.

(** X19. Without a user name or without a password (a credential
    the environment does not define), a [login] that does not find
    the user already logged in always throws: it never returns. *)
Theorem login_needs_credentials inst username password page :
  username = None ∨ password = None →
  fst (checkLogin (markOf inst) page) = Ok false →
  ∃ cause,
    fst (login inst username password page) =
      Throw (loginFailed (platformOf inst) cause).
Proof.
  intros Hcred Hcheck.
  destruct inst; simpl in *; apply rethrown_always;
    unfold linkedinCheckLogin, indeedCheckLogin, glassdoorCheckLogin;
    unfold mbind at 1, M_bind at 1;
    destruct (checkLogin _ page) as [[[|] | e] p1]; simpl in Hcheck;
    try done; clear Hcheck.
  - apply neverReturns_bind_r. intros _. apply neverReturns_bind_r.
    intros [|]; simpl; [| apply neverReturns_throw].
    by apply fills_in_a_row_never_return.
  - do 3 (apply neverReturns_bind_r; intros _).
    pose proof (fills_never_return (A := bool) "indeed" "#ifl-InputFormField-3"
                  "#ifl-InputFormField-7" username password
                  (click "indeed" continueButtonSelector;;
                   waitForSelector "#ifl-InputFormField-7" 5000)
                  (clickAndNavigate "indeed" "button[type='submit']";;
                   confirmLogin "indeed" "[data-gnav-element-name='AccountMenu']"
                     ".auth-page-formError") Hcred) as Hn.
    intros p. specialize (Hn p). revert Hn.
    unfold mbind, M_bind.
    destruct (fill "indeed" "#ifl-InputFormField-3" username p) as [[[] | e] p2];
      [| done].
    destruct (click "indeed" continueButtonSelector p2) as [[[] | e] p3]; [| done].
    done.
  - apply neverReturns_bind_r; intros _.
    apply neverReturns_bind_r; intros hasEmailField.
    apply neverReturns_bind_r; intros _.
    by apply fills_in_a_row_never_return.
Qed.

Lemma loop_returnsOnly {A} (P : A → Prop) (body : M Page (Control A)) :
  returnsOnly (λ c, match c with Leave v => P v | KeepGoing => True end) body →
  ∀ fuel p v p', loop body fuel p = Some (Ok v, p') → P v.
Proof.
  intros Hb. induction fuel as [| fuel IH]; intros p v p'; simpl; [done |].
  destruct (body p) as [[[| v0] | e] p1] eqn:Hrun; [apply IH | | done].
  intros [= <- <-]. apply (Hb _ _ _ Hrun).
Qed.

Lemma linkedinStep_leaves_true :
  returnsOnly (λ c, match c with Leave v => v = true | KeepGoing => True end)
    linkedinStep.
Proof.
  unfold linkedinStep. apply returnsOnly_bind. intros [[next submit] review].
  unfold linkedinAct. destruct review.
  - apply returnsOnly_bind. intros _. by apply returnsOnly_ret.
  - destruct submit.
    + do 2 (apply returnsOnly_bind; intros _). by apply returnsOnly_ret.
    + destruct next.
      * apply returnsOnly_bind. intros _. by apply returnsOnly_ret.
      * apply neverReturns_returnsOnly, neverReturns_throw.
Qed.

Definition doneOrForm (r : option bool) : Prop :=
  match r with Some done => done = true | None => True end.

Lemma linkedinOpenForm_done : returnsOnly doneOrForm linkedinOpenForm.
Proof.
  unfold linkedinOpenForm. apply returnsOnly_bind. intros [|]; simpl.
  2:{ apply neverReturns_returnsOnly, neverReturns_throw. }
  apply returnsOnly_bind. intros [|]; simpl.
  - do 2 (apply returnsOnly_bind; intros _). by apply returnsOnly_ret.
  - apply returnsOnly_bind. intros [|]; [by apply returnsOnly_ret |].
    apply neverReturns_returnsOnly, neverReturns_throw.
Qed.

Lemma indeedOpenForm_done : returnsOnly doneOrForm indeedOpenForm.
Proof.
  unfold indeedOpenForm. apply returnsOnly_bind. intros [|]; simpl.
  2:{ apply neverReturns_returnsOnly, neverReturns_throw. }
  apply returnsOnly_bind. intros [|]; simpl.
  - apply returnsOnly_bind; intros _. by apply returnsOnly_ret.
  - apply returnsOnly_bind. intros [|].
    + apply neverReturns_returnsOnly, neverReturns_throw.
    + apply returnsOnly_bind. intros [|]; [by apply returnsOnly_ret |].
      apply neverReturns_returnsOnly, neverReturns_throw.
Qed.

Lemma glassdoorOpenForm_done : returnsOnly doneOrForm glassdoorOpenForm.
Proof.
  unfold glassdoorOpenForm. apply returnsOnly_bind. intros [|]; simpl.
  2:{ apply neverReturns_returnsOnly, neverReturns_throw. }
  apply returnsOnly_bind. intros applyButtonExists.
  apply returnsOnly_bind. intros externalApplyExists.
  destruct (negb applyButtonExists && negb externalApplyExists).
  - apply returnsOnly_bind. intros [|]; [by apply returnsOnly_ret |].
    apply neverReturns_returnsOnly, neverReturns_throw.
  - do 2 (apply returnsOnly_bind; intros _). by apply returnsOnly_ret.
Qed.

Lemma applyThroughForm_outcome platform openForm handleForm ok ko fuel page :
  returnsOnly doneOrForm openForm →
  match applyThroughForm platform openForm handleForm ok ko fuel page with
  | None => True
  | Some (Ok applied, _) => applied = true
  | Some (Throw e, _) => ∃ cause, e = applicationFailed platform cause
  end.
Proof.
  intros Hopen. unfold applyThroughForm.
  destruct (openForm page) as [[[done |] | e] p1] eqn:Ho; [| | by exists e].
  - apply (Hopen _ _ _ Ho).
  - destruct (handleForm fuel p1) as [[[[] | e] p2] |]; [| by exists e | done].
    destruct (confirmSubmission platform ok ko p2) as [[[] | e] p3];
      [done | by exists e].
Qed.

Lemma applyToJob_rethrows inst fuel page :
  match applyToJob inst fuel page with
  | None => True
  | Some (Ok applied, _) => applied = true
  | Some (Throw e, _) => ∃ cause, e = applicationFailed (platformOf inst) cause
  end.
Proof.
  destruct inst; simpl.
  - unfold linkedinApplyToJob.
    destruct (linkedinOpenForm page) as [[[done |] | e] p1] eqn:Ho; [| | by exists e].
    + apply (linkedinOpenForm_done _ _ _ Ho).
    + destruct (loop linkedinStep fuel p1) as [[[v | e] p2] |] eqn:Hl;
        [| by exists e | done].
      apply (loop_returnsOnly _ _ linkedinStep_leaves_true _ _ _ _ Hl).
  - apply applyThroughForm_outcome, indeedOpenForm_done.
  - apply applyThroughForm_outcome, glassdoorOpenForm_done.
Qed.

(** X20. The three [applyToJob] signal failure only by throwing: a
    call that returns returns [true], and every error is rethrown as a
    [PlatformError] of the adapter's platform, whose message reads
    [<platform>: Application failed: <message of the cause>]. *)
Theorem applyToJob_fails_only_by_throwing inst fuel page :
  match applyToJob inst fuel page with
  | None => True
  | Some (Ok applied, _) => applied = true
  | Some (Throw e, _) =>
      ∃ cause,
        e = PlatformError (platformOf inst)
              ("Application failed: " ++ message cause) ∧
        message e =
          (platformOf inst ++ ": Application failed: " ++ message cause)%string
  end.
Proof.
  pose proof (applyToJob_rethrows inst fuel page) as Hrun.
  destruct (applyToJob inst fuel page) as [[[applied | e] p'] |]; [done | | done].
  destruct Hrun as [cause ->]. exists cause. split; reflexivity.
Qed.

Lemma glassdoorExternalApply_throws : neverReturns glassdoorExternalApply.
Proof.
  unfold glassdoorExternalApply. do 2 (apply neverReturns_bind_r; intros _).
  apply neverReturns_bind_r. intros pages.
  destruct (1 <? pages)%nat; apply neverReturns_throw.
Qed.

(** X21. A Glassdoor job that only offers the external control is
    never applied to: whatever happens after the click on that
    control, [applyToJob] throws, before the form loop is reached. *)
Theorem glassdoor_external_only_fails fuel page p1 p2 p3 :
  elementExists ".jobDetails" page = (Ok true, p1) →
  elementExists ".applyButton" p1 = (Ok false, p2) →
  elementExists ".job-apply" p2 = (Ok true, p3) →
  ∃ cause p',
    glassdoorApplyToJob fuel page =
      Some (Throw (applicationFailed "glassdoor" cause), p').
Proof.
  intros Hjob Hown Hext.
  unfold glassdoorApplyToJob, applyThroughForm, glassdoorOpenForm.
  unfold mbind at 1, M_bind at 1. rewrite Hjob. simpl.
  unfold mbind at 1, M_bind at 1. rewrite Hown.
  unfold mbind at 1, M_bind at 1. rewrite Hext. simpl.
  unfold mbind at 1, M_bind at 1.
  pose proof (glassdoorExternalApply_throws p3) as Hthrow.
  destruct (glassdoorExternalApply p3) as [[[] | e] p4]; [done |].
  by exists e, p4.
Qed.

End Outcomes.

(** The scripted form of [PlatformSpec], with a navigation that always
    succeeds and a context that never opens a second page. *)
Definition scriptedNavigation : Navigation PlatformSpec.Form :=
  {| goto _ f := (Ok tt, f);
     pageFill _ _ f := (Ok tt, f);
     clickWithNavigation selector _ f := (Ok tt, PlatformSpec.advance selector f);
     contextPages _ := 1%nat |}.

(** The login page of LinkedIn, the user not being logged in. *)
Definition loginPage : PlatformSpec.Form :=
  {| PlatformSpec.always := ["#username"; "#password"; ".btn__primary--large"];
     PlatformSpec.shown := []; PlatformSpec.later := [];
     PlatformSpec.repeats := false; PlatformSpec.clicked := [] |}.

Lemma login_needs_credentials_witness :
  ∃ cause,
    fst (@login _ PlatformSpec.scripted scriptedNavigation
           ApplicationService.LinkedInPlatform (Some "user@example.com") None
           loginPage)
    = Throw (loginFailed "linkedin" cause).
Proof.
  apply (@login_needs_credentials _ PlatformSpec.scripted scriptedNavigation
           ApplicationService.LinkedInPlatform (Some "user@example.com") None
           loginPage).
  - right. reflexivity.
  - reflexivity.
Defined.

(** A Glassdoor job page with the external control only. *)
Definition externalOnly : PlatformSpec.Form :=
  {| PlatformSpec.always := [".jobDetails"; ".job-apply"];
     PlatformSpec.shown := []; PlatformSpec.later := [];
     PlatformSpec.repeats := false; PlatformSpec.clicked := [] |}.

Lemma glassdoor_external_only_fails_witness :
  ∃ cause p',
    @glassdoorApplyToJob _ PlatformSpec.scripted scriptedNavigation 0 externalOnly =
      Some (Throw (applicationFailed "glassdoor" cause), p').
Proof.
  apply (@glassdoor_external_only_fails _ PlatformSpec.scripted scriptedNavigation
           0 externalOnly externalOnly externalOnly externalOnly);
    reflexivity.
Defined.

Example externalOnly_reported :
  (λ r, (fst r, PlatformSpec.clicked (snd r))) <$>
    @glassdoorApplyToJob _ PlatformSpec.scripted scriptedNavigation 0 externalOnly
  = Some (Throw (PlatformError "glassdoor"
                   "Application failed: glassdoor: External application process could not be initiated"),
          [".job-apply"]).
Proof. reflexivity. Qed.

End FlowsSpec.

Module StatisticsSpec.
Import Statistics.

(** A row whose total is the sum of its two other counters. *)
Definition consistent (row : StatRow) : Prop :=
  total_count (counts row) =
    (successful_count (counts row) + failed_count (counts row))%Z.

(** The sum of a counter over the rows of a day and a platform. *)
Definition sumOver (proj : Counts → Z) (d p : string) (table : list StatRow) : Z :=
  foldr (λ row s, ((if matching d p row then proj (counts row) else 0) + s)%Z)
    0%Z table.

Lemma sumOver_app proj d p l1 l2 :
  sumOver proj d p (l1 ++ l2) = (sumOver proj d p l1 + sumOver proj d p l2)%Z.
Proof. induction l1 as [| r l1 IH]; simpl; [done |]. rewrite IH. lia. Qed.

Lemma sumOver_insert proj d p : ∀ (table : list StatRow) i old new,
  table !! i = Some old →
  sumOver proj d p (<[i := new]> table) =
    (sumOver proj d p table
     - (if matching d p old then proj (counts old) else 0)
     + (if matching d p new then proj (counts new) else 0))%Z.
Proof.
  induction table as [| r table IH]; intros [| i] old new Hi; simpl in *;
    [done | done | |].
  - injection Hi as ->. lia.
  - rewrite (IH i old new Hi). lia.
Qed.

Lemma selected_spec d p : ∀ table i id row,
  (id, row) ∈ selected d p i table →
  (i ≤ id)%nat ∧ table !! (id - i)%nat = Some row ∧ matching d p row = true.
Proof.
  induction table as [| r table IH]; intros i id row Hin; simpl in Hin;
    [by apply elem_of_nil in Hin |].
  destruct (matching d p r) eqn:Hm.
  - apply elem_of_cons in Hin as [[= -> ->] | Hin].
    + rewrite Nat.sub_diag. done.
    + apply IH in Hin as (Hle & Hlook & Hmatch).
      split_and!; [lia | | done].
      replace (id - i)%nat with (S (id - S i)) by lia. done.
  - apply IH in Hin as (Hle & Hlook & Hmatch).
    split_and!; [lia | | done].
    replace (id - i)%nat with (S (id - S i)) by lia. done.
Qed.

Lemma single_spec d p table id row :
  single d p table = Some (id, row) →
  table !! id = Some row ∧ matching d p row = true.
Proof.
  unfold single. destruct (selected d p 0 table) as [| x [| y l]] eqn:E;
    [done | | done].
  intros [= ->].
  destruct (selected_spec d p table 0 id row) as (_ & Hlook & Hm);
    [rewrite E; by left |].
  by rewrite Nat.sub_0_r in Hlook.
Qed.

Lemma matching_bump d p status row :
  matching d p (bump status row) = matching d p row.
Proof. done. Qed.

Lemma matching_key d p d' p' row :
  matching d p row = true → matching d' p' row = true → d' = d ∧ p' = p.
Proof.
  unfold matching. rewrite !andb_true_iff, !String.eqb_eq.
  intros [<- <-] [<- <-]. done.
Qed.

(** Whether the call is to count for day [d] and platform [p]. *)
Definition counted (env : Env) (p0 d p : string) : bool :=
  String.eqb (today env) d && String.eqb p0 p.

Lemma matching_newStats env p0 status d p :
  matching d p (newStats (today env) p0 status) = counted env p0 d p.
Proof. done. Qed.

Lemma counted_matching env p0 d p row :
  matching (today env) p0 row = true →
  matching d p row = counted env p0 d p.
Proof.
  unfold matching, counted. rewrite andb_true_iff, !String.eqb_eq.
  by intros [-> ->].
Qed.

(** How many rows the table holds for a day and a platform. *)
Definition countOf (d p : string) (table : list StatRow) : nat :=
  length (List.filter (matching d p) table).

(** At most one row per day and platform. *)
Definition oneRowPerDay (table : list StatRow) : Prop :=
  ∀ d p, (countOf d p table ≤ 1)%nat.

Lemma selected_length d p : ∀ table i,
  length (selected d p i table) = countOf d p table.
Proof.
  unfold countOf. induction table as [| r table IH]; intros i; simpl; [done |].
  destruct (matching d p r); simpl; by rewrite IH.
Qed.

Lemma countOf_insert d p : ∀ (table : list StatRow) i old new,
  table !! i = Some old →
  matching d p new = matching d p old →
  countOf d p (<[i := new]> table) = countOf d p table.
Proof.
  unfold countOf.
  induction table as [| r table IH]; intros [| i] old new Hi Hm; simpl in *;
    [done | done | |].
  - injection Hi as ->. rewrite Hm. by destruct (matching d p old).
  - destruct (matching d p r); simpl; by rewrite (IH i old new).
Qed.

Lemma countOf_app d p l1 l2 :
  countOf d p (l1 ++ l2) = (countOf d p l1 + countOf d p l2)%nat.
Proof. unfold countOf. by rewrite List.filter_app, length_app. Qed.

(** X22. [updateApplicationStats] keeps the table of statistics well
    formed, whatever the store answers: when every row's total is the
    sum of its successful and failed counts, and no day and platform
    has two rows, the same holds afterwards. *)
Theorem updateApplicationStats_keeps_table_sound p0 status env table :
  Forall consistent table →
  oneRowPerDay table →
  Forall consistent (updateApplicationStats p0 status env table) ∧
  oneRowPerDay (updateApplicationStats p0 status env table).
Proof.
  intros Hall Hone. unfold updateApplicationStats.
  destruct (selectReply env); [| done | done].
  destruct (single (today env) p0 table) as [[id data] |] eqn:Hs.
  - destruct (updateReply env); [| done | done].
    apply single_spec in Hs as [Hlook _]. split.
    + apply Forall_insert; [done |].
      rewrite Forall_forall in Hall.
      pose proof (Hall data (list_elem_of_lookup_2 _ _ _ Hlook)) as Hd.
      unfold consistent, bump in *. simpl.
      destruct (String.eqb status "success"); simpl; lia.
    + intros d p. by rewrite (countOf_insert d p table id data).
  - destruct (insertReply env); [| done | done]. split.
    + apply Forall_app. split; [done |]. apply Forall_singleton.
      unfold consistent, newStats. simpl.
      by destruct (String.eqb status "success").
    + intros d p. rewrite countOf_app. unfold countOf at 2. simpl.
      rewrite matching_newStats.
      destruct (counted env p0 d p) eqn:Hc; simpl;
        [| specialize (Hone d p); lia].
      unfold counted in Hc. apply andb_true_iff in Hc as [Hd Hp].
      apply String.eqb_eq in Hd, Hp. subst d p.
      specialize (Hone (today env) p0).
      rewrite <- (selected_length _ _ table 0) in *.
      unfold single in Hs.
      destruct (selected (today env) p0 0 table) as [| x [| y l]];
        simpl in *; [lia | done | lia].
Qed.

Definition yesterday : list StatRow :=
  [{| date := "2025-01-01"; platform := "linkedin";
      counts := {| successful_count := 2; failed_count := 1; total_count := 3 |} |}].

Definition storeUp (day : string) : Env :=
  {| today := day; selectReply := Supabase.Resolved;
     updateReply := Supabase.Resolved; insertReply := Supabase.Resolved |}.

Lemma updateApplicationStats_keeps_table_sound_witness :
  Forall consistent
    (updateApplicationStats "linkedin" "failed" (storeUp "2025-01-02") yesterday) ∧
  oneRowPerDay
    (updateApplicationStats "linkedin" "failed" (storeUp "2025-01-02") yesterday).
Proof.
  apply (updateApplicationStats_keeps_table_sound "linkedin" "failed"
           (storeUp "2025-01-02") yesterday).
  - repeat constructor.
  - intros d p. unfold countOf, yesterday. simpl.
    destruct (matching d p _); simpl; lia.
Defined.

(** X23. When the store answers its calls, one call of
    [updateApplicationStats] counts exactly one application: over the
    rows of the day of the call and of the platform, the total goes up
    by one, and so does the successful count for the status
    ["success"] and the failed count for any other status; the sums
    for every other day or platform stay as they were. *)
Theorem updateApplicationStats_counts_once p0 status env table d p :
  selectReply env = Supabase.Resolved →
  updateReply env = Supabase.Resolved →
  insertReply env = Supabase.Resolved →
  sumOver total_count d p (updateApplicationStats p0 status env table) =
    (sumOver total_count d p table + (if counted env p0 d p then 1 else 0))%Z ∧
  sumOver successful_count d p (updateApplicationStats p0 status env table) =
    (sumOver successful_count d p table +
     (if counted env p0 d p && String.eqb status "success" then 1 else 0))%Z ∧
  sumOver failed_count d p (updateApplicationStats p0 status env table) =
    (sumOver failed_count d p table +
     (if counted env p0 d p && negb (String.eqb status "success")
      then 1 else 0))%Z.
Proof.
  intros Hsel Hupd Hins. unfold updateApplicationStats.
  rewrite Hsel, Hupd, Hins.
  destruct (single (today env) p0 table) as [[id data] |] eqn:Hs.
  - apply single_spec in Hs as [Hlook Hm].
    rewrite !(sumOver_insert _ d p table id data _ Hlook), !matching_bump.
    rewrite (counted_matching env p0 d p data Hm).
    destruct (counted env p0 d p); simpl; [| lia].
    destruct (String.eqb status "success"); simpl; lia.
  - rewrite !sumOver_app. simpl. rewrite matching_newStats.
    destruct (counted env p0 d p); simpl; [| lia].
    destruct (String.eqb status "success"); simpl; lia.
Qed.

Lemma updateApplicationStats_counts_once_witness :
  sumOver total_count "2025-01-01" "linkedin"
    (updateApplicationStats "linkedin" "success" (storeUp "2025-01-01") yesterday)
  = 4%Z.
Proof.
  exact (proj1 (updateApplicationStats_counts_once "linkedin" "success"
                  (storeUp "2025-01-01") yesterday "2025-01-01" "linkedin"
                  eq_refl eq_refl eq_refl)).
Defined.

(** The sum of the entries of [platformStats]. *)
Definition sumGroups (m : gmap string Counts) : Counts :=
  map_fold (λ _ entry acc, addCounts acc entry) noCounts m.

(** The rows of a platform. *)
Definition rowsOf (p : string) (data : list StatRow) : list StatRow :=
  List.filter (λ item, String.eqb (platform item) p) data.

(** The rows whose platform becomes a key of [platformStats]. *)
Definition grouped (data : list StatRow) : list StatRow :=
  List.filter (λ item, negb (inherited (platform item))) data.

Definition sumFrom (start : Counts) (data : list StatRow) : Counts :=
  foldl (λ acc item, addCounts acc (counts item)) start data.

Lemma Counts_eq (a b : Counts) :
  successful_count a = successful_count b →
  failed_count a = failed_count b →
  total_count a = total_count b → a = b.
Proof. destruct a, b. simpl. by intros -> -> ->. Qed.

Lemma addCounts_swap y a b :
  addCounts (addCounts y a) b = addCounts (addCounts y b) a.
Proof. apply Counts_eq; simpl; lia. Qed.

Lemma sumGroups_insert_new m k c :
  m !! k = None → sumGroups (<[k := c]> m) = addCounts (sumGroups m) c.
Proof.
  intros Hk. unfold sumGroups. rewrite map_fold_insert_L; [done | | done].
  intros. apply addCounts_swap.
Qed.

Lemma sumGroups_insert_add m k c0 c :
  m !! k = Some c0 →
  sumGroups (<[k := addCounts c0 c]> m) = addCounts (sumGroups m) c.
Proof.
  intros Hk. rewrite <- insert_delete_eq.
  rewrite sumGroups_insert_new by apply lookup_delete_eq.
  unfold sumGroups at 2.
  rewrite (map_fold_delete_L _ _ k c0 m); [| intros; apply addCounts_swap | done].
  fold (sumGroups (delete k m)). apply Counts_eq; simpl; lia.
Qed.

Lemma sumGroups_group acc item :
  inherited (platform item) = false →
  sumGroups (group acc item) = addCounts (sumGroups acc) (counts item).
Proof.
  intros Hown. unfold group. rewrite Hown.
  destruct (acc !! platform item) as [c0 |] eqn:E; simpl.
  - by apply sumGroups_insert_add.
  - rewrite sumGroups_insert_new by done. apply Counts_eq; simpl; lia.
Qed.

Lemma sumGroups_foldl data : ∀ acc,
  sumGroups (foldl group acc data) = sumFrom (sumGroups acc) (grouped data).
Proof.
  induction data as [| item data IH]; intros acc; simpl; [done |].
  rewrite IH. destruct (inherited (platform item)) eqn:Hi; simpl.
  - unfold group. by rewrite Hi.
  - by rewrite sumGroups_group.
Qed.

Lemma lookup_foldl_group p data : ∀ acc,
  inherited p = false →
  foldl group acc data !! p =
    match rowsOf p data with
    | [] => acc !! p
    | rows => Some (sumFrom (default noCounts (acc !! p)) rows)
    end.
Proof.
  induction data as [| item data IH]; intros acc Hp; simpl; [done |].
  rewrite IH by done. unfold group.
  destruct (String.eqb_spec (platform item) p) as [Heq | Hne].
  - rewrite Heq, Hp, lookup_insert_eq. simpl.
    by destruct (rowsOf p data).
  - destruct (inherited (platform item)); [done |].
    by rewrite lookup_insert_ne.
Qed.

Lemma lookup_foldl_group_inherited p data : ∀ acc,
  inherited p = true → foldl group acc data !! p = acc !! p.
Proof.
  induction data as [| item data IH]; intros acc Hp; simpl; [done |].
  rewrite IH by done. unfold group.
  destruct (inherited (platform item)) eqn:Hi; [done |].
  rewrite lookup_insert_ne; [done |]. intros Heq. congruence.
Qed.

(** X24. The per-platform breakdown that [enhanceStatsWithAnalytics]
    builds agrees with the totals: the entry of a platform holds the
    sums of the three counters over the rows of that platform, a
    platform without rows has no entry, and the entries together add
    up to the totals of the rows grouped. A row whose platform is a
    name inherited from [Object.prototype] is not grouped: it gets no
    entry and is missing from the sum of the entries. *)
Theorem platformStats_add_up data :
  sumGroups (platformStats data) = totals (grouped data) ∧
  ∀ p, platformStats data !! p =
         if inherited p then None
         else match rowsOf p data with
              | [] => None
              | rows => Some (totals rows)
              end.
Proof.
  split.
  - unfold platformStats. rewrite sumGroups_foldl. done.
  - intros p. unfold platformStats. destruct (inherited p) eqn:Hp.
    + by rewrite lookup_foldl_group_inherited.
    + by rewrite lookup_foldl_group.
Qed.

(** When no platform of [data] is an inherited name, the entries of
    [platformStats] add up to [totals]. *)
Lemma platformStats_total data :
  Forall (λ item, inherited (platform item) = false) data →
  sumGroups (platformStats data) = totals data.
Proof.
  intros Hown. unfold platformStats. rewrite sumGroups_foldl.
  change (sumFrom (sumGroups ∅) (grouped data)) with (totals (grouped data)).
  f_equal.
  unfold grouped. induction Hown as [| item data Hi _ IH]; simpl; [done |].
  by rewrite Hi, IH.
Qed.

Example platformStats_drops_inherited_names :
  let data :=
    [{| date := "2025-01-01"; platform := "linkedin";
        counts := {| successful_count := 2; failed_count := 1; total_count := 3 |} |};
     {| date := "2025-01-01"; platform := "constructor";
        counts := {| successful_count := 1; failed_count := 0; total_count := 1 |} |}] in
  total_count (totals data) = 4%Z ∧
  total_count (sumGroups (platformStats data)) = 3%Z.
Proof.
  split; [reflexivity |]. unfold platformStats. rewrite sumGroups_foldl. reflexivity.
Qed.

End StatisticsSpec.

Module InstancesSpec.
Import BrowserInstances.

Lemma closeEach_spec entries : ∀ w,
  browserInstances (closeEach entries w) = browserInstances w ∧
  connected (closeEach entries w) = connected w ∧
  contexts (closeEach entries w) = contexts w ∧
  launches (closeEach entries w) = launches w ∧
  ∃ calls, closeCalls (closeEach entries w) = closeCalls w ++ calls ∧
           Forall (λ b, isConnected w b = false) calls.
Proof.
  induction entries as [| [platform browser] rest IH]; intros w; simpl.
  - split_and!; [done | done | done | done |]. exists []. by rewrite app_nil_r.
  - destruct (isConnected w browser) eqn:Hc; simpl; [apply IH |].
    match goal with
    | |- context [closeEach rest ?w1] =>
        destruct (IH w1) as (Hb & Hconn & Hctx & Hl & calls & Hcalls & Hall)
    end.
    simpl in *. split_and!; [done | done | done | done |].
    exists (browser :: calls). rewrite Hcalls, <- app_assoc. split; [done |].
    by constructor.
Qed.

(** X25. The earlier [closeBrowsers] never closes a running browser:
    it calls [close] only on browsers that are already disconnected,
    so every process that was connected is still connected when it
    returns, and the registry, which is emptied, no longer leads to
    them. *)
Theorem closeBrowsers_closes_no_live_browser entries w :
  browserInstances (closeBrowsers entries w) = ∅ ∧
  connected (closeBrowsers entries w) = connected w ∧
  ∃ calls, closeCalls (closeBrowsers entries w) = closeCalls w ++ calls ∧
           Forall (λ b, isConnected w b = false) calls.
Proof.
  unfold closeBrowsers. simpl.
  destruct (closeEach_spec entries w) as (_ & Hconn & _ & _ & Hcalls).
  done.
Qed.

(** Whether an acquisition goes on to launch a process and store it
    under its own name: the registry still has [Object.prototype] as
    its prototype, the name is not ["__proto__"], and either reuse is
    off, or nothing is found under the name, or the browser found is
    disconnected. *)
Definition launchesAnew (w : World) (platform : string) (options : Options)
  : bool :=
  match prototype w with
  | Some _ => false
  | None =>
      negb (String.eqb platform "__proto__") &&
      (negb (default true (useExisting options)) ||
       match slot w platform with
       | Some Undefined => true
       | Some (Instance browser) => negb (isConnected w browser)
       | _ => false
       end)
  end.

(** The launch that succeeds among the three that [withRetry] allows,
    counted from one, or the error of the third. *)
Definition firstLaunch (env : Engine) (base : nat) : nat + JsError :=
  match launchReply env base with
  | Ok _ => inl 1%nat
  | Throw _ =>
      match launchReply env (S base) with
      | Ok _ => inl 2%nat
      | Throw _ =>
          match launchReply env (S (S base)) with
          | Ok _ => inl 3%nat
          | Throw e => inr e
          end
      end
  end.

Lemma launchWithRetry_spec env w :
  launchWithRetry env w =
    match firstLaunch env (launches w) with
    | inl n =>
        (Ok (length (connected w)),
         {| browserInstances := browserInstances w; prototype := prototype w;
            connected := connected w ++ [true];
            contexts := contexts w; nextHandle := nextHandle w;
            launches := launches w + n; closeCalls := closeCalls w |})
    | inr e =>
        (Throw e,
         {| browserInstances := browserInstances w; prototype := prototype w;
            connected := connected w;
            contexts := contexts w; nextHandle := nextHandle w;
            launches := launches w + 3; closeCalls := closeCalls w |})
    end.
Proof.
  unfold launchWithRetry, firstLaunch, Retry.withRetry. simpl.
  unfold launchOnce at 1.
  destruct (launchReply env (launches w)) as [[] | e0]; simpl.
  { by rewrite Nat.add_1_r. }
  unfold launchOnce at 1. simpl.
  destruct (launchReply env (S (launches w))) as [[] | e1]; simpl.
  { by replace (launches w + 2)%nat with (S (S (launches w))) by lia. }
  unfold launchOnce at 1. simpl.
  destruct (launchReply env (S (S (launches w)))) as [[] | e2]; simpl.
  { by replace (launches w + 3)%nat with (S (S (S (launches w)))) by lia. }
  by replace (launches w + 3)%nat with (S (S (S (launches w)))) by lia.
Qed.

Lemma store_own platform browser w :
  prototype w = None → String.eqb platform "__proto__" = false →
  store platform browser w =
    Some {| browserInstances := <[platform := browser]> (browserInstances w);
            prototype := prototype w;
            connected := connected w; contexts := contexts w;
            nextHandle := nextHandle w; launches := launches w;
            closeCalls := closeCalls w |}.
Proof.
  intros Hproto Hname. unfold store. rewrite Hname, Hproto.
  by destruct (browserInstances w !! platform).
Qed.

Lemma launchesAnew_create w platform options env :
  launchesAnew w platform options = true →
  prototype w = None ∧ String.eqb platform "__proto__" = false ∧
  getBrowserForPlatform platform options env w = create platform env w.
Proof.
  unfold launchesAnew, getBrowserForPlatform.
  destruct (prototype w) eqn:Hproto; [done |].
  destruct (String.eqb platform "__proto__"); [done |]. simpl.
  intros Hanew. split_and!; [done | done |].
  destruct (default true (useExisting options)); [| done]. simpl in *.
  destruct (slot w platform) as [[| browser |] |]; simpl; try done.
  by destruct (isConnected w browser).
Qed.

(** X26. The earlier [getBrowserForPlatform] launches through
    [withRetry]: when it goes on to launch a process to store under
    the platform's name, [chromium.launch] is called until it
    succeeds, three times at most; when all three calls fail the
    error thrown is a [BrowserError] carrying the message of the
    third and the registry is as before; when a call succeeds the new
    process is registered at once, so it stays registered and
    connected even if its context or page cannot be opened, which is
    then reported as a [BrowserError] too. *)
Theorem creation_retries_the_launch platform options env w :
  launchesAnew w platform options = true →
  match firstLaunch env (launches w) with
  | inr e =>
      getBrowserForPlatform platform options env w =
        Some (Throw (BrowserError ("Failed to create browser: " ++ message e)),
              {| browserInstances := browserInstances w;
                 prototype := prototype w; connected := connected w;
                 contexts := contexts w; nextHandle := nextHandle w;
                 launches := launches w + 3; closeCalls := closeCalls w |})
  | inl n =>
      ∃ r w',
        getBrowserForPlatform platform options env w = Some (r, w') ∧
        (1 ≤ n ≤ 3)%nat ∧
        launches w' = (launches w + n)%nat ∧
        browserInstances w' =
          <[platform := length (connected w)]> (browserInstances w) ∧
        isConnected w' (length (connected w)) = true ∧
        match r with
        | Ok session => Browser.s_browser session = length (connected w)
        | Throw error =>
            ∃ cause, error = BrowserError ("Failed to create browser: "
                                             ++ message cause) ∧
                     (newContextReply env = Throw cause ∨
                      newPageReply env = Throw cause)
        end
  end.
Proof.
  intros Hanew.
  destruct (launchesAnew_create w platform options env Hanew)
    as (Hproto & Hname & Hrun).
  rewrite Hrun. unfold create. rewrite launchWithRetry_spec.
  assert (Hn : match firstLaunch env (launches w) with
               | inl n => (1 ≤ n ≤ 3)%nat | inr _ => True end).
  { unfold firstLaunch.
    destruct (launchReply env (launches w)); [lia |].
    destruct (launchReply env (S (launches w))); [lia |].
    destruct (launchReply env (S (S (launches w)))); [lia | done]. }
  destruct (firstLaunch env (launches w)) as [n | e]; [| done].
  rewrite store_own by done. simpl.
  unfold openFirstPage, tryCatch, mbind, M_bind, newContextOn, newPageIn,
    creationFailed, throw, mret, M_ret. simpl.
  assert (Hlive : ∀ l : list bool, default false ((l ++ [true]) !! length l) = true)
    by (intros l; by rewrite lookup_app_r, Nat.sub_diag by lia).
  destruct (newContextReply env) as [[] | e1] eqn:Hc; simpl.
  2:{ eexists _, _. split; [done |]. simpl. unfold isConnected. simpl.
      split_and!; [lia | lia | done | done | apply Hlive |].
      exists e1. split; [done | by left]. }
  destruct (newPageReply env) as [[] | e2] eqn:Hp; simpl.
  2:{ eexists _, _. split; [done |]. simpl. unfold isConnected. simpl.
      split_and!; [lia | lia | done | done | apply Hlive |].
      exists e2. split; [done | by right]. }
  eexists _, _. split; [done |]. simpl. unfold isConnected. simpl.
  split_and!; [lia | lia | done | done | apply Hlive | done].
Qed.

(** The launch fails twice, then succeeds. *)
Definition thirdTime : Engine :=
  {| launchReply := λ k, if (k <? 2)%nat then Throw (Error "spawn failed") else Ok tt;
     newContextReply := Ok tt; newPageReply := Ok tt;
     random := {| num := 1; den := 2 |} |}.

Definition plain : Options :=
  {| useExisting := None; proxy := None; newContext := None |}.

Lemma creation_retries_the_launch_witness :
  ∃ r w',
    getBrowserForPlatform "linkedin" plain thirdTime empty = Some (r, w') ∧
    launches w' = 3%nat ∧
    browserInstances w' !! "linkedin" = Some 0%nat.
Proof.
  destruct (creation_retries_the_launch "linkedin" plain thirdTime empty eq_refl)
    as (r & w' & Hrun & _ & Hl & Hb & _).
  exists r, w'. split; [exact Hrun |]. split; [exact Hl |].
  rewrite Hb. reflexivity.
Defined.

(** A platform named like a member of [Object.prototype]: with reuse
    on, the test for a browser to reuse throws before anything is
    launched, and the error is not a [BrowserError]. *)
Lemma inherited_name_is_not_launched platform options env w :
  prototype w = None →
  browserInstances w !! platform = None →
  Statistics.inherited platform = true →
  default true (useExisting options) = true →
  getBrowserForPlatform platform options env w =
    Some (Throw (notAFunction "browserInstances[platform].isConnected"), w).
Proof.
  intros Hproto Hown Hin Huse. unfold getBrowserForPlatform, slot.
  by rewrite Huse, Hown, Hproto, Hin.
Qed.

Example constructor_is_no_platform :
  getBrowserForPlatform "constructor" plain thirdTime empty =
    Some (Throw (TypeError "browserInstances[platform].isConnected is not a function"),
          empty).
Proof. reflexivity. Qed.

(** A store under ["__proto__"] creates no own property: the browser
    becomes the prototype of the registry, where the next reuse-enabled
    acquisition under that name finds it. *)
Example proto_is_no_key :
  let options := {| useExisting := Some false; proxy := None; newContext := None |} in
  (λ rw, (browserInstances (snd rw), prototype (snd rw))) <$>
    getBrowserForPlatform "__proto__" options thirdTime empty
  = Some (∅, Some 0%nat).
Proof. reflexivity. Qed.

End InstancesSpec.

Module EarlierSaveSpec.
Import Service ScrapingService.

Lemma saveEach_only_appends env jobs : ∀ i stats table,
  ∃ kept,
    sublist kept jobs ∧
    snd (saveEach env i jobs stats table) = table ++ map newRow kept ∧
    match fst (saveEach env i jobs stats table) with
    | Ok stats' =>
        total stats' = total stats ∧
        newJobs stats' = (newJobs stats + length kept)%nat ∧
        (duplicates stats' + length kept ≤ duplicates stats + length jobs)%nat
    | Throw e =>
        ∃ j, (j < length jobs)%nat ∧
             (checkReply env (i + j) = Supabase.Rejected e ∨
              insertReply env (i + j) = Supabase.Rejected e)
    end.
Proof.
  induction jobs as [| job rest IH]; intros i stats table; simpl.
  - exists []. rewrite app_nil_r. simpl. split_and!; [done | done | done | lia | lia].
  - assert (Hskip : ∀ stats0,
      (duplicates stats0 ≤ S (duplicates stats))%nat →
      total stats0 = total stats → newJobs stats0 = newJobs stats →
      ∃ kept,
        sublist kept (job :: rest) ∧
        snd (saveEach env (S i) rest stats0 table) = table ++ map newRow kept ∧
        match fst (saveEach env (S i) rest stats0 table) with
        | Ok stats' =>
            total stats' = total stats ∧
            newJobs stats' = (newJobs stats + length kept)%nat ∧
            (duplicates stats' + length kept
               ≤ duplicates stats + S (length rest))%nat
        | Throw e =>
            ∃ j, (j < S (length rest))%nat ∧
                 (checkReply env (i + j) = Supabase.Rejected e ∨
                  insertReply env (i + j) = Supabase.Rejected e)
        end).
    { intros stats0 Hd Ht Hn.
      destruct (IH (S i) stats0 table) as (kept & Hsub & Htab & Hres).
      exists kept. split; [by apply sublist_cons |]. split; [done |].
      destruct (fst (saveEach env (S i) rest stats0 table)) as [stats' | e].
      - destruct Hres as (Ht' & Hn' & Hd'). split_and!; [congruence | lia | lia].
      - destruct Hres as (j & Hj & Hwhy). exists (S j). split; [lia |].
        by replace (i + S j)%nat with (S i + j)%nat by lia. }
    destruct (checkReply env i) as [| msg | e] eqn:Hcheck.
    + destruct (0 <? length _)%nat.
      * apply Hskip; simpl; [lia | done | done].
      * destruct (insertReply env i) as [| msg | e] eqn:Hins.
        -- destruct (IH (S i) (countNew job stats) (table ++ [newRow job]))
             as (kept & Hsub & Htab & Hres).
           exists (job :: kept). split; [by apply sublist_skip |].
           rewrite Htab, <- app_assoc. split; [done |].
           destruct (fst (saveEach env (S i) rest _ _)) as [stats' | e].
           ++ destruct Hres as (Ht' & Hn' & Hd'). simpl in *.
              split_and!; [done | lia | lia].
           ++ destruct Hres as (j & Hj & Hwhy). exists (S j). split; [lia |].
              by replace (i + S j)%nat with (S i + j)%nat by lia.
        -- apply Hskip; [lia | done | done].
        -- exists []. rewrite app_nil_r. split; [apply sublist_nil_l |].
           split; [done |]. exists 0%nat. rewrite Nat.add_0_r. split; [lia | by right].
    + apply Hskip; [lia | done | done].
    + exists []. rewrite app_nil_r. split; [apply sublist_nil_l |].
      split; [done |]. exists 0%nat. rewrite Nat.add_0_r. split; [lia | by left].
Qed.

(** X27. [saveJobsToDatabase] of the earlier pipeline only appends:
    whether it returns or is left by a rejected store call, the table
    is the old one followed by the rows of listings taken in order
    from those given; when it returns, [total] is the number of
    listings, [newJobs] the number of rows written and
    [newJobs + duplicates] does not exceed [total]; when it throws,
    the error is the one with which the check or the insert of one of
    the listings was rejected, and the rows written before stay. *)
Theorem earlier_save_only_appends env jobs table :
  ∃ kept,
    sublist kept jobs ∧
    snd (saveJobsToDatabase env jobs table) = table ++ map newRow kept ∧
    match fst (saveJobsToDatabase env jobs table) with
    | Ok stats =>
        total stats = length jobs ∧ newJobs stats = length kept ∧
        (newJobs stats + duplicates stats ≤ total stats)%nat
    | Throw e =>
        ∃ j, (j < length jobs)%nat ∧
             (checkReply env j = Supabase.Rejected e ∨
              insertReply env j = Supabase.Rejected e)
    end.
Proof.
  unfold saveJobsToDatabase.
  destruct (saveEach_only_appends env jobs 0
              {| total := length jobs; newJobs := 0; duplicates := 0;
                 sampleTitles := [] |} table) as (kept & Hsub & Htab & Hres).
  exists kept. split; [done |]. split; [done |].
  destruct (fst (saveEach env 0 jobs _ table)) as [stats | e].
  - simpl in Hres. destruct Hres as (Ht & Hn & Hd). split_and!; [done | done | lia].
  - done.
Qed.

End EarlierSaveSpec.

Module LeakSpec.
Import Service BaseScraper.

Lemma release_processes session pw :
  Browser.processes (ScraperSpec.release session pw) = Browser.processes pw ∧
  Browser.browsers (ScraperSpec.release session pw) = Browser.browsers pw.
Proof. done. Qed.

(** X28. Every [scrape] whose acquisition succeeds leaves one more
    browser process running: whatever the extraction and the store
    do afterwards, the processes of the pool are those from before,
    in the state they were in, followed by the process launched for
    this run, still connected; [scrape] closes the page and the
    context but never the process. *)
Theorem scrape_leaves_its_process_running self cfg options env w :
  truthy (keywords options) = true →
  Browser.launch (engine env) = Ok tt →
  Browser.newContext (engine env) = Ok tt →
  Browser.newPage (engine env) = Ok tt →
  Browser.processes (pool (snd (snd (scrape self cfg options env (noFrame, w))))) =
    Browser.processes (pool w)
      ++ [{| Browser.handlerKey := toLowerCase (platform self);
             Browser.connected := true |}].
Proof.
  intros Hk Hl Hc Hp.
  rewrite (ScraperSpec.scrape_run self cfg options env w Hk).
  destruct (Proxy.getProxy cfg (random env) (currentProxyIndex w)) as [proxy idx].
  unfold Browser.getBrowserForPlatform. simpl.
  unfold Browser.create. rewrite Hl, PoolSpec.openPage_ok by done. simpl.
  destruct (ScraperSpec.attemptsMade self env _ (maxRetries self) 0) as [[jobs | e] n].
  - destruct (saveJobsToDatabase self env jobs (jobsTable w)) as [rs t]. simpl.
    by rewrite (proj1 (proj2 (ScraperSpec.usePage_fields _ _ _))).
  - simpl.
    by rewrite (proj1 (proj2 (ScraperSpec.usePage_fields _ _ _))).
Qed.

Lemma scrape_leaves_its_process_running_witness :
  Browser.processes
    (pool (snd (snd (scrape (new "indeed") ScraperSpec.noProxies
                       ScraperSpec.backendEngineer
                       (ScraperSpec.calm ScraperSpec.threeFound)
                       (noFrame, ScraperSpec.storeWith [])))))
  = [{| Browser.handlerKey := "indeed"; Browser.connected := true |}].
Proof.
  exact (scrape_leaves_its_process_running (new "indeed") ScraperSpec.noProxies
           ScraperSpec.backendEngineer (ScraperSpec.calm ScraperSpec.threeFound)
           (ScraperSpec.storeWith []) eq_refl eq_refl eq_refl eq_refl).
Defined.

End LeakSpec.
